(** * Venalabs Stellar SDK: the authenticated API client

    A shallow embedding of [src/api/errors.ts], [src/api/fetchWithRetry.ts]
    and [src/api/VenalabsApiClient.ts], and the properties of the
    specification that concern them.

    Conventions of the embedding:
    - a JS [number] that holds a status code, a delay in milliseconds or a
      count is a [Z]; the [retries] option, which the code only adds to and
      compares, is a rational [Q], so that a fractional value is told from
      the whole numbers around it (a number stands for the rational it
      denotes; values beyond the range in which adding or subtracting 1 is
      exact in floating point, [NaN] and the infinities as inputs are not
      considered);
    - a JS string is a [string] (a sequence of bytes, UTF-8);
    - an optional property is an [option]; [None] is an absent property;
      where the code tells an absent property from one that holds
      [undefined] (the options of [fetchWithRetry]), the property that is
      present is a [Given]: [Undefined] or a number [Num];
    - an [async] function is a computation in the monad [M]: it threads the
      client's mutable fields and a log of the effects it performed, and
      ends either resolved with a value or rejected with the thrown value;
    - the two external collaborators, the host's token provider and the
      platform's [fetch], are oracles: functions from the number of calls
      made so far to what the next call settles to. *)

From Stdlib Require Import ZArith QArith Qround List String Ascii Bool Lia
  Lqa DecimalString.
Import ListNotations.

Set Warnings "-register-all".

Local Open Scope string_scope.
Local Open Scope Z_scope.

(** ** JavaScript helpers *)

(** [!s] is false exactly for the non-empty strings. *)
Definition truthy (s : string) : bool :=
  match s with
  | EmptyString => false
  | String _ _ => true
  end.

(** [o || d] for an optional string property [o]. *)
Definition or_default (o : option string) (d : string) : string :=
  match o with
  | Some m => if truthy m then m else d
  | None => d
  end.

(** [`${n}`] for an integral number. *)
Definition string_of_Z (n : Z) : string :=
  NilZero.string_of_int (Z.to_int n).

(** What a variable holds that was destructured from an object in which
    the property is present: [undefined], or a value. *)
Inductive Given (A : Type) : Type :=
| Undefined
| Num (a : A).
Arguments Undefined {A}.
Arguments Num {A} a.

(** ** Error taxonomy ([src/api/errors.ts]) *)

Module Errors.

Inductive VenalabsErrorCode : Type :=
| INVALID_API_KEY
| INVALID_TOKEN
| TOKEN_EXPIRED
| NOT_FOUND
| NETWORK_ERROR
| RATE_LIMITED
| TIMEOUT
| SERVER_ERROR
| UNKNOWN.

(** [VenalabsErrorCodes]: the string each key of the table stands for. *)
Definition VenalabsErrorCodes (c : VenalabsErrorCode) : string :=
  match c with
  | INVALID_API_KEY => "INVALID_API_KEY"
  | INVALID_TOKEN => "INVALID_TOKEN"
  | TOKEN_EXPIRED => "TOKEN_EXPIRED"
  | NOT_FOUND => "NOT_FOUND"
  | NETWORK_ERROR => "NETWORK_ERROR"
  | RATE_LIMITED => "RATE_LIMITED"
  | TIMEOUT => "TIMEOUT"
  | SERVER_ERROR => "SERVER_ERROR"
  | UNKNOWN => "UNKNOWN"
  end.

Definition all_codes : list VenalabsErrorCode :=
  [INVALID_API_KEY; INVALID_TOKEN; TOKEN_EXPIRED; NOT_FOUND; NETWORK_ERROR;
   RATE_LIMITED; TIMEOUT; SERVER_ERROR; UNKNOWN].

(** [a === b] on error codes is equality of their strings. *)
Definition code_eqb (a b : VenalabsErrorCode) : bool :=
  String.eqb (VenalabsErrorCodes a) (VenalabsErrorCodes b).

(** The error record: the fields set by the constructor of
    [VenalabsApiError]. *)
Record VenalabsApiError : Type := mkApiError {
  code : VenalabsErrorCode;
  status : Z;
  message : string
}.

Definition isAuthError (e : VenalabsApiError) : bool :=
  code_eqb (code e) INVALID_API_KEY
  || code_eqb (code e) INVALID_TOKEN
  || code_eqb (code e) TOKEN_EXPIRED.

Definition isRetryable (e : VenalabsApiError) : bool :=
  code_eqb (code e) NETWORK_ERROR
  || code_eqb (code e) TIMEOUT
  || code_eqb (code e) SERVER_ERROR
  || code_eqb (code e) RATE_LIMITED.

(** The error body consumed by [fromResponse]:
    [{ code?: number; type?: string; message?: string }]. *)
Record ErrorBody : Type := mkErrorBody {
  body_code : option Z;
  body_type : option string;
  body_message : option string
}.

(** [{}] *)
Definition empty_body : ErrorBody := mkErrorBody None None None.

(** [body?.type] and [body?.message] for the optional argument [body]. *)
Definition type_of (body : option ErrorBody) : option string :=
  match body with Some b => body_type b | None => None end.

Definition message_of (body : option ErrorBody) : option string :=
  match body with Some b => body_message b | None => None end.

(** [body?.type === 'TOKEN_EXPIRED'] *)
Definition is_token_expired (body : option ErrorBody) : bool :=
  match type_of body with
  | Some t => String.eqb t "TOKEN_EXPIRED"
  | None => false
  end.

Definition fromResponse (status : Z) (body : option ErrorBody)
  : VenalabsApiError :=
  let '(code, message) :=
    if status =? 401 then
      (if is_token_expired body then TOKEN_EXPIRED else INVALID_TOKEN,
       or_default (message_of body) "Authentication failed")
    else if status =? 403 then
      (INVALID_API_KEY, or_default (message_of body) "Invalid API key")
    else if status =? 404 then
      (NOT_FOUND, or_default (message_of body) "Resource not found")
    else if status =? 429 then
      (RATE_LIMITED, or_default (message_of body) "Too many requests")
    else if status >=? 500 then
      (SERVER_ERROR, or_default (message_of body) "Server error")
    else
      (UNKNOWN,
       or_default (message_of body)
         ("Request failed with status " ++ string_of_Z status))
  in
  mkApiError code status message.

(** [fromNetworkError(error)], given [error.message]. *)
Definition fromNetworkError (error_message : string) : VenalabsApiError :=
  mkApiError NETWORK_ERROR 0 ("Network error: " ++ error_message).

Definition fromTimeout (timeoutMs : Z) : VenalabsApiError :=
  mkApiError TIMEOUT 0
    ("Request timed out after " ++ string_of_Z timeoutMs ++ "ms").

(** The message [fromResponse] falls back to when the body gives none. *)
Definition default_message (status : Z) : string :=
  message (fromResponse status None).

End Errors.

Import Errors.

(** ** HTTP data *)

(** A parsed JSON document. *)
Inductive Json : Type :=
| JNull
| JBool (b : bool)
| JNum (n : Z)
| JStr (s : string)
| JArr (items : list Json)
| JObj (fields : list (string * Json)).

(** JS truthiness of a JSON value ([body ? ... : ...]). *)
Definition json_truthy (v : Json) : bool :=
  match v with
  | JNull => false
  | JBool b => b
  | JNum n => negb (n =? 0)
  | JStr s => truthy s
  | JArr _ => true
  | JObj _ => true
  end.

(** [object[name]] for the properties of a parsed object, in the order of
    the text; of two properties of the same name the parser keeps the
    later one. *)
Fixpoint field (name : string) (fields : list (string * Json)) : option Json :=
  match fields with
  | [] => None
  | (k, v) :: rest =>
      match field name rest with
      | Some later => Some later
      | None => if String.eqb k name then Some v else None
      end
  end.

Definition string_field (name : string) (v : Json) : option string :=
  match v with
  | JObj fields =>
      match field name fields with
      | Some (JStr s) => Some s
      | _ => None
      end
  | _ => None
  end.

Definition number_field (name : string) (v : Json) : option Z :=
  match v with
  | JObj fields =>
      match field name fields with
      | Some (JNum n) => Some n
      | _ => None
      end
  | _ => None
  end.

(** A parsed document that has the type [fromResponse] declares for its
    body, [{ code?: number; type?: string; message?: string }], as a value
    of that type. *)
Definition error_body_of (v : Json) : ErrorBody :=
  mkErrorBody (number_field "code" v) (string_field "type" v)
              (string_field "message" v).

(** [items.join(',')] *)
Fixpoint join (items : list string) : string :=
  match items with
  | [] => ""
  | [item] => item
  | item :: rest => item ++ "," ++ join rest
  end.

(** [String(v)], the conversion [new Error(message)] applies to its
    argument: a whole number prints in decimal, an array prints its
    elements separated by commas ([null] as nothing), an object prints as
    [[object Object]]. *)
Fixpoint js_string (v : Json) : string :=
  match v with
  | JNull => "null"
  | JBool b => if b then "true" else "false"
  | JNum n => string_of_Z n
  | JStr s => s
  | JArr items =>
      join (map (fun item => match item with
                             | JNull => ""
                             | _ => js_string item
                             end) items)
  | JObj _ => "[object Object]"
  end.


(** [body?.message], where [body] is any parsed document. *)
Definition message_field (body : Json) : option Json :=
  match body with
  | JObj fields => field "message" fields
  | _ => None
  end.

(** [VenalabsApiError.fromResponse(status, body)] as the client calls it,
    with whatever [response.json()] gave: the body is not checked against
    the type the parameter declares.  [body?.type === 'TOKEN_EXPIRED'] can
    only hold of a string; [body?.message || fallback] takes any truthy
    value, and the [Error] constructor converts it to a string. *)
Definition fromResponseParsed (status : Z) (body : Json) : VenalabsApiError :=
  let by_status :=
    fromResponse status
      (Some (mkErrorBody None (string_field "type" body) None)) in
  mkApiError (code by_status) (Errors.status by_status)
    match message_field body with
    | Some m => if json_truthy m then js_string m else message by_status
    | None => message by_status
    end.

Inductive Method : Type := GET | POST.

(** The object [getHeaders] builds. *)
Record Headers : Type := mkHeaders {
  content_type : string;
  x_api_key : string;
  authorization : string
}.

(** What one call of [fetch] is given: the URL and the [RequestInit]
    (the abort signal apart).  [req_body] is the document that
    [JSON.stringify] serialises, [None] for [undefined]. *)
Record Request : Type := mkRequest {
  req_url : string;
  req_method : Method;
  req_headers : Headers;
  req_body : option Json
}.

(** What the client reads of a [Response]: [response.status], the
    [content-length] header, and what [response.json()] settles to
    ([None] when the body is not a JSON document, as an empty body is not:
    the promise is then rejected with a [SyntaxError]). *)
Record Response : Type := mkResponse {
  resp_status : Z;
  resp_content_length : option string;
  resp_json : option Json
}.

(** [response.ok]: the status is in the range 200-299. *)
Definition ok (r : Response) : bool :=
  (200 <=? resp_status r) && (resp_status r <=? 299).

(** A thrown value (or the reason a promise is rejected with). *)
Inductive Thrown : Type :=
| ApiError (e : VenalabsApiError)
| JsError (name message : string)
| NonError (text : string).

(** [error instanceof Error && error.name === 'AbortError'] *)
Definition is_abort (t : Thrown) : bool :=
  match t with
  | ApiError _ => false
  | JsError name _ => String.eqb name "AbortError"
  | NonError _ => false
  end.

(** [error instanceof Error ? error : new Error(String(error))] *)
Definition as_error (t : Thrown) : Thrown :=
  match t with
  | NonError text => JsError "Error" text
  | _ => t
  end.

(** [error.message] of an [Error]. *)
Definition thrown_message (t : Thrown) : string :=
  match t with
  | ApiError e => message e
  | JsError _ m => m
  | NonError text => text
  end.

Inductive FetchOutcome : Type :=
| Responds (r : Response)
| Throws (t : Thrown).

Inductive ProviderOutcome : Type :=
| Provides (token : string)
| Fails (t : Thrown).

(** ** The environment and the effect monad *)

(** The host's token provider, of type [() => Promise<string>]: what its
    [n]-th call (counting from 0) settles to. *)
Definition TokenProvider : Type := nat -> ProviderOutcome.

(** The platform's [fetch]: what its [n]-th call settles to, which may
    depend on the request.  A call that the timeout aborts settles to a
    thrown [AbortError]. *)
Record World : Type := mkWorld {
  fetch : nat -> Request -> FetchOutcome
}.

(** The effects a client performs: a call of the token provider; a call
    of the transport primitive [fetchWithRetry]; one [fetch] attempt under
    its timeout; a wait between attempts; a call of [response.json()].
    An attempt and a wait carry the argument given to
    [createTimeoutController] and to [sleep]. *)
Inductive Event : Type :=
| EvProvider
| EvRequest (req : Request)
| EvFetch (req : Request) (timeoutMs : Given Z)
| EvSleep (ms : Given Z)
| EvJson.

(** The mutable part of a client instance, [cachedToken], and the effects
    performed so far, oldest first. *)
Record State : Type := mkState {
  cachedToken : option string;
  log : list Event
}.

Definition is_provider (e : Event) : bool :=
  match e with EvProvider => true | _ => false end.
Definition is_request (e : Event) : bool :=
  match e with EvRequest _ => true | _ => false end.
Definition is_fetch (e : Event) : bool :=
  match e with EvFetch _ _ => true | _ => false end.
Definition is_sleep (e : Event) : bool :=
  match e with EvSleep _ => true | _ => false end.
Definition is_json (e : Event) : bool :=
  match e with EvJson => true | _ => false end.

Definition count (p : Event -> bool) (l : list Event) : nat :=
  List.length (filter p l).

Definition provider_calls (s : State) : nat := count is_provider (log s).
Definition transport_calls (s : State) : nat := count is_request (log s).
Definition fetch_calls (s : State) : nat := count is_fetch (log s).
Definition json_calls (s : State) : nat := count is_json (log s).

Inductive Outcome (A : Type) : Type :=
| Resolved (a : A)
| Rejected (t : Thrown).
Arguments Resolved {A} a.
Arguments Rejected {A} t.

Definition M (A : Type) : Type := State -> Outcome A * State.

Definition ret {A} (a : A) : M A := fun s => (Resolved a, s).
Definition throw {A} (t : Thrown) : M A := fun s => (Rejected t, s).
Definition bind {A B} (c : M A) (k : A -> M B) : M B :=
  fun s =>
    match c s with
    | (Resolved a, s') => k a s'
    | (Rejected t, s') => (Rejected t, s')
    end.
(** [try { c } catch (error) { h error }] and [c.catch(h)]. *)
Definition try_catch {A} (c : M A) (h : Thrown -> M A) : M A :=
  fun s =>
    match c s with
    | (Resolved a, s') => (Resolved a, s')
    | (Rejected t, s') => h t s'
    end.

Declare Scope m_scope.
Delimit Scope m_scope with m.
Notation "x <- c ;; k" := (bind c (fun x => k))
  (at level 61, c at next level, right associativity) : m_scope.
Notation "c ;; k" := (bind c (fun _ => k))
  (at level 61, right associativity) : m_scope.
Local Open Scope m_scope.

Definition emit (e : Event) : M unit :=
  fun s => (Resolved tt, mkState (cachedToken s) (log s ++ [e])).

(** [await tokenProvider()] *)
Definition call_provider (tokenProvider : TokenProvider) : M string :=
  fun s =>
    let s' := mkState (cachedToken s) (log s ++ [EvProvider]) in
    match tokenProvider (provider_calls s) with
    | Provides token => (Resolved token, s')
    | Fails t => (Rejected t, s')
    end.

(** One [fetch(url, {...options, signal})] under its timeout, as the
    [try] block sees it. *)
Definition call_fetch (w : World) (req : Request) (timeoutMs : Given Z)
  : M FetchOutcome :=
  fun s =>
    (Resolved (fetch w (fetch_calls s) req),
     mkState (cachedToken s) (log s ++ [EvFetch req timeoutMs])).

Definition sleep (ms : Given Z) : M unit := emit (EvSleep ms).

(** [response.json()] *)
Definition json (r : Response) : M Json :=
  emit EvJson ;;
  match resp_json r with
  | Some v => ret v
  | None => throw (JsError "SyntaxError" "Unexpected end of JSON input")
  end.

(** ** Transport primitive ([src/api/fetchWithRetry.ts]) *)

Module Transport.

(** [retryOptions]: each property is absent ([None]) or present, and a
    present property holds [undefined] or a number. *)
Record FetchWithRetryOptions : Type := mkOptions {
  retries : option (Given Q);
  retryDelay : option (Given Z);
  timeout : option (Given Z)
}.

Definition no_options : FetchWithRetryOptions := mkOptions None None None.

Definition DEFAULT_retries : Q := 1.
Definition DEFAULT_retryDelay : Z := 2000.
Definition DEFAULT_timeout : Z := 30000.

(** [{ ...DEFAULT_OPTIONS, ...retryOptions }], one property: a property
    that is present in [retryOptions] overrides the default, also when it
    holds [undefined]. *)
Definition spread {A} (default : A) (given : option (Given A)) : Given A :=
  match given with Some v => v | None => Num default end.

(** How many times the guard [attemptsRemaining > 0] holds when
    [attemptsRemaining] starts at [retries + 1] and each iteration
    decrements it: never for [undefined + 1], which is [NaN]; else the
    least whole number that is not below [retries + 1], if positive (see
    [guard_holds] and [guard_after_decrement]). *)
Definition iterations (retries : Given Q) : nat :=
  match retries with
  | Undefined => O
  | Num r => Z.to_nat (Qceiling (r + 1))
  end.

(** [VenalabsApiError.fromTimeout(timeout)]; the template literal prints
    [undefined] as such. *)
Definition timeoutError (timeout : Given Z) : VenalabsApiError :=
  match timeout with
  | Num timeoutMs => fromTimeout timeoutMs
  | Undefined => mkApiError TIMEOUT 0 "Request timed out after undefinedms"
  end.

Definition isRetryableStatus (status : Z) : bool :=
  (status >=? 500) || (status =? 429).

(** [lastError || new Error('Unknown fetch error')] *)
Definition last_or_unknown (lastError : option Thrown) : Thrown :=
  match lastError with
  | Some t => t
  | None => JsError "Error" "Unknown fetch error"
  end.

(** The [while (attemptsRemaining > 0)] loop, by recursion on the number
    of times its guard can still hold, [iterations]: each iteration
    returns, throws, or decrements [attemptsRemaining] and continues if it
    is still positive. *)
Fixpoint attempts (w : World) (req : Request) (retryDelay timeout : Given Z)
    (attemptsRemaining : nat) (lastError : option Thrown) : M Response :=
  match attemptsRemaining with
  | O => throw (last_or_unknown lastError)
  | S attemptsRemaining' =>
      o <- call_fetch w req timeout ;;
      match o with
      | Responds response =>
          if ok response || negb (isRetryableStatus (resp_status response))
          then ret response
          else
            match attemptsRemaining' with
            | S _ =>
                sleep retryDelay ;;
                attempts w req retryDelay timeout attemptsRemaining' lastError
            | O => ret response
            end
      | Throws error =>
          if is_abort error then
            let lastError' := ApiError (timeoutError timeout) in
            match attemptsRemaining' with
            | S _ =>
                sleep retryDelay ;;
                attempts w req retryDelay timeout attemptsRemaining'
                         (Some lastError')
            | O => throw lastError'
            end
          else
            let lastError' := as_error error in
            match attemptsRemaining' with
            | S _ =>
                sleep retryDelay ;;
                attempts w req retryDelay timeout attemptsRemaining'
                         (Some lastError')
            | O =>
                throw (ApiError
                         (fromNetworkError (thrown_message lastError')))
            end
      end
  end.

Definition fetchWithRetry (w : World) (req : Request)
    (retryOptions : FetchWithRetryOptions) : M Response :=
  let retries := spread DEFAULT_retries (retries retryOptions) in
  let retryDelay := spread DEFAULT_retryDelay (retryDelay retryOptions) in
  let timeout := spread DEFAULT_timeout (timeout retryOptions) in
  emit (EvRequest req) ;;
  attempts w req retryDelay timeout (iterations retries) None.

End Transport.

Import Transport.

(** ** API client ([src/api/VenalabsApiClient.ts]) *)

(** [encodeURIComponent]: every byte is percent-encoded except the
    unreserved characters [A-Z a-z 0-9 - _ . ! ~ * ' ( )]. *)
Definition unreserved (c : ascii) : bool :=
  let n := nat_of_ascii c in
  ((65 <=? n) && (n <=? 90))%nat
  || ((97 <=? n) && (n <=? 122))%nat
  || ((48 <=? n) && (n <=? 57))%nat
  || existsb (Ascii.eqb c) (list_ascii_of_string "-_.!~*'()").

Definition hex_digit (n : nat) : ascii :=
  nth n (list_ascii_of_string "0123456789ABCDEF") "0"%char.

Fixpoint encodeURIComponent (s : string) : string :=
  match s with
  | EmptyString => EmptyString
  | String c rest =>
      if unreserved c then String c (encodeURIComponent rest)
      else
        let n := nat_of_ascii c in
        String "%"%char
          (String (hex_digit (n / 16)%nat)
             (String (hex_digit (n mod 16)%nat) (encodeURIComponent rest)))
  end.

(** [s.replace(/\/$/, '')]: drop one trailing slash. *)
Fixpoint strip_trailing_slash (s : string) : string :=
  match s with
  | EmptyString => EmptyString
  | String c EmptyString => if Ascii.eqb c "/"%char then EmptyString else s
  | String c rest => String c (strip_trailing_slash rest)
  end.

Module Client.

Definition DEFAULT_BASE_URL : string := "https://api.venalabs.com".
Definition DEFAULT_TIMEOUT : Z := 30000.

Record VenalabsApiClientConfig : Type := mkConfig {
  cfg_apiKey : string;
  cfg_getAccessToken : option TokenProvider;
  cfg_baseUrl : option string;
  cfg_timeout : option Z
}.

(** The [readonly] fields of a client instance. *)
Record VenalabsApiClient : Type := mkClient {
  apiKey : string;
  baseUrl : string;
  timeout : Z;
  tokenProvider : TokenProvider
}.

(** [config.timeout || DEFAULT_TIMEOUT] *)
Definition timeout_or_default (o : option Z) : Z :=
  match o with
  | Some t => if t =? 0 then DEFAULT_TIMEOUT else t
  | None => DEFAULT_TIMEOUT
  end.

(** The constructor: the instance, or the [Error] it throws. *)
Definition constructor (config : VenalabsApiClientConfig)
  : Thrown + VenalabsApiClient :=
  if negb (truthy (cfg_apiKey config)) then
    inl (JsError "Error" "apiKey is required")
  else
    match cfg_getAccessToken config with
    | None => inl (JsError "Error" "getAccessToken is required")
    | Some provider =>
        inr (mkClient (cfg_apiKey config)
               (strip_trailing_slash
                  (or_default (cfg_baseUrl config) DEFAULT_BASE_URL))
               (timeout_or_default (cfg_timeout config))
               provider)
    end.

(** The state of a freshly constructed instance. *)
Definition initial : State := mkState None [].

(** [this.cachedToken = token] *)
Definition set_cachedToken (token : option string) : M unit :=
  fun s => (Resolved tt, mkState token (log s)).

(** [refreshToken], run by a single logical flow.  The field
    [tokenPromise] is [null] whenever such a flow enters the method (both
    handlers reset it before the awaiting caller resumes), so the provider
    is called; the [then] handler stores the token, the [catch] handler
    rethrows.  Callers that overlap are the subject of [Coordinator]. *)
Definition refreshToken (c : VenalabsApiClient) : M string :=
  token <- call_provider (tokenProvider c) ;;
  set_cachedToken (Some token) ;;
  ret token.

Definition getToken (c : VenalabsApiClient) : M string :=
  fun s =>
    match cachedToken s with
    | Some token => if truthy token then ret token s else refreshToken c s
    | None => refreshToken c s
    end.

Definition clearToken : M unit := set_cachedToken None.

Definition getHeaders (c : VenalabsApiClient) : M Headers :=
  token <- getToken c ;;
  ret (mkHeaders "application/json" (apiKey c) ("Bearer " ++ token)).

Definition getRetryOptions (c : VenalabsApiClient) : FetchWithRetryOptions :=
  mkOptions (Some (Num 1%Q)) (Some (Num 2000)) (Some (Num (timeout c))).

(** What a call resolves with: [undefined], or a parsed document
    ([VJson JNull] is [null]). *)
Inductive Value : Type :=
| VUndefined
| VJson (v : Json).

Definition url_of (c : VenalabsApiClient) (endpoint : string) : string :=
  baseUrl c ++ "/api/v1/sdk" ++ endpoint.

(** The body of [get]; [again] stands for the call
    [this.get<T>(endpoint, true)]. *)
Definition get_body (again : M Value) (w : World) (c : VenalabsApiClient)
    (endpoint : string) (isRetry : bool) : M Value :=
  let url := url_of c endpoint in
  headers <- getHeaders c ;;
  response <- fetchWithRetry w (mkRequest url GET headers None)
                (getRetryOptions c) ;;
  if (resp_status response =? 401) && negb isRetry then
    clearToken ;;
    refreshToken c ;;
    again
  else if negb (ok response) then
    body <- try_catch (json response) (fun _ => ret (JObj [])) ;;
    throw (ApiError (fromResponseParsed (resp_status response) body))
  else
    v <- json response ;;
    ret (VJson v).

(** With [isRetry = true] the body never reaches the recursive call. *)
Definition never {A} : M A :=
  throw (JsError "InternalError" "unreachable").

(** [get]: the recursive call is made with [isRetry = true], so two levels
    unfold the recursion (see [get_unfold]). *)
Definition get (w : World) (c : VenalabsApiClient) (endpoint : string)
    (isRetry : bool) : M Value :=
  get_body (get_body never w c endpoint true) w c endpoint isRetry.

(** [body ? JSON.stringify(body) : undefined] *)
Definition stringify_if_truthy (body : option Json) : option Json :=
  match body with
  | Some v => if json_truthy v then Some v else None
  | None => None
  end.

(** [response.status === 204 || contentLength === '0'] *)
Definition is_empty_response (response : Response) : bool :=
  (resp_status response =? 204)
  || match resp_content_length response with
     | Some l => String.eqb l "0"
     | None => false
     end.

Definition post_body (again : M Value) (w : World) (c : VenalabsApiClient)
    (endpoint : string) (body : option Json) (isRetry : bool) : M Value :=
  let url := url_of c endpoint in
  headers <- getHeaders c ;;
  response <- fetchWithRetry w
                (mkRequest url POST headers (stringify_if_truthy body))
                (getRetryOptions c) ;;
  if (resp_status response =? 401) && negb isRetry then
    clearToken ;;
    refreshToken c ;;
    again
  else if negb (ok response) then
    errorBody <- try_catch (json response) (fun _ => ret (JObj [])) ;;
    throw (ApiError (fromResponseParsed (resp_status response) errorBody))
  else if is_empty_response response then
    ret VUndefined
  else
    v <- json response ;;
    ret (VJson v).

Definition post (w : World) (c : VenalabsApiClient) (endpoint : string)
    (body : option Json) (isRetry : bool) : M Value :=
  post_body (post_body never w c endpoint body true) w c endpoint body isRetry.

(** [if (!x) throw new Error('x is required')] *)
Definition require (name value : string) : M unit :=
  if negb (truthy value) then throw (JsError "Error" (name ++ " is required"))
  else ret tt.

Definition getMaps (w : World) (c : VenalabsApiClient) : M Value :=
  get w c "/maps" false.

Definition getCourse (w : World) (c : VenalabsApiClient) (courseId : string)
  : M Value :=
  require "courseId" courseId ;;
  get w c ("/courses/" ++ encodeURIComponent courseId) false.

Definition startCourse (w : World) (c : VenalabsApiClient)
    (courseId : string) : M Value :=
  require "courseId" courseId ;;
  post w c ("/courses/" ++ encodeURIComponent courseId ++ "/start") None
       false ;;
  ret VUndefined.

Definition completeStep (w : World) (c : VenalabsApiClient)
    (courseId stepId : string) (request : option Json) : M Value :=
  require "courseId" courseId ;;
  require "stepId" stepId ;;
  post w c
    ("/courses/" ++ encodeURIComponent courseId ++ "/steps/"
       ++ encodeURIComponent stepId ++ "/complete")
    request false.

Definition getProgress (w : World) (c : VenalabsApiClient) : M Value :=
  get w c "/progress" false.

Definition getCourseProgress (w : World) (c : VenalabsApiClient)
    (courseId : string) : M Value :=
  require "courseId" courseId ;;
  try_catch
    (get w c ("/progress/" ++ encodeURIComponent courseId) false)
    (fun error =>
       match error with
       | ApiError e =>
           if String.eqb (VenalabsErrorCodes (code e)) "NOT_FOUND"
           then ret (VJson JNull)
           else throw error
       | _ => throw error
       end).

Definition getWalletNonce (w : World) (c : VenalabsApiClient)
    (walletAddress : string) : M Value :=
  require "walletAddress" walletAddress ;;
  get w c ("/wallet/nonce?walletAddress=" ++ encodeURIComponent walletAddress)
      false.

Definition linkStellarWallet (w : World) (c : VenalabsApiClient)
    (walletAddress signature : string) : M Value :=
  require "walletAddress" walletAddress ;;
  require "signature" signature ;;
  let request :=
    JObj [("walletAddress", JStr walletAddress);
          ("signature", JStr signature)] in
  post w c "/wallet/stellar/link" (Some request) false.

Definition getLinkedWallets (w : World) (c : VenalabsApiClient) : M Value :=
  get w c "/wallet" false.

Definition verifyStep (w : World) (c : VenalabsApiClient)
    (courseId stepId : string) : M Value :=
  require "courseId" courseId ;;
  require "stepId" stepId ;;
  post w c
    ("/courses/" ++ encodeURIComponent courseId ++ "/steps/"
       ++ encodeURIComponent stepId ++ "/verify")
    None false.

Definition getNftVoucher (w : World) (c : VenalabsApiClient)
    (courseId stepId : string) : M Value :=
  require "courseId" courseId ;;
  require "stepId" stepId ;;
  get w c
    ("/courses/" ++ encodeURIComponent courseId ++ "/steps/"
       ++ encodeURIComponent stepId ++ "/nft-voucher")
    false.

Definition verifyNftMint (w : World) (c : VenalabsApiClient)
    (courseId stepId txHash : string) : M Value :=
  require "courseId" courseId ;;
  require "stepId" stepId ;;
  require "txHash" txHash ;;
  let request := JObj [("txHash", JStr txHash)] in
  post w c
    ("/courses/" ++ encodeURIComponent courseId ++ "/steps/"
       ++ encodeURIComponent stepId ++ "/nft-verify")
    (Some request) false ;;
  ret VUndefined.

End Client.

Import Client.

(** ** The exposed operations, as data *)

Inductive Operation : Type :=
| GetMaps
| GetCourse (courseId : string)
| StartCourse (courseId : string)
| CompleteStep (courseId stepId : string) (request : option Json)
| GetProgress
| GetCourseProgress (courseId : string)
| GetWalletNonce (walletAddress : string)
| LinkStellarWallet (walletAddress signature : string)
| GetLinkedWallets
| VerifyStep (courseId stepId : string)
| GetNftVoucher (courseId stepId : string)
| VerifyNftMint (courseId stepId txHash : string).

(** Calling the method an [Operation] names. *)
Definition run (w : World) (c : VenalabsApiClient) (op : Operation)
  : M Value :=
  match op with
  | GetMaps => getMaps w c
  | GetCourse courseId => getCourse w c courseId
  | StartCourse courseId => startCourse w c courseId
  | CompleteStep courseId stepId request =>
      completeStep w c courseId stepId request
  | GetProgress => getProgress w c
  | GetCourseProgress courseId => getCourseProgress w c courseId
  | GetWalletNonce walletAddress => getWalletNonce w c walletAddress
  | LinkStellarWallet walletAddress signature =>
      linkStellarWallet w c walletAddress signature
  | GetLinkedWallets => getLinkedWallets w c
  | VerifyStep courseId stepId => verifyStep w c courseId stepId
  | GetNftVoucher courseId stepId => getNftVoucher w c courseId stepId
  | VerifyNftMint courseId stepId txHash =>
      verifyNftMint w c courseId stepId txHash
  end.

(** The required identifier arguments of an operation (specification,
    section 4.4). *)
Definition identifiers (op : Operation) : list string :=
  match op with
  | GetMaps | GetProgress | GetLinkedWallets => []
  | GetCourse courseId => [courseId]
  | StartCourse courseId => [courseId]
  | CompleteStep courseId stepId _ => [courseId; stepId]
  | GetCourseProgress courseId => [courseId]
  | GetWalletNonce walletAddress => [walletAddress]
  | LinkStellarWallet walletAddress signature => [walletAddress; signature]
  | VerifyStep courseId stepId => [courseId; stepId]
  | GetNftVoucher courseId stepId => [courseId; stepId]
  | VerifyNftMint courseId stepId txHash => [courseId; stepId; txHash]
  end.

(** A request descriptor: method, path and optional JSON body. *)
Inductive Call : Type :=
| CallGet (endpoint : string)
| CallPost (endpoint : string) (body : option Json).

(** The private helper a descriptor is passed to. *)
Definition issue (w : World) (c : VenalabsApiClient) (call : Call)
    (isRetry : bool) : M Value :=
  match call with
  | CallGet endpoint => get w c endpoint isRetry
  | CallPost endpoint body => post w c endpoint body isRetry
  end.

(** The request a descriptor becomes under given headers. *)
Definition request_of (c : VenalabsApiClient) (call : Call) (h : Headers)
  : Request :=
  match call with
  | CallGet endpoint => mkRequest (url_of c endpoint) GET h None
  | CallPost endpoint body =>
      mkRequest (url_of c endpoint) POST h (stringify_if_truthy body)
  end.

(** The headers that carry a given bearer token. *)
Definition headers_with (c : VenalabsApiClient) (token : string) : Headers :=
  mkHeaders "application/json" (apiKey c) ("Bearer " ++ token).

(** A credential is being served from the cache ([if (this.cachedToken)]). *)
Definition has_token (s : State) : bool :=
  match cachedToken s with
  | Some token => truthy token
  | None => false
  end.

(** What both helpers do with a response once no retry is due: map a
    failure status to the taxonomy, else hand over the body. *)
Definition conclude (call : Call) (response : Response) : M Value :=
  if negb (ok response) then
    body <- try_catch (json response) (fun _ => ret (JObj [])) ;;
    throw (ApiError (fromResponseParsed (resp_status response) body))
  else
    match call with
    | CallGet _ => v <- json response ;; ret (VJson v)
    | CallPost _ _ =>
        if is_empty_response response then ret VUndefined
        else v <- json response ;; ret (VJson v)
    end.

(** Logical calls made one after the other, each awaited (its outcome
    kept) before the next. *)
Fixpoint issue_each (w : World) (c : VenalabsApiClient) (calls : list Call)
    (s : State) : list (Outcome Value) * State :=
  match calls with
  | [] => ([], s)
  | call :: rest =>
      let '(out, s1) := issue w c call false s in
      let '(outs, s2) := issue_each w c rest s1 in
      (out :: outs, s2)
  end.

(** The requests handed to the transport primitive, oldest first. *)
Definition requests (s : State) : list Event := filter is_request (log s).

(** The wire contract (specification, section 6): the descriptor of the
    request each operation stands for. *)
Definition descriptor (op : Operation) : Call :=
  let course_step courseId stepId suffix :=
    "/courses/" ++ encodeURIComponent courseId ++ "/steps/"
      ++ encodeURIComponent stepId ++ suffix in
  match op with
  | GetMaps => CallGet "/maps"
  | GetCourse courseId => CallGet ("/courses/" ++ encodeURIComponent courseId)
  | StartCourse courseId =>
      CallPost ("/courses/" ++ encodeURIComponent courseId ++ "/start") None
  | CompleteStep courseId stepId request =>
      CallPost (course_step courseId stepId "/complete") request
  | GetProgress => CallGet "/progress"
  | GetCourseProgress courseId =>
      CallGet ("/progress/" ++ encodeURIComponent courseId)
  | GetWalletNonce walletAddress =>
      CallGet ("/wallet/nonce?walletAddress="
                 ++ encodeURIComponent walletAddress)
  | LinkStellarWallet walletAddress signature =>
      CallPost "/wallet/stellar/link"
        (Some (JObj [("walletAddress", JStr walletAddress);
                     ("signature", JStr signature)]))
  | GetLinkedWallets => CallGet "/wallet"
  | VerifyStep courseId stepId =>
      CallPost (course_step courseId stepId "/verify") None
  | GetNftVoucher courseId stepId =>
      CallGet (course_step courseId stepId "/nft-voucher")
  | VerifyNftMint courseId stepId txHash =>
      CallPost (course_step courseId stepId "/nft-verify")
        (Some (JObj [("txHash", JStr txHash)]))
  end.

(** The wire contract: the JSON body of the request each operation stands
    for.  Three operations send one: [completeStep] its request document
    when it is given (and not a falsy value), [linkStellarWallet] the wallet
    address and the signature, [verifyNftMint] the transaction hash. *)
Definition wire_body (op : Operation) : option Json :=
  match op with
  | CompleteStep _ _ (Some request) =>
      match request with
      | JNull | JBool false | JNum 0 | JStr EmptyString => None
      | _ => Some request
      end
  | LinkStellarWallet walletAddress signature =>
      Some (JObj [("walletAddress", JStr walletAddress);
                  ("signature", JStr signature)])
  | VerifyNftMint _ _ txHash => Some (JObj [("txHash", JStr txHash)])
  | _ => None
  end.

(** The thrown value is a [VenalabsApiError] of kind [NOT_FOUND]. *)
Definition is_not_found (t : Thrown) : bool :=
  match t with
  | ApiError e => code_eqb (code e) NOT_FOUND
  | _ => false
  end.

(** The [catch] clause of [getCourseProgress]. *)
Definition swallow_not_found (error : Thrown) : M Value :=
  match error with
  | ApiError e =>
      if String.eqb (VenalabsErrorCodes (code e)) "NOT_FOUND"
      then ret (VJson JNull)
      else throw error
  | _ => throw error
  end.

(** ** The retry policy, as the specification words it *)

(** An outcome after which the primitive tries again while attempts
    remain: a status of 500 or more, or 429, or a thrown error. *)
Definition transient (o : FetchOutcome) : bool :=
  match o with
  | Responds r => (resp_status r >=? 500) || (resp_status r =? 429)
  | Throws _ => true
  end.

(** The number of attempts made under a budget of [n], when [tr i] tells
    whether the [i]-th attempt ends in a transient outcome. *)
Fixpoint attempts_made (n : nat) (tr : nat -> bool) : nat :=
  match n with
  | O => O
  | S n' => if tr O then S (attempts_made n' (fun i => tr (S i))) else 1%nat
  end.

(** [k] attempts with the fixed delay between consecutive ones. *)
Fixpoint schedule (req : Request) (delay timeoutMs : Given Z) (k : nat)
  : list Event :=
  match k with
  | O => []
  | S O => [EvFetch req timeoutMs]
  | S k' => EvFetch req timeoutMs :: EvSleep delay
              :: schedule req delay timeoutMs k'
  end.

(** What the caller gets from the last attempt's outcome. *)
Definition surfaced (timeoutMs : Given Z) (o : FetchOutcome)
  : Outcome Response :=
  match o with
  | Responds r => Resolved r
  | Throws t =>
      if is_abort t then Rejected (ApiError (timeoutError timeoutMs))
      else Rejected (ApiError (fromNetworkError
                                 (thrown_message (as_error t))))
  end.

(** ** Token coordinator under overlapping callers

    JavaScript runs one synchronous stretch of code at a time.  The token
    fields of a client change in three kinds of stretches: a call of
    [getToken()] up to the promise it returns; the pair
    [clearToken(); refreshToken()] of the 401 path; and the handler that
    runs when the outstanding provider promise settles.  Callers overlap
    when their stretches come before the settlement they wait for.

    Within its stretch, the call [this.tokenProvider().then(...)] either
    yields a promise, which settles in a later stretch, or throws on the
    spot (the provider throws, or what it returns is not a promise); in the
    second case the assignment to [tokenPromise] is not reached and the
    promise of the [async] method is rejected with what was thrown. *)

Module Coordinator.

(** The promise a caller holds: already resolved with the cached token, or
    following provider call number [call] (through [tokenPromise], or
    rejected on the spot when that call threw). *)
Inductive Handle : Type :=
| Ready (token : string)
| Awaits (call : nat).

Record State : Type := mkState {
  cachedToken : option string;
  (** the provider call [tokenPromise] was made from; [None] for [null] *)
  tokenPromise : option nat;
  (** how many times [tokenProvider()] has been called *)
  providerCalls : nat;
  (** the provider calls that have settled or thrown, latest first *)
  settled : list (nat * ProviderOutcome)
}.

Definition initial : State := mkState None None O [].

(** The host's provider as the synchronous stretch sees it: for its call
    number [call], [None] when a promise comes back, [Some t] when the call
    throws [t] on the spot. *)
Definition Provider : Type := nat -> option Thrown.

(** A provider of the declared type [() => Promise<string>] that returns
    its promise. *)
Definition returns_promise : Provider := fun _ => None.

Definition refreshToken (provider : Provider) (s : State) : State * Handle :=
  match tokenPromise s with
  | Some call => (s, Awaits call)
  | None =>
      let call := providerCalls s in
      match provider call with
      | None =>
          (mkState (cachedToken s) (Some call) (S call) (settled s),
           Awaits call)
      | Some t =>
          (mkState (cachedToken s) None (S call)
                   ((call, Fails t) :: settled s),
           Awaits call)
      end
  end.

Definition getToken (provider : Provider) (s : State) : State * Handle :=
  match cachedToken s with
  | Some token =>
      if truthy token then (s, Ready token) else refreshToken provider s
  | None => refreshToken provider s
  end.

Definition clearToken (s : State) : State :=
  mkState None (tokenPromise s) (providerCalls s) (settled s).

(** The provider promise settles and the [then] handler (store the token,
    reset [tokenPromise]) or the [catch] handler (reset [tokenPromise],
    rethrow) runs.  Nothing happens when no call is outstanding. *)
Definition settle (o : ProviderOutcome) (s : State) : State :=
  match tokenPromise s with
  | Some call =>
      match o with
      | Provides token =>
          mkState (Some token) None (providerCalls s)
                  ((call, o) :: settled s)
      | Fails _ =>
          mkState (cachedToken s) None (providerCalls s)
                  ((call, o) :: settled s)
      end
  | None => s
  end.

Inductive Action : Type :=
| GetToken
| ClearAndRefresh
| Settle (o : ProviderOutcome).

Definition step (provider : Provider) (s : State) (a : Action) : State :=
  match a with
  | GetToken => fst (getToken provider s)
  | ClearAndRefresh => fst (refreshToken provider (clearToken s))
  | Settle o => settle o s
  end.

Definition exec (provider : Provider) (history : list Action) (s : State)
  : State :=
  fold_left (step provider) history s.

(** [n] calls of [getToken()] in a row, with the promises they return. *)
Fixpoint getTokens (provider : Provider) (n : nat) (s : State)
  : State * list Handle :=
  match n with
  | O => (s, [])
  | S n' =>
      let '(s1, h) := getToken provider s in
      let '(s2, hs) := getTokens provider n' s1 in
      (s2, h :: hs)
  end.

Fixpoint lookup (call : nat) (l : list (nat * ProviderOutcome))
  : option ProviderOutcome :=
  match l with
  | [] => None
  | (k, o) :: rest => if Nat.eqb k call then Some o else lookup call rest
  end.

Definition delivered (o : ProviderOutcome) : Outcome string :=
  match o with
  | Provides token => Resolved token
  | Fails t => Rejected t
  end.

(** What a caller's promise has settled to, if it has. *)
Definition result (s : State) (h : Handle) : option (Outcome string) :=
  match h with
  | Ready token => Some (Resolved token)
  | Awaits call => option_map delivered (lookup call (settled s))
  end.

(** Provider calls made that neither threw nor have settled. *)
Definition outstanding (s : State) : nat :=
  (providerCalls s - List.length (settled s))%nat.

(** A credential is being served from the cache. *)
Definition cached (s : State) : bool :=
  match cachedToken s with
  | Some token => truthy token
  | None => false
  end.

(** What holds of every state the client can be in: the settled calls
    are the earliest ones, and [tokenPromise] is set exactly while the
    latest call is outstanding, during which no credential is cached. *)
Definition consistent (s : State) : Prop :=
  (forall k o, In (k, o) (settled s) -> (k < List.length (settled s))%nat)
  /\ match tokenPromise s with
     | Some call =>
         providerCalls s = S call /\ List.length (settled s) = call
         /\ cached s = false
     | None => List.length (settled s) = providerCalls s
     end.

End Coordinator.

(** ** Scenarios *)

Module Scenario.

Definition maps : Json := JArr [JObj [("id", JStr "map-1")]].

Definition expired_body : Json :=
  JObj [("code", JNum 401); ("type", JStr "TOKEN_EXPIRED");
        ("message", JStr "Token expired")].

(** A provider whose [n]-th call resolves with the [n]-th token of a list,
    and with [last] from then on. *)
Definition provider_of (tokens : list string) (last : string)
  : TokenProvider :=
  fun n => Provides (nth n tokens last).

Definition client_with (provider : TokenProvider) : VenalabsApiClient :=
  mkClient "valid-key" "https://sdk.test" 30000 provider.

(** A server that accepts exactly the bearer token [good] and answers 401
    [TOKEN_EXPIRED] to any other. *)
Definition server_accepting (good : string) : World :=
  mkWorld (fun _ req =>
    if String.eqb (authorization (req_headers req)) ("Bearer " ++ good)
    then Responds (mkResponse 200 None (Some maps))
    else Responds (mkResponse 401 None (Some expired_body))).

(** A server that answers every request with the same response. *)
Definition server_always (r : Response) : World :=
  mkWorld (fun _ _ => Responds r).

(** A server whose successive answers are those of a list, then [last]. *)
Definition server_script (answers : list FetchOutcome) (last : FetchOutcome)
  : World :=
  mkWorld (fun n _ => nth n answers last).

Definition no_content : Response := mkResponse 204 (Some "0") None.

Definition not_found : Response :=
  mkResponse 404 None (Some (JObj [("message", JStr "No such course")])).

Definition status_only (status : Z) : Response :=
  mkResponse status None None.

Definition request_maps (token : string) : Request :=
  mkRequest "https://sdk.test/api/v1/sdk/maps" GET
    (mkHeaders "application/json" "valid-key" ("Bearer " ++ token)) None.

End Scenario.

(** ** The SDK provider ([VenalabsStellarSDKProvider])

    The callbacks that [VenalabsStellarSDKProvider] builds around its API
    client.  The React state they set ([maps], [progress], [error],
    [linkedWalletAddress]) and the course cache (a [Map] owned by the
    provider) are fields of [SdkState], next to the state of the client;
    a setter stores its argument.  Console output is not modelled.  Each
    callback is given as it runs when no other callback of the provider
    runs during its waits. *)

Module Sdk.

Record SdkState : Type := mkSdk {
  client : State;
  maps : Value;
  progress : Value;
  error : option Thrown;
  (** [null] is [None] *)
  linkedWalletAddress : option Json;
  (** the entries of [courseCache], latest first *)
  courseCache : list (string * Value)
}.

(** An [async] callback of the provider. *)
Definition Callback (A : Type) : Type :=
  SdkState -> Outcome A * SdkState.

(** The provider's state once the client has moved to [s]. *)
Definition with_client (st : SdkState) (s : State) : SdkState :=
  mkSdk s (maps st) (progress st) (error st) (linkedWalletAddress st)
        (courseCache st).

(** The state on mount: [useState] initial values and an empty cache. *)
Definition mounted : SdkState :=
  mkSdk Client.initial (VJson (JArr [])) (VJson (JArr [])) None None [].

(** [err instanceof Error ? err : new Error(message)] *)
Definition error_or (err : Thrown) (message : string) : Thrown :=
  match err with
  | NonError _ => JsError "Error" message
  | _ => err
  end.

(** [courseCache.get(courseId)], [None] when [courseCache.has(courseId)]
    is false. *)
Fixpoint cache_get (courseId : string) (cache : list (string * Value))
  : option Value :=
  match cache with
  | [] => None
  | (k, v) :: rest =>
      if String.eqb k courseId then Some v else cache_get courseId rest
  end.

(** [v?.[key]] for an optional JSON value: a property of an object, and
    [undefined] ([None]) for anything else. *)
Definition member (key : string) (v : option Json) : option Json :=
  match v with
  | Some (JObj fields) => field key fields
  | _ => None
  end.

(** [a || b] where [b] may be [null]/[undefined] ([None]). *)
Definition or_else (a b : option Json) : option Json :=
  match a with
  | Some v => if json_truthy v then a else b
  | None => b
  end.

(** [updatedProgress || undefined] *)
Definition or_undefined (v : Value) : Value :=
  match v with
  | VJson j => if json_truthy j then v else VUndefined
  | VUndefined => VUndefined
  end.

Definition fetchLinkedWallet (w : World) (c : VenalabsApiClient) : Callback unit :=
  fun st =>
    match getLinkedWallets w c (client st) with
    | (Resolved response, s') =>
        match response with
        | VUndefined | VJson JNull =>
            (* [response.walletAddresses] throws a TypeError, caught *)
            (Resolved tt, with_client st s')
        | VJson v =>
            let walletAddresses := member "walletAddresses" (Some v) in
            let stellarAddress :=
              or_else (member "STELLAR_TESTNET" walletAddresses)
                (or_else (member "STELLAR_PUBLIC" walletAddresses)
                   (or_else (member "STELLAR" walletAddresses) None)) in
            (Resolved tt,
             mkSdk s' (maps st) (progress st) (error st) stellarAddress
                   (courseCache st))
        end
    | (Rejected _, s') => (Resolved tt, with_client st s')
    end.

Definition refreshMaps (w : World) (c : VenalabsApiClient) : Callback unit :=
  fun st =>
    match getMaps w c (client st) with
    | (Resolved fetchedMaps, s') =>
        (Resolved tt,
         mkSdk s' fetchedMaps (progress st) None (linkedWalletAddress st)
               (courseCache st))
    | (Rejected err, s') =>
        (Resolved tt,
         mkSdk s' (maps st) (progress st)
               (Some (error_or err "Failed to fetch maps"))
               (linkedWalletAddress st) (courseCache st))
    end.

Definition refreshProgress (w : World) (c : VenalabsApiClient) : Callback unit :=
  fun st =>
    match getProgress w c (client st) with
    | (Resolved fetchedProgress, s') =>
        (Resolved tt,
         mkSdk s' (maps st) fetchedProgress (error st)
               (linkedWalletAddress st) (courseCache st))
    | (Rejected _, s') => (Resolved tt, with_client st s')
    end.

(** [getCourse] of the context, from where [await
    apiClient.getCourse(courseId)] resumes: the course fetched is stored
    and returned, and a failure gives [null] ([VJson JNull]).  This part
    runs on the state the provider is in when the call has settled; with
    callbacks that overlap, others may have run since the cache was
    looked up. *)
Definition getCourse_resume (courseId : string) (fetched : Outcome Value)
  : Callback Value :=
  fun st =>
    match fetched with
    | Resolved course =>
        (Resolved course,
         mkSdk (client st) (maps st) (progress st) (error st)
               (linkedWalletAddress st)
               ((courseId, course) :: courseCache st))
    | Rejected _ => (Resolved (VJson JNull), st)
    end.

(** [getCourse] of the context, run with no other callback in between:
    the lookup in the cache, the call of the client, and the part that
    resumes after it. *)
Definition getCourse (w : World) (c : VenalabsApiClient) (courseId : string)
  : Callback Value :=
  fun st =>
    match cache_get courseId (courseCache st) with
    | Some course => (Resolved course, st)
    | None =>
        let '(fetched, s') := Client.getCourse w c courseId (client st) in
        getCourse_resume courseId fetched (with_client st s')
    end.

Definition startCourse (w : World) (c : VenalabsApiClient)
    (courseId : string) : Callback unit :=
  fun st =>
    match Client.startCourse w c courseId (client st) with
    | (Resolved _, s') => refreshProgress w c (with_client st s')
    | (Rejected t, s') => (Rejected t, with_client st s')
    end.

Definition completeStep (w : World) (c : VenalabsApiClient)
    (courseId stepId : string) (response : option Json) : Callback Value :=
  fun st =>
    match Client.completeStep w c courseId stepId response (client st) with
    | (Resolved _, s') =>
        let '(_, st1) := refreshProgress w c (with_client st s') in
        match getCourseProgress w c courseId (client st1) with
        | (Resolved updatedProgress, s2) =>
            (Resolved (or_undefined updatedProgress), with_client st1 s2)
        | (Rejected err, s2) => (Rejected err, with_client st1 s2)
        end
    | (Rejected err, s') => (Rejected err, with_client st s')
    end.

End Sdk.

(** A mounted provider that already knows a linked address. *)
Definition mkSdkLinked : Sdk.SdkState :=
  Sdk.mkSdk Client.initial (VJson (JArr [])) (VJson (JArr [])) None
            (Some (JStr "GABC")) [].

(** An action of the coordinator that is not a settlement. *)
Definition is_call (a : Coordinator.Action) : bool :=
  match a with
  | Coordinator.Settle _ => false
  | _ => true
  end.

(** * Properties *)

Local Open Scope list_scope.

(** ** Concrete runs *)

Example fromResponse_401_expired :
  fromResponse 401 (Some (error_body_of Scenario.expired_body))
  = mkApiError TOKEN_EXPIRED 401 "Token expired".
Proof. reflexivity. Qed.

Example fromResponse_418 :
  fromResponse 418 None
  = mkApiError UNKNOWN 418 "Request failed with status 418".
Proof. reflexivity. Qed.

Example fromTimeout_100 :
  fromTimeout 100 = mkApiError TIMEOUT 0 "Request timed out after 100ms".
Proof. reflexivity. Qed.

Example encodeURIComponent_escapes :
  encodeURIComponent "a b/c?d=e&f-g_h.i" = "a%20b%2Fc%3Fd%3De%26f-g_h.i".
Proof. reflexivity. Qed.

Example constructor_strips_slash :
  constructor (mkConfig "k" (Some (Scenario.provider_of [] "t"))
                        (Some "https://sdk.test/") None)
  = inr (mkClient "k" "https://sdk.test" 30000 (Scenario.provider_of [] "t")).
Proof. reflexivity. Qed.

Example constructor_requires_apiKey :
  constructor (mkConfig "" (Some (Scenario.provider_of [] "t")) None None)
  = inl (JsError "Error" "apiKey is required").
Proof. reflexivity. Qed.

(** The test "should refresh token on 401 and retry": two requests, two
    provider calls, the maps returned. *)
Example getMaps_refreshes_once :
  let c := Scenario.client_with
             (Scenario.provider_of ["expired-token"] "fresh-token") in
  let '(out, s) := getMaps (Scenario.server_accepting "fresh-token") c
                     initial in
  out = Resolved (VJson Scenario.maps)
  /\ transport_calls s = 2%nat
  /\ provider_calls s = 2%nat
  /\ cachedToken s = Some "fresh-token".
Proof. vm_compute. repeat split. Qed.

(** The test "should retry on 5xx errors", with the client's options. *)
Example fetchWithRetry_retries_500 :
  let w := Scenario.server_script
             [Responds (Scenario.status_only 500)]
             (Responds (mkResponse 200 None (Some Scenario.maps))) in
  let req := Scenario.request_maps "t" in
  fetchWithRetry w req
    (mkOptions (Some (Num 1%Q)) (Some (Num 10)) None) initial
  = (Resolved (mkResponse 200 None (Some Scenario.maps)),
     mkState None [EvRequest req; EvFetch req (Num 30000);
                   EvSleep (Num 10); EvFetch req (Num 30000)]).
Proof. reflexivity. Qed.

(** ** Error taxonomy *)

Lemma code_eqb_eq (a b : VenalabsErrorCode) : code_eqb a b = true <-> a = b.
Proof.
  split.
  - destruct a, b; vm_compute; intro H; try reflexivity; discriminate H.
  - intros ->. destruct b; reflexivity.
Qed.

(** C7. [isAuthError()] is true exactly for the kinds INVALID_API_KEY,
    INVALID_TOKEN and TOKEN_EXPIRED, and [isRetryable()] exactly for
    NETWORK_ERROR, TIMEOUT, SERVER_ERROR and RATE_LIMITED; on each of the
    other kinds of the nine-kind enumeration the predicate is false. *)
Theorem auth_and_retryable_kinds :
  forall e : VenalabsApiError,
    (isAuthError e = true <->
       code e = INVALID_API_KEY \/ code e = INVALID_TOKEN
       \/ code e = TOKEN_EXPIRED)
    /\ (isRetryable e = true <->
          code e = NETWORK_ERROR \/ code e = TIMEOUT
          \/ code e = SERVER_ERROR \/ code e = RATE_LIMITED)
    /\ (isAuthError e = false <->
          In (code e) [NOT_FOUND; NETWORK_ERROR; RATE_LIMITED; TIMEOUT;
                       SERVER_ERROR; UNKNOWN])
    /\ (isRetryable e = false <->
          In (code e) [INVALID_API_KEY; INVALID_TOKEN; TOKEN_EXPIRED;
                       NOT_FOUND; UNKNOWN])
    /\ In (code e) all_codes
    /\ List.length all_codes = 9%nat.
Proof.
  intros [c st m]; cbn [code].
  unfold isAuthError, isRetryable; cbn [code].
  repeat split; try (destruct c; vm_compute; tauto).
  all: destruct c; vm_compute; intuition (try discriminate; try congruence).
Qed.

Lemma or_default_nonempty (m d : string) :
  m <> "" -> or_default (Some m) d = m.
Proof. destruct m; [congruence | reflexivity]. Qed.

Lemma or_default_absent (o : option string) (d : string) :
  o = None \/ o = Some "" -> or_default o d = d.
Proof. intros [-> | ->]; reflexivity. Qed.

Lemma fromResponse_status (st : Z) (body : option ErrorBody) :
  status (fromResponse st body) = st.
Proof.
  unfold fromResponse.
  repeat match goal with |- context [if ?b then _ else _] => destruct b end;
    reflexivity.
Qed.

(** The message is settled by the body's [message] and the status alone. *)
Lemma fromResponse_message (st : Z) (body : option ErrorBody) :
  message (fromResponse st body)
  = or_default (message_of body) (default_message st).
Proof.
  unfold default_message, fromResponse.
  destruct (st =? 401); [reflexivity|].
  destruct (st =? 403); [reflexivity|].
  destruct (st =? 404); [reflexivity|].
  destruct (st =? 429); [reflexivity|].
  destruct (st >=? 500); reflexivity.
Qed.

(** C3, the claim as stated fails on a body whose [message] is present and
    empty: for status 401 and the body [{ message: '' }] the error carries
    the default text, not the body's message. *)
Lemma fromResponse_empty_message_is_replaced :
  message_of (Some (mkErrorBody None None (Some ""))) = Some ""
  /\ message (fromResponse 401 (Some (mkErrorBody None None (Some ""))))
     = "Authentication failed".
Proof. split; reflexivity. Qed.

(** C3 (amended). [fromResponse] maps every status and optional body to
    the kind of the table: 401 with type TOKEN_EXPIRED to TOKEN_EXPIRED,
    401 otherwise to INVALID_TOKEN, 403 to INVALID_API_KEY, 404 to
    NOT_FOUND, 429 to RATE_LIMITED, 500 and above to SERVER_ERROR, any
    other status to UNKNOWN.  The record carries the given status, and the
    body's message when it is present and non-empty; when the message is
    absent or empty it carries the default text of the status. *)
Theorem fromResponse_table :
  forall (st : Z) (body : option ErrorBody),
    let e := fromResponse st body in
    (st = 401 -> type_of body = Some "TOKEN_EXPIRED" ->
       code e = TOKEN_EXPIRED)
    /\ (st = 401 -> type_of body <> Some "TOKEN_EXPIRED" ->
          code e = INVALID_TOKEN)
    /\ (st = 403 -> code e = INVALID_API_KEY)
    /\ (st = 404 -> code e = NOT_FOUND)
    /\ (st = 429 -> code e = RATE_LIMITED)
    /\ (500 <= st -> code e = SERVER_ERROR)
    /\ (st < 500 -> st <> 401 -> st <> 403 -> st <> 404 -> st <> 429 ->
          code e = UNKNOWN)
    /\ status e = st
    /\ (forall m, message_of body = Some m -> m <> "" -> message e = m)
    /\ (message_of body = None \/ message_of body = Some "" ->
          message e = default_message st).
Proof.
  intros st body e.
  assert (Hexp : forall b, is_token_expired b = true
                           <-> type_of b = Some "TOKEN_EXPIRED").
  { intro b. unfold is_token_expired. destruct (type_of b) as [t|].
    - rewrite String.eqb_eq. split; congruence.
    - split; discriminate. }
  repeat split.
  - intros -> H. apply Hexp in H. subst e. unfold fromResponse.
    cbn. rewrite H. reflexivity.
  - intros -> H. subst e. unfold fromResponse. cbn.
    destruct (is_token_expired body) eqn:E; [|reflexivity].
    apply Hexp in E. contradiction.
  - intros ->. reflexivity.
  - intros ->. reflexivity.
  - intros ->. reflexivity.
  - intro H. subst e. unfold fromResponse.
    destruct (st =? 401) eqn:E1; [lia|].
    destruct (st =? 403) eqn:E2; [lia|].
    destruct (st =? 404) eqn:E3; [lia|].
    destruct (st =? 429) eqn:E4; [lia|].
    destruct (st >=? 500) eqn:E5; [reflexivity|lia].
  - intros H H1 H2 H3 H4. subst e. unfold fromResponse.
    destruct (st =? 401) eqn:E1; [lia|].
    destruct (st =? 403) eqn:E2; [lia|].
    destruct (st =? 404) eqn:E3; [lia|].
    destruct (st =? 429) eqn:E4; [lia|].
    destruct (st >=? 500) eqn:E5; [lia|reflexivity].
  - apply fromResponse_status.
  - intros m Hm Hne. subst e. rewrite fromResponse_message, Hm.
    now apply or_default_nonempty.
  - intro H. subst e. rewrite fromResponse_message.
    now apply or_default_absent.
Qed.

Lemma fromResponse_table_witness :
  code (fromResponse 401 (Some (error_body_of Scenario.expired_body)))
  = TOKEN_EXPIRED
  /\ code (fromResponse 503 None) = SERVER_ERROR
  /\ code (fromResponse 418 None) = UNKNOWN
  /\ message (fromResponse 401 (Some (error_body_of Scenario.expired_body)))
     = "Token expired".
Proof.
  pose proof (fromResponse_table 401
                (Some (error_body_of Scenario.expired_body))) as H401.
  pose proof (fromResponse_table 503 None) as H503.
  pose proof (fromResponse_table 418 None) as H418.
  cbv zeta in H401, H503, H418.
  destruct H401 as (H1 & _ & _ & _ & _ & _ & _ & _ & Hm & _).
  destruct H503 as (_ & _ & _ & _ & _ & H5 & _).
  destruct H418 as (_ & _ & _ & _ & _ & _ & H4 & _).
  split; [apply H1; reflexivity |].
  split; [apply H5; lia |].
  split; [apply H4; lia |].
  apply Hm; [reflexivity | discriminate].
Defined.

(** ** Counting the effects in the log *)

Lemma count_app (p : Event -> bool) (l l' : list Event) :
  count p (l ++ l') = (count p l + count p l')%nat.
Proof. unfold count. now rewrite filter_app, length_app. Qed.

Lemma state_eta (s : State) : mkState (cachedToken s) (log s) = s.
Proof. now destruct s. Qed.

Lemma attempts_made_ext (n : nat) (f g : nat -> bool) :
  (forall i, f i = g i) -> attempts_made n f = attempts_made n g.
Proof.
  revert f g. induction n as [|n IH]; intros f g H; [reflexivity|].
  cbn. rewrite (H O). destruct (g O); [|reflexivity].
  f_equal. apply IH. intro i. apply H.
Qed.

Lemma attempts_made_bound (n : nat) (tr : nat -> bool) :
  (attempts_made n tr <= n)%nat.
Proof.
  revert tr. induction n as [|n IH]; intro tr; cbn; [lia|].
  destruct (tr O); [specialize (IH (fun i => tr (S i))) |]; lia.
Qed.

Lemma attempts_made_pos (n : nat) (tr : nat -> bool) :
  exists j, attempts_made (S n) tr = S j.
Proof. cbn. destruct (tr O); eauto. Qed.

(** Attempt [i] is made exactly when the budget allows it and every
    earlier attempt ended in a transient outcome. *)
Lemma attempts_made_lt (n : nat) (tr : nat -> bool) (i : nat) :
  (i < attempts_made n tr)%nat
  <-> (i < n)%nat /\ forall j, (j < i)%nat -> tr j = true.
Proof.
  revert tr i. induction n as [|n IH]; intros tr i; cbn.
  - split; [lia | intros [H _]; lia].
  - destruct (tr O) eqn:E0.
    + destruct i as [|i].
      * split; [intros _; split; [lia | intros j Hj; lia] | lia].
      * rewrite <- Nat.succ_lt_mono, (IH (fun i => tr (S i)) i).
        split; intros [Hn Hall]; (split; [lia|]).
        -- intros [|j] Hj; [exact E0 | apply Hall; lia].
        -- intros j Hj. apply (Hall (S j)). lia.
    + split.
      * intro H. assert (i = O) by lia. subst i.
        split; [lia | intros j Hj; lia].
      * intros [_ Hall]. destruct i as [|i]; [lia|].
        specialize (Hall O ltac:(lia)). congruence.
Qed.

Lemma ok_not_retryable (r : Response) :
  ok r = true -> isRetryableStatus (resp_status r) = false.
Proof. unfold ok, isRetryableStatus. lia. Qed.

Lemma schedule_step (req : Request) (d t : Given Z) (j : nat) :
  schedule req d t (S (S j))
  = EvFetch req t :: EvSleep d :: schedule req d t (S j).
Proof. reflexivity. Qed.

(** ** Transport primitive *)

(** What one run of the retry loop does: the attempts it makes, the waits
    between them, and what it hands to the caller. *)
Lemma attempts_spec (w : World) (req : Request) (d t : Given Z) :
  forall (n : nat) (lastError : option Thrown) (s : State),
    let tr := fun i => transient (fetch w (fetch_calls s + i)%nat req) in
    let k := attempts_made n tr in
    attempts w req d t n lastError s
    = (match k with
       | O => Rejected (last_or_unknown lastError)
       | S j => surfaced t (fetch w (fetch_calls s + j)%nat req)
       end,
       mkState (cachedToken s) (log s ++ schedule req d t k)).
Proof.
  induction n as [|n IH]; intros lastError s tr k.
  - subst k. cbn. unfold throw. rewrite app_nil_r, state_eta. reflexivity.
  - assert (Hshift : forall le,
      (exists m, n = S m) ->
      tr O = true ->
      attempts w req d t n le
        (mkState (cachedToken s) ((log s ++ [EvFetch req t]) ++ [EvSleep d]))
      = (match k with
         | O => Rejected (last_or_unknown lastError)
         | S j => surfaced t (fetch w (fetch_calls s + j)%nat req)
         end,
         mkState (cachedToken s) (log s ++ schedule req d t k))).
    { intros le [m ->] Htr. rewrite IH. cbn [cachedToken log].
      assert (Hfc : fetch_calls
                (mkState (cachedToken s)
                   ((log s ++ [EvFetch req t]) ++ [EvSleep d]))
              = S (fetch_calls s)).
      { unfold fetch_calls. cbn [log]. rewrite !count_app. cbn. lia. }
      rewrite Hfc.
      rewrite (attempts_made_ext (S m)
                 (fun i => transient (fetch w (S (fetch_calls s) + i)%nat req))
                 (fun i => tr (S i))).
      2:{ intro i. subst tr. cbn beta. now rewrite Nat.add_succ_r. }
      assert (Hk : k = S (attempts_made (S m) (fun i => tr (S i)))).
      { subst k. cbn [attempts_made]. now rewrite Htr. }
      rewrite Hk.
      destruct (attempts_made_pos m (fun i => tr (S i))) as [j Hj].
      rewrite Hj. rewrite schedule_step.
      rewrite <- !app_assoc. cbn [app].
      now rewrite Nat.add_succ_r. }
    assert (Hone : n = O -> tr O = true -> k = 1%nat).
    { intros -> Htr. subst k. cbn. now rewrite Htr. }
    assert (H0 : fetch w (fetch_calls s) req
                 = fetch w (fetch_calls s + 0)%nat req)
      by now rewrite Nat.add_0_r.
    cbn [attempts]. unfold bind at 1. unfold call_fetch at 1.
    destruct (fetch w (fetch_calls s) req) as [r | e] eqn:Eo.
    + destruct (ok r || negb (isRetryableStatus (resp_status r))) eqn:Er.
      * assert (Htr : tr O = false).
        { subst tr. cbn beta. rewrite <- H0. cbn.
          apply orb_true_iff in Er as [Hok | Hn].
          - now apply ok_not_retryable.
          - now apply negb_true_iff in Hn. }
        subst k. cbn [attempts_made]. rewrite Htr.
        unfold ret. cbn [schedule surfaced]. now rewrite <- H0.
      * assert (Htr : tr O = true).
        { subst tr. cbn beta. rewrite <- H0. cbn.
          apply orb_false_iff in Er as [_ Hn].
          now apply negb_false_iff in Hn. }
        destruct n as [|m].
        -- rewrite (Hone eq_refl Htr). unfold ret. cbn [schedule].
           now rewrite <- H0.
        -- unfold bind, sleep, emit. cbn [cachedToken log].
           apply Hshift; eauto.
    + assert (Htr : tr O = true).
      { subst tr. cbn beta. now rewrite <- H0. }
      destruct (is_abort e) eqn:Ea.
      * destruct n as [|m].
        -- rewrite (Hone eq_refl Htr). unfold throw. cbn [schedule].
           rewrite <- H0. cbn [surfaced]. now rewrite Ea.
        -- unfold bind, sleep, emit. cbn [cachedToken log].
           apply Hshift; eauto.
      * destruct n as [|m].
        -- rewrite (Hone eq_refl Htr). unfold throw. cbn [schedule].
           rewrite <- H0. cbn [surfaced]. now rewrite Ea.
        -- unfold bind, sleep, emit. cbn [cachedToken log].
           apply Hshift; eauto.
Qed.

Lemma fetchWithRetry_spec (w : World) (req : Request)
    (o : FetchWithRetryOptions) (s : State) :
  let n := iterations (spread DEFAULT_retries (retries o)) in
  let d := spread DEFAULT_retryDelay (retryDelay o) in
  let t := spread DEFAULT_timeout (Transport.timeout o) in
  let k := attempts_made n
             (fun i => transient (fetch w (fetch_calls s + i)%nat req)) in
  fetchWithRetry w req o s
  = (match k with
     | O => Rejected (JsError "Error" "Unknown fetch error")
     | S j => surfaced t (fetch w (fetch_calls s + j)%nat req)
     end,
     mkState (cachedToken s) (log s ++ EvRequest req :: schedule req d t k)).
Proof.
  intros n d t k. unfold fetchWithRetry, bind, emit.
  fold n d t. rewrite attempts_spec. cbn [cachedToken log].
  assert (Hfc : fetch_calls (mkState (cachedToken s) (log s ++ [EvRequest req]))
                = fetch_calls s).
  { unfold fetch_calls. cbn [log]. rewrite count_app. cbn. lia. }
  rewrite Hfc. fold k. rewrite <- app_assoc. reflexivity.
Qed.

Lemma count_schedule (p : Event -> bool) (req : Request) (d t : Given Z)
    (k : nat) :
  p (EvFetch req t) = false -> p (EvSleep d) = false ->
  count p (schedule req d t k) = O.
Proof.
  intros Hf Hs. unfold count.
  induction k as [|[|k] IH]; [reflexivity | cbn; now rewrite Hf |].
  rewrite schedule_step. cbn [filter]. rewrite Hf, Hs. exact IH.
Qed.

Lemma fetches_in_schedule (req : Request) (d t : Given Z) (k : nat) :
  count is_fetch (schedule req d t k) = k.
Proof.
  unfold count.
  induction k as [|[|k] IH]; [reflexivity | reflexivity |].
  rewrite schedule_step. cbn [filter is_fetch is_sleep List.length].
  now rewrite IH.
Qed.

(** What a transport call leaves of the state, whatever it returns. *)
Lemma fetchWithRetry_effects (w : World) (req : Request)
    (o : FetchWithRetryOptions) (s : State) :
  let s' := snd (fetchWithRetry w req o s) in
  cachedToken s' = cachedToken s
  /\ provider_calls s' = provider_calls s
  /\ transport_calls s' = S (transport_calls s)
  /\ json_calls s' = json_calls s
  /\ filter is_request (log s')
     = (filter is_request (log s) ++ [EvRequest req])%list
  /\ fetch_calls s'
     = (fetch_calls s
        + attempts_made
            (iterations (spread DEFAULT_retries (retries o)))
            (fun i => transient (fetch w (fetch_calls s + i)%nat req)))%nat.
Proof.
  rewrite fetchWithRetry_spec. cbn [snd cachedToken].
  unfold provider_calls, transport_calls, json_calls, fetch_calls.
  cbn [log].
  set (k := attempts_made _ _).
  set (sch := schedule req _ _ k).
  change (EvRequest req :: sch) with ([EvRequest req] ++ sch).
  rewrite !count_app, !filter_app.
  assert (Hreq : filter is_request sch = []).
  { pose proof (count_schedule is_request req
                  (spread DEFAULT_retryDelay (retryDelay o))
                  (spread DEFAULT_timeout (Transport.timeout o)) k
                  eq_refl eq_refl) as H.
    unfold count in H. now apply length_zero_iff_nil in H. }
  rewrite Hreq, app_nil_r.
  subst sch.
  rewrite !count_schedule by reflexivity.
  rewrite fetches_in_schedule. cbn.
  repeat split; lia.
Qed.

(** The guard of the loop and the budget [iterations]: the guard holds of
    a number exactly when its ceiling is positive, and decrementing the
    number decrements the ceiling. *)
Lemma ceiling_unique (y : Q) (z : Z) :
  (inject_Z (z - 1) < y)%Q -> (y <= inject_Z z)%Q -> Qceiling y = z.
Proof.
  intros Hlo Hhi.
  pose proof (Qceiling_lt y) as Hc1. pose proof (Qle_ceiling y) as Hc2.
  assert (H1 : (inject_Z (Qceiling y - 1) < inject_Z z)%Q) by lra.
  assert (H2 : (inject_Z (z - 1) < inject_Z (Qceiling y))%Q) by lra.
  rewrite <- Zlt_Qlt in H1, H2. lia.
Qed.

Lemma guard_holds (attemptsRemaining : Q) :
  (0 < attemptsRemaining)%Q
  <-> (0 < Z.to_nat (Qceiling attemptsRemaining))%nat.
Proof.
  pose proof (Qceiling_lt attemptsRemaining) as Hc1.
  pose proof (Qle_ceiling attemptsRemaining) as Hc2.
  split.
  - intro H.
    assert (H1 : (0 < inject_Z (Qceiling attemptsRemaining))%Q) by lra.
    change 0%Q with (inject_Z 0) in H1. rewrite <- Zlt_Qlt in H1. lia.
  - intro H. assert (H1 : 0 <= Qceiling attemptsRemaining - 1) by lia.
    rewrite Zle_Qle in H1. change (inject_Z 0) with 0%Q in H1. lra.
Qed.

Lemma guard_after_decrement (attemptsRemaining : Q) :
  Z.to_nat (Qceiling (attemptsRemaining - 1))
  = Nat.pred (Z.to_nat (Qceiling attemptsRemaining)).
Proof.
  pose proof (Qceiling_lt attemptsRemaining) as Hc1.
  pose proof (Qle_ceiling attemptsRemaining) as Hc2.
  assert (Hm : forall z, inject_Z (z - 1) == inject_Z z - 1).
  { intro z. unfold Z.sub. rewrite inject_Z_plus. reflexivity. }
  rewrite Hm in Hc1.
  rewrite (ceiling_unique (attemptsRemaining - 1)
             (Qceiling attemptsRemaining - 1)); [lia | |].
  - rewrite !Hm. lra.
  - rewrite Hm. lra.
Qed.





(** C5. When [fetchWithRetry] uses up its budget, every attempt having
    ended in a retryable status or a thrown error: a last attempt that
    produced a response gives that response back to the caller as the
    resolved value; a last attempt that timed out throws an error of kind
    TIMEOUT; a last attempt that failed on the network throws an error of
    kind NETWORK_ERROR; and the status of both thrown errors is 0. *)
Theorem fetchWithRetry_exhausted :
  forall (w : World) (req : Request) (o : FetchWithRetryOptions) (s : State),
    let n := iterations (spread DEFAULT_retries (retries o)) in
    let outcome := fun i => fetch w (fetch_calls s + i)%nat req in
    let out := fst (fetchWithRetry w req o s) in
    let s' := snd (fetchWithRetry w req o s) in
    (1 <= n)%nat ->
    (forall j, (j < n)%nat -> transient (outcome j) = true) ->
    fetch_calls s' = (fetch_calls s + n)%nat
    /\ (forall r, outcome (n - 1)%nat = Responds r -> out = Resolved r)
    /\ (forall e, outcome (n - 1)%nat = Throws e -> is_abort e = true ->
          exists err, out = Rejected (ApiError err)
                      /\ code err = TIMEOUT /\ status err = 0)
    /\ (forall e, outcome (n - 1)%nat = Throws e -> is_abort e = false ->
          exists err, out = Rejected (ApiError err)
                      /\ code err = NETWORK_ERROR /\ status err = 0).
Proof.
  intros w req o s n outcome out s' Hn Hall.
  pose proof (fetchWithRetry_effects w req o s) as (_ & _ & _ & _ & _ & Hk).
  fold s' n in Hk.
  assert (Hspec := fetchWithRetry_spec w req o s).
  cbv zeta in Hspec. fold n in Hspec.
  set (K := attempts_made n
              (fun i => transient (fetch w (fetch_calls s + i)%nat req))) in *.
  assert (HK : K = n).
  { pose proof (attempts_made_bound n
                  (fun i => transient (fetch w (fetch_calls s + i)%nat req))).
    fold K in H.
    destruct (Nat.lt_ge_cases K n) as [Hlt | Hge]; [|lia].
    exfalso. apply (Nat.lt_irrefl K).
    apply attempts_made_lt. split; [exact Hlt |].
    intros j Hj. apply Hall. lia. }
  assert (Hout : out = surfaced (spread DEFAULT_timeout (Transport.timeout o))
                         (outcome (n - 1)%nat)).
  { subst out. rewrite Hspec. cbn [fst]. rewrite HK.
    destruct n as [|m]; [lia|]. subst outcome. cbn beta.
    now replace (S m - 1)%nat with m by lia. }
  split; [lia|].
  split; [intros r Hr; now rewrite Hout, Hr |].
  split.
  - intros e He Ha. rewrite Hout, He. cbn [surfaced]. rewrite Ha.
    eexists. split; [reflexivity |].
    destruct (spread DEFAULT_timeout (Transport.timeout o));
      split; reflexivity.
  - intros e He Ha. rewrite Hout, He. cbn [surfaced]. rewrite Ha.
    eexists. split; [reflexivity | split; reflexivity].
Qed.

Lemma fetchWithRetry_exhausted_witness :
  let req := Scenario.request_maps "t" in
  fst (fetchWithRetry
         (Scenario.server_script [Responds (Scenario.status_only 500)]
            (Responds (Scenario.status_only 503)))
         req no_options initial)
  = Resolved (Scenario.status_only 503)
  /\ (exists err,
        fst (fetchWithRetry
               (Scenario.server_script []
                  (Throws (JsError "AbortError" "The operation was aborted")))
               req no_options initial)
        = Rejected (ApiError err) /\ code err = TIMEOUT /\ status err = 0)
  /\ (exists err,
        fst (fetchWithRetry
               (Scenario.server_script []
                  (Throws (JsError "TypeError" "Failed to fetch")))
               req no_options initial)
        = Rejected (ApiError err)
        /\ code err = NETWORK_ERROR /\ status err = 0).
Proof.
  intro req.
  assert (Hn : (1 <= iterations (spread DEFAULT_retries (retries no_options)))%nat)
    by (vm_compute; lia).
  split; [| split].
  - refine (proj1 (proj2 (fetchWithRetry_exhausted
              (Scenario.server_script [Responds (Scenario.status_only 500)]
                 (Responds (Scenario.status_only 503)))
              req no_options initial Hn _)) _ eq_refl).
    intros [|[|j]] Hj; [reflexivity | reflexivity |].
    vm_compute in Hj. lia.
  - refine (proj1 (proj2 (proj2 (fetchWithRetry_exhausted
              (Scenario.server_script []
                 (Throws (JsError "AbortError" "The operation was aborted")))
              req no_options initial Hn _))) _ eq_refl eq_refl).
    intros [|[|j]] Hj; [reflexivity | reflexivity |].
    vm_compute in Hj. lia.
  - refine (proj2 (proj2 (proj2 (fetchWithRetry_exhausted
              (Scenario.server_script []
                 (Throws (JsError "TypeError" "Failed to fetch")))
              req no_options initial Hn _))) _ eq_refl eq_refl).
    intros [|[|j]] Hj; [reflexivity | reflexivity |].
    vm_compute in Hj. lia.
Defined.

(** ** API client: one logical flow *)

Lemma getHeaders_cached (c : VenalabsApiClient) (s : State) (token : string) :
  cachedToken s = Some token -> token <> "" ->
  getHeaders c s = (Resolved (headers_with c token), s).
Proof.
  intros H Hne. unfold getHeaders, bind, getToken. rewrite H.
  destruct token; [congruence | reflexivity].
Qed.

Lemma refreshToken_run (c : VenalabsApiClient) (s : State) :
  refreshToken c s
  = match tokenProvider c (provider_calls s) with
    | Provides token =>
        (Resolved token, mkState (Some token) (log s ++ [EvProvider]))
    | Fails t => (Rejected t, mkState (cachedToken s) (log s ++ [EvProvider]))
    end.
Proof.
  unfold refreshToken, bind, call_provider.
  destruct (tokenProvider c (provider_calls s)); reflexivity.
Qed.

Lemma getToken_uncached (c : VenalabsApiClient) (s : State) :
  has_token s = false -> getToken c s = refreshToken c s.
Proof.
  unfold has_token, getToken. destruct (cachedToken s) as [token|]; [|easy].
  now intros ->.
Qed.

Lemma getHeaders_uncached (c : VenalabsApiClient) (s : State) :
  has_token s = false ->
  getHeaders c s
  = match tokenProvider c (provider_calls s) with
    | Provides token =>
        (Resolved (headers_with c token),
         mkState (Some token) (log s ++ [EvProvider]))
    | Fails t => (Rejected t, mkState (cachedToken s) (log s ++ [EvProvider]))
    end.
Proof.
  intro H. unfold getHeaders, bind. rewrite (getToken_uncached c s H).
  rewrite refreshToken_run.
  destruct (tokenProvider c (provider_calls s)); reflexivity.
Qed.

Lemma has_token_spec (s : State) :
  has_token s = true
  <-> exists token, cachedToken s = Some token /\ token <> "".
Proof.
  unfold has_token. destruct (cachedToken s) as [[|a token]|]; cbn.
  - split; [discriminate | intros (t & [= <-] & H); congruence].
  - split; [intros _; eexists; split; [reflexivity | discriminate] | easy].
  - split; [discriminate | intros (t & H & _); discriminate].
Qed.

(** What building the headers leaves of the state. *)
Lemma getHeaders_effects (c : VenalabsApiClient) (s : State) :
  let s1 := snd (getHeaders c s) in
  provider_calls s1
  = (provider_calls s + if has_token s then 0 else 1)%nat
  /\ transport_calls s1 = transport_calls s
  /\ json_calls s1 = json_calls s
  /\ fetch_calls s1 = fetch_calls s
  /\ requests s1 = requests s.
Proof.
  destruct (has_token s) eqn:E.
  - apply has_token_spec in E as (token & H & Hne).
    rewrite (getHeaders_cached c s token H Hne). cbn [snd].
    repeat split; lia.
  - rewrite (getHeaders_uncached c s E).
    unfold provider_calls, transport_calls, json_calls, fetch_calls, requests.
    destruct (tokenProvider c (count is_provider (log s)));
      cbn [snd log]; rewrite !count_app, filter_app; cbn;
      rewrite ?app_nil_r; repeat split; lia.
Qed.

(** With [isRetry = true] the recursive call is dead code. *)
Lemma get_body_retry (again again' : M Value) (w : World)
    (c : VenalabsApiClient) (endpoint : string) (s : State) :
  get_body again w c endpoint true s = get_body again' w c endpoint true s.
Proof.
  unfold get_body, bind.
  destruct (getHeaders c s) as [[h|t] s1]; [|reflexivity].
  destruct (fetchWithRetry _ _ _ s1) as [[r|t] s2]; [|reflexivity].
  now rewrite andb_false_r.
Qed.

Lemma post_body_retry (again again' : M Value) (w : World)
    (c : VenalabsApiClient) (endpoint : string) (body : option Json)
    (s : State) :
  post_body again w c endpoint body true s
  = post_body again' w c endpoint body true s.
Proof.
  unfold post_body, bind.
  destruct (getHeaders c s) as [[h|t] s1]; [|reflexivity].
  destruct (fetchWithRetry _ _ _ s1) as [[r|t] s2]; [|reflexivity].
  now rewrite andb_false_r.
Qed.

(** The recursion equations of the source. *)
Lemma get_unfold (w : World) (c : VenalabsApiClient) (endpoint : string)
    (isRetry : bool) (s : State) :
  get w c endpoint isRetry s
  = get_body (get w c endpoint true) w c endpoint isRetry s.
Proof.
  unfold get. destruct isRetry; [apply get_body_retry |].
  unfold get_body at 1 3. unfold bind.
  destruct (getHeaders c s) as [[h|t] s1]; [|reflexivity].
  destruct (fetchWithRetry _ _ _ s1) as [[r|t] s2]; [|reflexivity].
  destruct ((resp_status r =? 401) && negb false); [|reflexivity].
  destruct (clearToken s2) as [[u|t] s3]; [|reflexivity].
  destruct (refreshToken c s3) as [[u'|t] s4]; [|reflexivity].
  apply get_body_retry.
Qed.

Lemma post_unfold (w : World) (c : VenalabsApiClient) (endpoint : string)
    (body : option Json) (isRetry : bool) (s : State) :
  post w c endpoint body isRetry s
  = post_body (post w c endpoint body true) w c endpoint body isRetry s.
Proof.
  unfold post. destruct isRetry; [apply post_body_retry |].
  unfold post_body at 1 3. unfold bind.
  destruct (getHeaders c s) as [[h|t] s1]; [|reflexivity].
  destruct (fetchWithRetry _ _ _ s1) as [[r|t] s2]; [|reflexivity].
  destruct ((resp_status r =? 401) && negb false); [|reflexivity].
  destruct (clearToken s2) as [[u|t] s3]; [|reflexivity].
  destruct (refreshToken c s3) as [[u'|t] s4]; [|reflexivity].
  apply post_body_retry.
Qed.

(** Both helpers obey one equation: build the headers, call the
    transport, and on a first 401 clear, refresh and call oneself with
    [isRetry = true]; otherwise conclude. *)
Lemma issue_step (w : World) (c : VenalabsApiClient) (call : Call)
    (isRetry : bool) (s : State) :
  issue w c call isRetry s
  = (headers <- getHeaders c ;;
     response <- fetchWithRetry w (request_of c call headers)
                   (getRetryOptions c) ;;
     if (resp_status response =? 401) && negb isRetry then
       clearToken ;; refreshToken c ;; issue w c call true
     else conclude call response)%m s.
Proof.
  destruct call as [endpoint | endpoint body]; cbn [issue request_of].
  - rewrite get_unfold. unfold get_body, bind, conclude.
    destruct (getHeaders c s) as [[h|t] s1]; [|reflexivity].
    destruct (fetchWithRetry _ _ _ s1) as [[r|t] s2]; [|reflexivity].
    destruct ((resp_status r =? 401) && negb isRetry); reflexivity.
  - rewrite post_unfold. unfold post_body, bind, conclude.
    destruct (getHeaders c s) as [[h|t] s1]; [|reflexivity].
    destruct (fetchWithRetry _ _ _ s1) as [[r|t] s2]; [|reflexivity].
    destruct ((resp_status r =? 401) && negb isRetry); reflexivity.
Qed.

(** What [conclude] leaves of the state: at most a call of [json()]. *)
Lemma conclude_effects (call : Call) (r : Response) (s : State) :
  let s' := snd (conclude call r s) in
  cachedToken s' = cachedToken s
  /\ provider_calls s' = provider_calls s
  /\ transport_calls s' = transport_calls s
  /\ fetch_calls s' = fetch_calls s
  /\ requests s' = requests s.
Proof.
  assert (Hs : forall s0, s0 = mkState (cachedToken s) (log s ++ [EvJson]) ->
                 cachedToken s0 = cachedToken s
                 /\ provider_calls s0 = provider_calls s
                 /\ transport_calls s0 = transport_calls s
                 /\ fetch_calls s0 = fetch_calls s
                 /\ requests s0 = requests s).
  { intros s0 ->.
    unfold provider_calls, transport_calls, fetch_calls, requests.
    cbn [cachedToken log]. rewrite !count_app, filter_app. cbn.
    rewrite app_nil_r. repeat split; lia. }
  unfold conclude.
  destruct (negb (ok r)).
  - apply Hs. unfold bind, try_catch, json, emit, ret, throw.
    destruct (resp_json r); reflexivity.
  - destruct call as [e | e b].
    + apply Hs. unfold bind, json, emit, ret, throw.
      destruct (resp_json r); reflexivity.
    + destruct (is_empty_response r).
      * cbn. repeat split; reflexivity.
      * apply Hs. unfold bind, json, emit, ret, throw.
        destruct (resp_json r); reflexivity.
Qed.

Lemma conclude_failure (call : Call) (r : Response) (s : State) :
  ok r = false ->
  exists body,
    fst (conclude call r s)
    = Rejected (ApiError (fromResponseParsed (resp_status r) body)).
Proof.
  intro H. unfold conclude. rewrite H. cbn [negb].
  unfold bind, try_catch, json, emit, ret, throw.
  destruct (resp_json r); eexists; reflexivity.
Qed.

Lemma fromResponse_401_is_auth (body : option ErrorBody) :
  let e := fromResponse 401 body in
  (code e = INVALID_TOKEN \/ code e = TOKEN_EXPIRED)
  /\ status e = 401 /\ isAuthError e = true.
Proof.
  unfold fromResponse. cbn.
  destruct (is_token_expired body); cbn; auto.
Qed.


Lemma fromResponseParsed_401_is_auth (body : Json) :
  let e := fromResponseParsed 401 body in
  (code e = INVALID_TOKEN \/ code e = TOKEN_EXPIRED)
  /\ status e = 401 /\ isAuthError e = true.
Proof.
  unfold fromResponseParsed, fromResponse, isAuthError. cbn.
  destruct (is_token_expired _); cbn; auto.
Qed.


(** After a first 401 and a refresh that resolves with a non-empty token,
    the logical call is the retried request and nothing else. *)
Lemma issue_after_401 (w : World) (c : VenalabsApiClient) (call : Call)
    (s s1 s2 : State) (h1 : Headers) (r1 : Response) (token : string) :
  getHeaders c s = (Resolved h1, s1) ->
  fetchWithRetry w (request_of c call h1) (getRetryOptions c) s1
  = (Resolved r1, s2) ->
  resp_status r1 = 401 ->
  tokenProvider c (provider_calls s2) = Provides token ->
  token <> "" ->
  issue w c call false s
  = match fetchWithRetry w (request_of c call (headers_with c token))
            (getRetryOptions c)
            (mkState (Some token) (log s2 ++ [EvProvider])) with
    | (Resolved r2, s4) => conclude call r2 s4
    | (Rejected t, s4) => (Rejected t, s4)
    end.
Proof.
  intros H1 H2 H401 Hp Hne.
  rewrite issue_step. unfold bind at 1. rewrite H1.
  unfold bind at 1. rewrite H2. rewrite H401. cbn [Z.eqb Pos.eqb negb andb].
  unfold bind at 1. unfold clearToken, set_cachedToken.
  unfold bind at 1. rewrite refreshToken_run. cbn [log].
  change (provider_calls (mkState None (log s2))) with (provider_calls s2).
  rewrite Hp.
  rewrite issue_step. unfold bind at 1.
  rewrite (getHeaders_cached c (mkState (Some token) (log s2 ++ [EvProvider]))
             token eq_refl Hne).
  unfold bind at 1.
  destruct (fetchWithRetry w (request_of c call (headers_with c token))
              (getRetryOptions c)
              (mkState (Some token) (log s2 ++ [EvProvider])))
    as [[r2|t] s4]; [|reflexivity].
  now rewrite andb_false_r.
Qed.

(** The attempts of one transport call of the client: one or two, and
    one when the first attempt ends in an outcome that is not retried. *)
Lemma client_attempts (w : World) (c : VenalabsApiClient) (req : Request)
    (s : State) :
  let s' := snd (fetchWithRetry w req (getRetryOptions c) s) in
  (fetch_calls s + 1 <= fetch_calls s' <= fetch_calls s + 2)%nat
  /\ (transient (fetch w (fetch_calls s) req) = false ->
      fetch_calls s' = (fetch_calls s + 1)%nat).
Proof.
  pose proof (fetchWithRetry_effects w req (getRetryOptions c) s)
    as (_ & _ & _ & _ & _ & Hf).
  cbv zeta in *. rewrite Hf.
  change (iterations (spread DEFAULT_retries (retries (getRetryOptions c))))
    with 2%nat.
  cbn [attempts_made]. rewrite Nat.add_0_r.
  destruct (transient (fetch w (fetch_calls s) req)).
  - destruct (transient (fetch w (fetch_calls s + 1) req));
      (split; [lia | discriminate]).
  - split; [lia | reflexivity].
Qed.

(** C1, the claim as stated fails in its counts.  When the refresh
    resolves with the empty string (the provider yields ["expired-token"],
    then [""], then ["fresh-token"]), the retry finds no credential and
    calls the provider again: the call succeeds with three provider calls,
    two of them after the 401.  When the retried request is first
    answered 503, the transport primitive repeats it: the call succeeds
    with two provider calls and three HTTP attempts.  And when the
    credential that is rejected was served from the cache, the call
    succeeds with one provider call, the refresh. *)
Lemma refresh_on_401_can_cost_more :
  (let c := Scenario.client_with
              (Scenario.provider_of ["expired-token"; ""] "fresh-token") in
   let w := Scenario.server_accepting "fresh-token" in
   fetch w 0 (Scenario.request_maps "expired-token")
   = Responds (mkResponse 401 None (Some Scenario.expired_body))
   /\ fst (issue w c (CallGet "/maps") false initial)
      = Resolved (VJson Scenario.maps)
   /\ transport_calls (snd (issue w c (CallGet "/maps") false initial))
      = 2%nat
   /\ provider_calls (snd (issue w c (CallGet "/maps") false initial))
      = 3%nat)
  /\ (let c := Scenario.client_with
                 (Scenario.provider_of ["expired-token"] "fresh-token") in
      let w := Scenario.server_script
                 [Responds (mkResponse 401 None (Some Scenario.expired_body));
                  Responds (Scenario.status_only 503)]
                 (Responds (mkResponse 200 None (Some Scenario.maps))) in
      fst (issue w c (CallGet "/maps") false initial)
      = Resolved (VJson Scenario.maps)
      /\ provider_calls (snd (issue w c (CallGet "/maps") false initial))
         = 2%nat
      /\ fetch_calls (snd (issue w c (CallGet "/maps") false initial))
         = 3%nat)
  /\ (let c := Scenario.client_with (Scenario.provider_of [] "fresh-token") in
      let w := Scenario.server_accepting "fresh-token" in
      let s := mkState (Some "expired-token") [] in
      fst (issue w c (CallGet "/maps") false s)
      = Resolved (VJson Scenario.maps)
      /\ provider_calls (snd (issue w c (CallGet "/maps") false s)) = 1%nat
      /\ fetch_calls (snd (issue w c (CallGet "/maps") false s)) = 2%nat).
Proof. vm_compute. repeat split. Qed.

(** C1 (amended). For a GET or a POST alike, in a logical call that runs
    on its own: when the first transport call yields a 401, the cached
    credential is invalidated and the provider is called once; if the
    provider fails, the call is rejected with its error, nothing more is
    sent and no credential is left in the cache.  If the provider resolves
    with a non-empty token, that is the one provider call made after the
    401, and exactly one more request is handed to the transport
    primitive, the same request under the new credential; nothing else is
    sent.  If that retry yields a 401 too, the call is rejected with an
    error of kind INVALID_TOKEN or TOKEN_EXPIRED and status 401, without a
    further refresh or retry.  Over the whole logical call the provider is
    called exactly twice when no credential was cached at the start (once
    when the rejected credential came from the cache); the transport
    primitive is called exactly twice; and the HTTP attempts are exactly 2
    when neither request meets an answer of status 500 or more or 429 or a
    thrown error, each of which costs its request one more attempt, so
    that they are between 2 and 4 in general. *)
Theorem refresh_and_retry_once_on_401 :
  forall (w : World) (c : VenalabsApiClient) (call : Call)
         (s s1 s2 : State) (h1 : Headers) (r1 : Response),
    getHeaders c s = (Resolved h1, s1) ->
    fetchWithRetry w (request_of c call h1) (getRetryOptions c) s1
    = (Resolved r1, s2) ->
    resp_status r1 = 401 ->
    let req1 := request_of c call h1 in
    let out := fst (issue w c call false s) in
    let s' := snd (issue w c call false s) in
    (forall t,
       tokenProvider c (provider_calls s2) = Fails t ->
       out = Rejected t
       /\ cachedToken s' = None
       /\ provider_calls s' = S (provider_calls s2)
       /\ requests s' = requests s ++ [EvRequest req1])
    /\ (forall token,
          tokenProvider c (provider_calls s2) = Provides token ->
          token <> "" ->
          let req2 := request_of c call (headers_with c token) in
          let s3 := mkState (Some token) (log s2 ++ [EvProvider]) in
          provider_calls s' = S (provider_calls s2)
          /\ transport_calls s' = S (S (transport_calls s))
          /\ requests s' = requests s ++ [EvRequest req1; EvRequest req2]
          /\ cachedToken s' = Some token
          /\ provider_calls s'
             = (provider_calls s + if has_token s then 1 else 2)%nat
          /\ (fetch_calls s + 2 <= fetch_calls s' <= fetch_calls s + 4)%nat
          /\ (transient (fetch w (fetch_calls s) req1) = false ->
              transient (fetch w (S (fetch_calls s)) req2) = false ->
              fetch_calls s' = (fetch_calls s + 2)%nat)
          /\ (forall r2 s4,
                fetchWithRetry w req2 (getRetryOptions c) s3
                = (Resolved r2, s4) ->
                resp_status r2 = 401 ->
                exists e, out = Rejected (ApiError e)
                          /\ (code e = INVALID_TOKEN \/ code e = TOKEN_EXPIRED)
                          /\ status e = 401 /\ isAuthError e = true)).
Proof.
  intros w c call s s1 s2 h1 r1 H1 H2 H401 req1 out s'.
  pose proof (getHeaders_effects c s) as (G1 & G2 & _ & G4 & G5).
  rewrite H1 in G1, G2, G4, G5. cbn [snd] in G1, G2, G4, G5.
  pose proof (fetchWithRetry_effects w req1 (getRetryOptions c) s1)
    as (_ & F2 & F3 & _ & F5 & _).
  unfold req1 in F2, F3, F5.
  rewrite H2 in F2, F3, F5. cbn [snd] in F2, F3, F5.
  pose proof (client_attempts w c req1 s1) as (A1 & A2).
  unfold req1 in A1, A2. rewrite H2 in A1, A2. cbn [snd] in A1, A2.
  rewrite G4 in A1, A2.
  split.
  { intros t Hp.
    assert (Heq : issue w c call false s
                  = (Rejected t, mkState None (log s2 ++ [EvProvider]))).
    { rewrite issue_step. unfold bind at 1. rewrite H1.
      unfold bind at 1. fold req1 in H2 |- *. rewrite H2, H401.
      cbn [Z.eqb Pos.eqb negb andb].
      unfold bind at 1. unfold clearToken, set_cachedToken.
      unfold bind at 1. rewrite refreshToken_run. cbn [log cachedToken].
      change (provider_calls (mkState None (log s2)))
        with (provider_calls s2).
      now rewrite Hp. }
    subst out s'. rewrite Heq. cbn [fst snd cachedToken].
    split; [reflexivity |]. split; [reflexivity |].
    split.
    - unfold provider_calls. cbn [log]. rewrite count_app. cbn. lia.
    - unfold requests at 1. cbn [log]. rewrite filter_app. cbn.
      rewrite app_nil_r. rewrite F5. fold (requests s1). now rewrite G5. }
  intros token Hp Hne req2 s3.
  pose proof (issue_after_401 w c call s s1 s2 h1 r1 token H1 H2 H401 Hp Hne)
    as Heq.
  fold req2 s3 in Heq.
  assert (P3 : provider_calls s3 = S (provider_calls s2)).
  { unfold provider_calls, s3. cbn [log]. rewrite count_app. cbn. lia. }
  assert (T3 : transport_calls s3 = transport_calls s2).
  { unfold transport_calls, s3. cbn [log]. rewrite count_app. cbn. lia. }
  assert (Q3 : fetch_calls s3 = fetch_calls s2).
  { unfold fetch_calls, s3. cbn [log]. rewrite count_app. cbn. lia. }
  assert (R3 : requests s3 = requests s2).
  { unfold requests, s3. cbn [log]. rewrite filter_app. cbn.
    now rewrite app_nil_r. }
  pose proof (fetchWithRetry_effects w req2 (getRetryOptions c) s3)
    as (E1 & E2 & E3 & _ & E5 & _).
  pose proof (client_attempts w c req2 s3) as (B1 & B2).
  cbv zeta in B1, B2. rewrite Q3 in B1, B2.
  assert (Hfinal :
    provider_calls s' = provider_calls s3
    /\ transport_calls s' = S (transport_calls s3)
    /\ requests s' = requests s3 ++ [EvRequest req2]
    /\ cachedToken s' = Some token
    /\ fetch_calls s'
       = fetch_calls (snd (fetchWithRetry w req2 (getRetryOptions c) s3))).
  { subst s'. rewrite Heq.
    destruct (fetchWithRetry w req2 (getRetryOptions c) s3) as [[r2|t] s4].
    - cbn [snd] in E1, E2, E3, E5 |- *.
      pose proof (conclude_effects call r2 s4) as (C1 & C2 & C3 & C4 & C5).
      cbv zeta in C1, C2, C3, C4, C5.
      rewrite C1, C2, C3, C4, C5, E1, E2, E3.
      unfold requests at 1. rewrite E5. auto.
    - cbn [snd] in *. unfold requests at 1. rewrite E5. auto. }
  destruct Hfinal as (Fp & Ft & Fr & Fc & Ff).
  split; [lia |].
  split; [lia |].
  split.
  { rewrite Fr, R3. unfold requests at 1. rewrite F5.
    fold (requests s1). rewrite G5, <- app_assoc. reflexivity. }
  split; [exact Fc |].
  split.
  { rewrite Fp, P3, F2, G1. destruct (has_token s); lia. }
  split; [lia |].
  split.
  { intros Ht1 Ht2. specialize (A2 Ht1).
    rewrite A2, Nat.add_1_r in B2. specialize (B2 Ht2). lia. }
  intros r2 s4 Hr2 H2nd.
  subst out. rewrite Heq, Hr2.
  assert (Hok : ok r2 = false) by (unfold ok; rewrite H2nd; reflexivity).
  destruct (conclude_failure call r2 s4 Hok) as [body Hb].
  rewrite Hb, H2nd.
  eexists. split; [reflexivity |].
  apply fromResponseParsed_401_is_auth.
Qed.

Lemma refresh_and_retry_once_on_401_witness :
  let c := Scenario.client_with
             (Scenario.provider_of ["expired-token"] "fresh-token") in
  let w := Scenario.server_accepting "fresh-token" in
  let s' := snd (issue w c (CallGet "/maps") false initial) in
  provider_calls s' = 2%nat
  /\ transport_calls s' = 2%nat
  /\ fetch_calls s' = 2%nat
  /\ requests s'
     = [EvRequest (Scenario.request_maps "expired-token");
        EvRequest (Scenario.request_maps "fresh-token")].
Proof.
  intros c w s'.
  pose proof (refresh_and_retry_once_on_401 w c (CallGet "/maps")
                initial
                (mkState (Some "expired-token") [EvProvider])
                (mkState (Some "expired-token")
                   [EvProvider;
                    EvRequest (Scenario.request_maps "expired-token");
                    EvFetch (Scenario.request_maps "expired-token")
                      (Num 30000)])
                (headers_with c "expired-token")
                (mkResponse 401 None (Some Scenario.expired_body))
                eq_refl eq_refl eq_refl) as H.
  cbv zeta in H. destruct H as [_ H].
  destruct (H "fresh-token" eq_refl) as (_ & H2 & H3 & _ & H5 & _ & H7 & _);
    [discriminate |].
  fold s' in H2, H3, H5, H7.
  split; [exact H5 |]. split; [exact H2 |].
  split; [exact (H7 eq_refl eq_refl) | exact H3].
Defined.

Lemma require_present (name value : string) (s : State) :
  value <> "" -> require name value s = (Resolved tt, s).
Proof. destruct value; [congruence | reflexivity]. Qed.

Lemma require_missing (name : string) (s : State) :
  require name "" s
  = (Rejected (JsError "Error" (name ++ " is required")%string), s).
Proof. reflexivity. Qed.

(** Once its arguments pass validation, an operation is the request of
    the wire contract, followed by what the method does with the result. *)
Lemma run_valid (w : World) (c : VenalabsApiClient) (op : Operation)
    (s : State) :
  (forall id, In id (identifiers op) -> id <> "") ->
  run w c op s
  = match op with
    | GetCourseProgress _ =>
        try_catch (issue w c (descriptor op) false) swallow_not_found s
    | StartCourse _ | VerifyNftMint _ _ _ =>
        (issue w c (descriptor op) false ;; ret VUndefined)%m s
    | _ => issue w c (descriptor op) false s
    end.
Proof.
  intro Hid.
  destruct op; cbn [run identifiers descriptor issue] in *;
    unfold getMaps, getCourse, startCourse, completeStep, getProgress,
      getCourseProgress, getWalletNonce, linkStellarWallet, getLinkedWallets,
      verifyStep, getNftVoucher, verifyNftMint;
    try reflexivity;
    repeat (unfold bind at 1;
            rewrite require_present by (apply Hid; cbn; auto));
    reflexivity.
Qed.

Lemma fetchWithRetry_first_final (w : World) (c : VenalabsApiClient)
    (req : Request) (s : State) (r : Response) :
  fetch w (fetch_calls s) req = Responds r ->
  transient (Responds r) = false ->
  fetchWithRetry w req (getRetryOptions c) s
  = (Resolved r,
     mkState (cachedToken s)
       (log s ++ [EvRequest req; EvFetch req (Num (Client.timeout c))])).
Proof.
  intros Hf Ht. rewrite fetchWithRetry_spec.
  cbn [getRetryOptions retries retryDelay Transport.timeout spread].
  change (iterations (Num 1%Q)) with 2%nat. cbn [attempts_made].
  rewrite Nat.add_0_r, Hf, Ht. cbn [schedule surfaced].
  now rewrite Nat.add_0_r, Hf.
Qed.

Lemma issue_on_404 (w : World) (c : VenalabsApiClient) (call : Call)
    (s s1 : State) (h : Headers) (r : Response) :
  getHeaders c s = (Resolved h, s1) ->
  fetch w (fetch_calls s) (request_of c call h) = Responds r ->
  resp_status r = 404 ->
  exists body s',
    issue w c call false s
    = (Rejected (ApiError (fromResponseParsed 404 body)), s').
Proof.
  intros H1 Hf H404.
  pose proof (getHeaders_effects c s) as (_ & _ & _ & G4 & _).
  rewrite H1 in G4. cbn [snd] in G4. rewrite <- G4 in Hf.
  rewrite issue_step. unfold bind at 1. rewrite H1. unfold bind at 1.
  rewrite (fetchWithRetry_first_final w c _ s1 r Hf)
    by (cbn; rewrite H404; reflexivity).
  rewrite H404. cbn [Z.eqb Pos.eqb andb].
  assert (Hok : ok r = false) by (unfold ok; now rewrite H404).
  match goal with |- context [conclude call r ?st] =>
    destruct (conclude_failure call r st Hok) as [body Hb];
    destruct (conclude call r st) as [out s'] eqn:E
  end.
  cbn [fst] in Hb. subst out. rewrite H404. eauto.
Qed.

(** C6. [getCourseProgress] is the one operation that swallows a
    NOT_FOUND error.  When the request of an operation is rejected, every
    operation other than [getCourseProgress] is rejected with the same
    error, whatever its kind; [getCourseProgress] resolves with [null] when
    the error is of kind NOT_FOUND and is rejected with the error
    otherwise.  In particular, when the request is answered 404,
    [getCourseProgress] resolves with [null] while [getCourse] and every
    other operation are rejected with a NOT_FOUND error of status 404. *)
Theorem only_getCourseProgress_swallows_not_found :
  forall (w : World) (c : VenalabsApiClient) (op : Operation) (s : State),
    (forall id, In id (identifiers op) -> id <> "") ->
    (forall t s',
       issue w c (descriptor op) false s = (Rejected t, s') ->
       run w c op s
       = match op with
         | GetCourseProgress _ =>
             if is_not_found t then (Resolved (VJson JNull), s')
             else (Rejected t, s')
         | _ => (Rejected t, s')
         end)
    /\ (forall h s1 r,
          getHeaders c s = (Resolved h, s1) ->
          fetch w (fetch_calls s) (request_of c (descriptor op) h)
          = Responds r ->
          resp_status r = 404 ->
          match op with
          | GetCourseProgress _ => fst (run w c op s) = Resolved (VJson JNull)
          | _ => exists e, fst (run w c op s) = Rejected (ApiError e)
                           /\ code e = NOT_FOUND /\ status e = 404
          end).
Proof.
  intros w c op s Hid.
  assert (Hrej : forall t s',
            issue w c (descriptor op) false s = (Rejected t, s') ->
            run w c op s
            = match op with
              | GetCourseProgress _ =>
                  if is_not_found t then (Resolved (VJson JNull), s')
                  else (Rejected t, s')
              | _ => (Rejected t, s')
              end).
  { intros t s' Hi. rewrite (run_valid w c op s Hid).
    destruct op; try exact Hi; unfold bind, try_catch; rewrite Hi;
      try reflexivity.
    destruct t as [e | n m | x]; try reflexivity.
    cbn [swallow_not_found is_not_found]. unfold code_eqb.
    cbn [VenalabsErrorCodes].
    destruct (String.eqb (VenalabsErrorCodes (code e)) "NOT_FOUND");
      reflexivity. }
  split; [exact Hrej |].
  intros h s1 r H1 Hf H404.
  destruct (issue_on_404 w c (descriptor op) s s1 h r H1 Hf H404)
    as (body & s' & Hi).
  rewrite (Hrej _ _ Hi).
  destruct op; cbn [fst];
    try (eexists; split; [reflexivity | split; reflexivity]).
  reflexivity.
Qed.

Lemma only_getCourseProgress_swallows_not_found_witness :
  let c := Scenario.client_with (Scenario.provider_of [] "valid-token") in
  let w := Scenario.server_always Scenario.not_found in
  fst (run w c (GetCourseProgress "course-1") initial) = Resolved (VJson JNull)
  /\ exists e, fst (run w c (GetCourse "course-1") initial)
               = Rejected (ApiError e)
               /\ code e = NOT_FOUND /\ status e = 404.
Proof.
  intros c w.
  assert (Hid : forall op, op = GetCourseProgress "course-1"
                           \/ op = GetCourse "course-1" ->
                forall id, In id (identifiers op) -> id <> "").
  { intros op [-> | ->] id [<- | []]; discriminate. }
  split.
  - exact (proj2 (only_getCourseProgress_swallows_not_found w c
                    (GetCourseProgress "course-1") initial
                    (Hid _ (or_introl eq_refl)))
             (headers_with c "valid-token")
             (mkState (Some "valid-token") [EvProvider])
             Scenario.not_found eq_refl eq_refl eq_refl).
  - exact (proj2 (only_getCourseProgress_swallows_not_found w c
                    (GetCourse "course-1") initial
                    (Hid _ (or_intror eq_refl)))
             (headers_with c "valid-token")
             (mkState (Some "valid-token") [EvProvider])
             Scenario.not_found eq_refl eq_refl eq_refl).
Defined.

Ltac reject_with name :=
  exists name; split; [reflexivity | cbn; tauto].

Ltac reject_missing :=
  first [ reject_with "courseId"%string
        | reject_with "stepId"%string
        | reject_with "walletAddress"%string
        | reject_with "signature"%string
        | reject_with "txHash"%string ].

(** The empty-identifier rejection, with the state it leaves. *)
Lemma run_missing_identifier (w : World) (c : VenalabsApiClient)
    (op : Operation) (s : State) :
  In "" (identifiers op) ->
  exists name,
    run w c op s
    = (Rejected (JsError "Error" (name ++ " is required")%string), s)
    /\ In name ["courseId"; "stepId"; "walletAddress"; "signature";
                "txHash"]%string.
Proof.
  intro H.
  destruct op; cbn [identifiers In] in H;
    repeat (destruct H as [H | H]); try contradiction; subst.
  - reject_missing.
  - reject_missing.
  - reject_missing.
  - destruct courseId; reject_missing.
  - reject_missing.
  - reject_missing.
  - reject_missing.
  - destruct walletAddress; reject_missing.
  - reject_missing.
  - destruct courseId; reject_missing.
  - reject_missing.
  - destruct courseId; reject_missing.
  - reject_missing.
  - destruct courseId; reject_missing.
  - destruct courseId; destruct stepId; reject_missing.
Qed.

(** C9. For each operation that takes required identifier arguments
    ([getCourse], [startCourse], [completeStep], [getCourseProgress],
    [getWalletNonce], [linkStellarWallet], [verifyStep], [getNftVoucher],
    [verifyNftMint]): if one of them is the empty string, the call is
    rejected with the local error ["<name> is required"] and the client is
    left as it was: the token provider is not called, no request is handed
    to the transport, nothing is fetched, the cached credential is not
    touched. *)
Theorem empty_identifier_fails_before_any_network_call :
  forall (w : World) (c : VenalabsApiClient) (op : Operation) (s : State),
    In "" (identifiers op) ->
    let out := fst (run w c op s) in
    let s' := snd (run w c op s) in
    (exists name,
       out = Rejected (JsError "Error" (name ++ " is required")%string)
       /\ In name ["courseId"; "stepId"; "walletAddress"; "signature";
                   "txHash"]%string)
    /\ s' = s
    /\ provider_calls s' = provider_calls s
    /\ transport_calls s' = transport_calls s
    /\ fetch_calls s' = fetch_calls s
    /\ cachedToken s' = cachedToken s.
Proof.
  intros w c op s H out s'.
  destruct (run_missing_identifier w c op s H) as (name & Hrun & Hin).
  subst out s'. rewrite Hrun. cbn [fst snd].
  split; [exists name; auto |].
  repeat split; reflexivity.
Qed.

Lemma empty_identifier_fails_before_any_network_call_witness :
  let c := Scenario.client_with (Scenario.provider_of [] "valid-token") in
  let w := Scenario.server_always Scenario.not_found in
  snd (run w c (VerifyNftMint "course-1" "step-1" "") initial) = initial
  /\ snd (run w c (CompleteStep "course-1" "" None) initial) = initial.
Proof.
  intros c w. split.
  - exact (proj1 (proj2
      (empty_identifier_fails_before_any_network_call w c
         (VerifyNftMint "course-1" "step-1" "") initial
         (or_intror (or_intror (or_introl eq_refl)))))).
  - exact (proj1 (proj2
      (empty_identifier_fails_before_any_network_call w c
         (CompleteStep "course-1" "" None) initial
         (or_intror (or_introl eq_refl))))).
Defined.

(** ** Empty success responses *)

(** C8, the claim as stated fails for GET: [getMaps] answered
    [204 No Content] with [content-length: 0] calls [response.json()] and
    is rejected with the parser's [SyntaxError].  (A POST reads emptiness
    from the header alone: answered 200 with an empty body and no
    [content-length] header, it parses too.) *)
Lemma get_parses_empty_success :
  let c := Scenario.client_with (Scenario.provider_of [] "valid-token") in
  let w := Scenario.server_always Scenario.no_content in
  let w' := Scenario.server_always (mkResponse 200 None None) in
  ok Scenario.no_content = true
  /\ fst (getMaps w c initial)
     = Rejected (JsError "SyntaxError" "Unexpected end of JSON input")
  /\ json_calls (snd (getMaps w c initial)) = 1%nat
  /\ fst (startCourse w' c "course-1" initial)
     = Rejected (JsError "SyntaxError" "Unexpected end of JSON input").
Proof. vm_compute. repeat split. Qed.

(** The GET helper has no case for empty responses: it calls
    [response.json()] on every success response and settles as that call
    does. *)
Lemma get_parses_every_success (w : World) (c : VenalabsApiClient)
    (endpoint : string) (isRetry : bool) (s s1 s2 : State) (h : Headers)
    (r : Response) :
  getHeaders c s = (Resolved h, s1) ->
  fetchWithRetry w (mkRequest (url_of c endpoint) GET h None)
    (getRetryOptions c) s1
  = (Resolved r, s2) ->
  ok r = true ->
  get w c endpoint isRetry s
  = (match resp_json r with
     | Some v => Resolved (VJson v)
     | None => Rejected (JsError "SyntaxError" "Unexpected end of JSON input")
     end,
     mkState (cachedToken s2) (log s2 ++ [EvJson])).
Proof.
  intros H1 H2 Hok.
  assert (H401 : (resp_status r =? 401) = false).
  { unfold ok in Hok. lia. }
  change (get w c endpoint isRetry s)
    with (issue w c (CallGet endpoint) isRetry s).
  rewrite issue_step. unfold bind at 1. rewrite H1.
  unfold bind at 1. cbn [request_of]. rewrite H2, H401.
  cbn [andb]. unfold conclude. rewrite Hok. cbn [negb].
  unfold bind, json, emit, ret, throw.
  destruct (resp_json r); reflexivity.
Qed.

(** C8 (amended). For every POST call, first attempt or retry: a success
    response whose status is 204 or whose [content-length] header is ["0"]
    resolves to [undefined], the explicit "no value" result, and
    [response.json()] is not called. *)
Theorem post_empty_success_is_undefined :
  forall (w : World) (c : VenalabsApiClient) (endpoint : string)
         (body : option Json) (isRetry : bool)
         (s s1 s2 : State) (h : Headers) (r : Response),
    getHeaders c s = (Resolved h, s1) ->
    fetchWithRetry w
      (mkRequest (url_of c endpoint) POST h (stringify_if_truthy body))
      (getRetryOptions c) s1
    = (Resolved r, s2) ->
    ok r = true ->
    resp_status r = 204 \/ resp_content_length r = Some "0"%string ->
    post w c endpoint body isRetry s = (Resolved VUndefined, s2)
    /\ json_calls s2 = json_calls s.
Proof.
  intros w c endpoint body isRetry s s1 s2 h r H1 H2 Hok Hempty.
  assert (H401 : (resp_status r =? 401) = false).
  { unfold ok in Hok. lia. }
  assert (He : is_empty_response r = true).
  { unfold is_empty_response. destruct Hempty as [-> | ->]; [reflexivity|].
    cbn. apply orb_true_r. }
  split.
  - change (post w c endpoint body isRetry s)
      with (issue w c (CallPost endpoint body) isRetry s).
    rewrite issue_step. unfold bind at 1. rewrite H1.
    unfold bind at 1. cbn [request_of]. rewrite H2, H401. cbn [andb].
    unfold conclude. rewrite Hok, He. reflexivity.
  - pose proof (getHeaders_effects c s) as (_ & _ & G3 & _).
    rewrite H1 in G3. cbn [snd] in G3.
    pose proof (fetchWithRetry_effects w
                  (mkRequest (url_of c endpoint) POST h
                     (stringify_if_truthy body))
                  (getRetryOptions c) s1) as (_ & _ & _ & F4 & _).
    rewrite H2 in F4. cbn [snd] in F4. lia.
Qed.

Lemma post_empty_success_is_undefined_witness :
  let c := Scenario.client_with (Scenario.provider_of [] "valid-token") in
  let w := Scenario.server_always Scenario.no_content in
  fst (post w c "/courses/course-1/start" None false initial)
  = Resolved VUndefined
  /\ json_calls (snd (post w c "/courses/course-1/start" None false initial))
     = O.
Proof.
  intros c w.
  pose proof (post_empty_success_is_undefined w c "/courses/course-1/start"
                None false initial
                (mkState (Some "valid-token"%string) [EvProvider])
                (snd (post w c "/courses/course-1/start" None false initial))
                (headers_with c "valid-token")
                Scenario.no_content
                eq_refl eq_refl eq_refl (or_introl eq_refl)) as [Hp Hj].
  rewrite Hp. cbn [fst snd].
  split; [reflexivity | exact Hj].
Defined.

(** ** The empty token *)

Lemma fetchWithRetry_response_origin (w : World) (req : Request)
    (o : FetchWithRetryOptions) (s : State) (r : Response) :
  fst (fetchWithRetry w req o s) = Resolved r ->
  exists i, fetch w i req = Responds r.
Proof.
  rewrite fetchWithRetry_spec. cbn [fst].
  destruct (attempts_made _ _) as [|j]; [discriminate|].
  unfold surfaced.
  destruct (fetch w (fetch_calls s + j)%nat req) as [r'|t] eqn:E.
  - intros [= <-]. eauto.
  - destruct (is_abort t); discriminate.
Qed.

Lemma conclude_log (call : Call) (r : Response) (s : State) :
  exists l, log (snd (conclude call r s)) = log s ++ l.
Proof.
  unfold conclude.
  destruct (negb (ok r)).
  - exists [EvJson]. unfold bind, try_catch, json, emit, ret, throw.
    destruct (resp_json r); reflexivity.
  - destruct call as [e | e b].
    + exists [EvJson]. unfold bind, json, emit, ret, throw.
      destruct (resp_json r); reflexivity.
    + destruct (is_empty_response r).
      * exists []. cbn. now rewrite app_nil_r.
      * exists [EvJson]. unfold bind, json, emit, ret, throw.
        destruct (resp_json r); reflexivity.
Qed.

Section EmptyToken.

Variable w : World.
Variable c : VenalabsApiClient.
Hypothesis provider_empty : forall n, tokenProvider c n = Provides "".

Lemma refreshToken_empty (s : State) :
  refreshToken c s
  = (Resolved ""%string, mkState (Some ""%string) (log s ++ [EvProvider])).
Proof. now rewrite refreshToken_run, provider_empty. Qed.

Lemma getHeaders_empty (s : State) :
  has_token s = false ->
  getHeaders c s
  = (Resolved (headers_with c ""),
     mkState (Some ""%string) (log s ++ [EvProvider])).
Proof.
  intro H. now rewrite (getHeaders_uncached c s H), provider_empty.
Qed.

(** A logical call that starts without a usable credential. *)
Lemma issue_empty_eq (call : Call) (isRetry : bool) (s : State) :
  has_token s = false ->
  issue w c call isRetry s
  = match fetchWithRetry w (request_of c call (headers_with c ""))
            (getRetryOptions c)
            (mkState (Some ""%string) (log s ++ [EvProvider])) with
    | (Resolved r, s2) =>
        if (resp_status r =? 401) && negb isRetry
        then issue w c call true
               (mkState (Some ""%string) (log s2 ++ [EvProvider]))
        else conclude call r s2
    | (Rejected t, s2) => (Rejected t, s2)
    end.
Proof.
  intro H. rewrite issue_step. unfold bind at 1.
  rewrite (getHeaders_empty s H). unfold bind at 1.
  destruct (fetchWithRetry w (request_of c call (headers_with c ""))
              (getRetryOptions c)
              (mkState (Some ""%string) (log s ++ [EvProvider])))
    as [[r|t] s2]; [|reflexivity].
  destruct ((resp_status r =? 401) && negb isRetry); [|reflexivity].
  unfold bind at 1. unfold clearToken, set_cachedToken.
  unfold bind at 1. now rewrite refreshToken_empty.
Qed.

(** One pass through a helper that cannot recurse. *)
Lemma issue_retry_empty (call : Call) (s : State) :
  has_token s = false ->
  let s' := snd (issue w c call true s) in
  (exists rest,
     log s' = log s ++ EvProvider
                :: EvRequest (request_of c call (headers_with c "")) :: rest)
  /\ cachedToken s' = Some ""%string
  /\ provider_calls s' = S (provider_calls s)
  /\ transport_calls s' = S (transport_calls s).
Proof.
  intros H s'. subst s'. rewrite (issue_empty_eq call true s H).
  set (req := request_of c call (headers_with c "")).
  set (s1 := mkState (Some ""%string) (log s ++ [EvProvider])).
  pose proof (fetchWithRetry_effects w req (getRetryOptions c) s1)
    as (E1 & E2 & E3 & _).
  pose proof (fetchWithRetry_spec w req (getRetryOptions c) s1) as Hspec.
  cbv zeta in Hspec.
  assert (Hlog : exists l,
             log (snd (fetchWithRetry w req (getRetryOptions c) s1))
             = log s ++ EvProvider :: EvRequest req :: l).
  { rewrite Hspec. cbn [snd log s1]. rewrite <- app_assoc.
    eexists. reflexivity. }
  assert (P1 : provider_calls s1 = S (provider_calls s)).
  { unfold provider_calls, s1. cbn [log]. rewrite count_app. cbn. lia. }
  assert (T1 : transport_calls s1 = transport_calls s).
  { unfold transport_calls, s1. cbn [log]. rewrite count_app. cbn. lia. }
  clear Hspec.
  destruct (fetchWithRetry w req (getRetryOptions c) s1) as [[r|t] s2].
  - cbn [snd] in *. rewrite andb_false_r.
    pose proof (conclude_effects call r s2) as (C1 & C2 & C3 & _).
    destruct (conclude_log call r s2) as [l2 Hl2].
    destruct Hlog as [l Hl].
    cbv zeta in C1, C2, C3.
    split.
    { exists (l ++ l2). rewrite Hl2, Hl, <- app_assoc. reflexivity. }
    split; [now rewrite C1, E1 |]. split; lia.
  - cbn [snd] in *. split; [exact Hlog |].
    split; [now rewrite E1 |]. split; lia.
Qed.

Lemma issue_empty (call : Call) (isRetry : bool) (s : State) :
  has_token s = false ->
  let s' := snd (issue w c call isRetry s) in
  let refreshed :=
    match fst (fetchWithRetry w (request_of c call (headers_with c ""))
                 (getRetryOptions c)
                 (mkState (Some ""%string) (log s ++ [EvProvider]))) with
    | Resolved r => (resp_status r =? 401) && negb isRetry
    | Rejected _ => false
    end in
  (exists rest,
     log s' = log s ++ EvProvider
                :: EvRequest (request_of c call (headers_with c "")) :: rest)
  /\ cachedToken s' = Some ""%string
  /\ provider_calls s' = (provider_calls s + if refreshed then 3 else 1)%nat
  /\ transport_calls s' = (transport_calls s + if refreshed then 2 else 1)%nat.
Proof.
  intros H s' refreshed.
  destruct isRetry.
  { destruct (issue_retry_empty call s H) as (Hl & Hc & Hp & Ht).
    fold s' in Hl, Hc, Hp, Ht.
    assert (Hr : refreshed = false).
    { subst refreshed. destruct (fst _); [apply andb_false_r | reflexivity]. }
    rewrite Hr. split; [exact Hl |]. split; [exact Hc |]. split; lia. }
  subst s' refreshed. rewrite (issue_empty_eq call false s H).
  set (req := request_of c call (headers_with c "")).
  set (s1 := mkState (Some ""%string) (log s ++ [EvProvider])).
  pose proof (fetchWithRetry_effects w req (getRetryOptions c) s1)
    as (E1 & E2 & E3 & _).
  pose proof (fetchWithRetry_spec w req (getRetryOptions c) s1) as Hspec.
  cbv zeta in Hspec.
  assert (Hlog : exists l,
             log (snd (fetchWithRetry w req (getRetryOptions c) s1))
             = log s ++ EvProvider :: EvRequest req :: l).
  { rewrite Hspec. cbn [snd log s1]. rewrite <- app_assoc.
    eexists. reflexivity. }
  assert (P1 : provider_calls s1 = S (provider_calls s)).
  { unfold provider_calls, s1. cbn [log]. rewrite count_app. cbn. lia. }
  assert (T1 : transport_calls s1 = transport_calls s).
  { unfold transport_calls, s1. cbn [log]. rewrite count_app. cbn. lia. }
  clear Hspec.
  destruct (fetchWithRetry w req (getRetryOptions c) s1) as [[r|t] s2].
  2:{ cbn [fst snd] in *. split; [exact Hlog |].
      split; [now rewrite E1 |]. split; lia. }
  cbn [fst snd] in *. destruct Hlog as [l Hl].
  destruct (resp_status r =? 401) eqn:E401; cbn [negb andb].
  - set (s3 := mkState (Some ""%string) (log s2 ++ [EvProvider])).
    destruct (issue_retry_empty call s3 eq_refl) as ([l3 Hl3] & Hc & Hp & Ht).
    assert (P3 : provider_calls s3 = S (provider_calls s2)).
    { unfold provider_calls, s3. cbn [log]. rewrite count_app. cbn. lia. }
    assert (T3 : transport_calls s3 = transport_calls s2).
    { unfold transport_calls, s3. cbn [log]. rewrite count_app. cbn. lia. }
    split.
    { exists (l ++ EvProvider
                :: EvProvider
                :: EvRequest (request_of c call (headers_with c "")) :: l3).
      rewrite Hl3. unfold s3. cbn [log]. rewrite Hl.
      rewrite <- !app_assoc. reflexivity. }
    split; [exact Hc |]. split; lia.
  - pose proof (conclude_effects call r s2) as (C1 & C2 & C3 & _).
    destruct (conclude_log call r s2) as [l2 Hl2].
    cbv zeta in C1, C2, C3.
    split.
    { exists (l ++ l2). rewrite Hl2, Hl, <- app_assoc. reflexivity. }
    split; [now rewrite C1, E1 |]. split; lia.
Qed.

End EmptyToken.

(** Logical calls made one after the other while the provider resolves
    with the empty string: between one and three provider calls for each,
    and exactly one provider call and one transport call for each when the
    server never answers 401. *)
Lemma issue_each_empty (w : World) (c : VenalabsApiClient) :
  (forall n, tokenProvider c n = Provides "") ->
  forall (calls : list Call) (s : State),
    has_token s = false ->
    let s' := snd (issue_each w c calls s) in
    (provider_calls s + List.length calls <= provider_calls s'
     <= provider_calls s + 3 * List.length calls)%nat
    /\ has_token s' = false
    /\ ((forall n req r, fetch w n req = Responds r -> resp_status r <> 401) ->
        provider_calls s' = (provider_calls s + List.length calls)%nat
        /\ transport_calls s' = (transport_calls s + List.length calls)%nat).
Proof.
  intros Hp calls.
  induction calls as [|call rest IH]; intros s H s'.
  - subst s'. cbn. repeat split; auto; lia.
  - subst s'. cbn [issue_each List.length].
    destruct (issue_empty w c Hp call false s H) as (_ & Hc & P & T).
    assert (Hnever :
      (forall n req r, fetch w n req = Responds r -> resp_status r <> 401) ->
      match fst (fetchWithRetry w (request_of c call (headers_with c ""))
                   (getRetryOptions c)
                   (mkState (Some ""%string) (log s ++ [EvProvider]))) with
      | Resolved r => (resp_status r =? 401) && negb false
      | Rejected _ => false
      end = false).
    { intro H401.
      destruct (fst _) as [r|t] eqn:Er; [| reflexivity].
      apply fetchWithRetry_response_origin in Er as [i Hi].
      specialize (H401 _ _ _ Hi).
      destruct (Z.eqb_spec (resp_status r) 401); [contradiction | reflexivity]. }
    destruct (issue w c call false s) as [out s1]. cbn [snd] in *.
    assert (H1 : has_token s1 = false) by (unfold has_token; now rewrite Hc).
    specialize (IH s1 H1). cbv zeta in IH.
    destruct (issue_each w c rest s1) as [outs s2]. cbn [snd] in *.
    destruct IH as (IB & IH' & IE).
    split.
    { destruct (match fst _ with Resolved _ => _ | Rejected _ => _ end) in P;
        lia. }
    split; [exact IH' |].
    intro H401. rewrite (Hnever H401) in P, T.
    destruct (IE H401) as [IP IT]. split; lia.
Qed.

(** C10, counterexample.  With a provider that always resolves with the
    empty string and a server that answers every request 401, one logical
    call sends two requests and calls the provider three times: before the
    request, for the refresh, and again before the retry; two logical
    calls cost six provider calls.  The provider is not called once per
    request. *)
Lemma empty_token_costs_three_provider_calls_on_401 :
  let c := Scenario.client_with (Scenario.provider_of [] "") in
  let w := Scenario.server_always
             (mkResponse 401 None (Some Scenario.expired_body)) in
  provider_calls (snd (issue w c (CallGet "/maps") false initial)) = 3%nat
  /\ transport_calls (snd (issue w c (CallGet "/maps") false initial)) = 2%nat
  /\ provider_calls
       (snd (issue_each w c [CallGet "/maps"; CallGet "/progress"] initial))
     = 6%nat.
Proof. vm_compute. repeat split. Qed.

(** C10 (amended). When the provider resolves with the empty string, the
    coordinator stores it, yet [getToken] never serves it from the cache:
    with [""] cached, [getToken] and [getHeaders] call the provider again.
    So every logical call starts with a fresh provider call and is still
    sent, under the header [Authorization: Bearer ] with the empty token,
    and leaves [""] in the cache for the next one to find.  A logical call
    costs exactly one provider call and one request when its response is
    not a first 401, and exactly three provider calls and two requests
    when it is (the refresh, and the provider call before the retry):
    calls made one after the other cost between one and three provider
    calls each, and exactly one each when the server never answers 401,
    where a non-empty token would have been fetched once. *)
Theorem empty_token_is_fetched_for_every_request :
  forall (w : World) (c : VenalabsApiClient),
    (forall n, tokenProvider c n = Provides "") ->
    (forall s,
       refreshToken c s
       = (Resolved ""%string, mkState (Some ""%string) (log s ++ [EvProvider])))
    /\ (forall s, cachedToken s = Some ""%string ->
          getToken c s
          = (Resolved ""%string,
             mkState (Some ""%string) (log s ++ [EvProvider])))
    /\ (forall s, cachedToken s = Some ""%string ->
          getHeaders c s
          = (Resolved (mkHeaders "application/json" (apiKey c) "Bearer "),
             mkState (Some ""%string) (log s ++ [EvProvider])))
    /\ (forall call isRetry s, cachedToken s = Some ""%string ->
          let req := request_of c call
                       (mkHeaders "application/json" (apiKey c) "Bearer ") in
          let s' := snd (issue w c call isRetry s) in
          let refreshed :=
            match fst (fetchWithRetry w req (getRetryOptions c)
                         (mkState (Some ""%string) (log s ++ [EvProvider])))
            with
            | Resolved r => (resp_status r =? 401) && negb isRetry
            | Rejected _ => false
            end in
          (exists rest, log s' = log s ++ EvProvider :: EvRequest req :: rest)
          /\ cachedToken s' = Some ""%string
          /\ provider_calls s'
             = (provider_calls s + if refreshed then 3 else 1)%nat
          /\ transport_calls s'
             = (transport_calls s + if refreshed then 2 else 1)%nat)
    /\ (forall calls s, cachedToken s = Some ""%string ->
          let s' := snd (issue_each w c calls s) in
          (provider_calls s + List.length calls <= provider_calls s'
           <= provider_calls s + 3 * List.length calls)%nat
          /\ ((forall n req r,
                 fetch w n req = Responds r -> resp_status r <> 401) ->
              provider_calls s' = (provider_calls s + List.length calls)%nat
              /\ transport_calls s'
                 = (transport_calls s + List.length calls)%nat)).
Proof.
  intros w c Hp.
  assert (Hno : forall s,
             cachedToken s = Some ""%string -> has_token s = false).
  { intros s H. unfold has_token. now rewrite H. }
  split; [apply refreshToken_empty, Hp |].
  split.
  { intros s H. rewrite (getToken_uncached c s (Hno s H)).
    apply refreshToken_empty, Hp. }
  split.
  { intros s H. exact (getHeaders_empty c Hp s (Hno s H)). }
  split.
  { intros call isRetry s H.
    exact (issue_empty w c Hp call isRetry s (Hno s H)). }
  intros calls s H s'.
  destruct (issue_each_empty w c Hp calls s (Hno s H)) as (B & _ & E).
  split; [exact B | exact E].
Qed.

Lemma empty_token_is_fetched_for_every_request_witness :
  let c := Scenario.client_with (Scenario.provider_of [] "") in
  let w := Scenario.server_always (mkResponse 200 None (Some Scenario.maps)) in
  let s := mkState (Some ""%string) [EvProvider] in
  provider_calls
    (snd (issue_each w c [CallGet "/maps"; CallGet "/progress";
                          CallPost "/wallet/stellar/link" None] s))
  = 4%nat
  /\ authorization (req_headers (request_of c (CallGet "/maps")
                                   (mkHeaders "application/json" (apiKey c)
                                              "Bearer ")))
     = "Bearer "%string.
Proof.
  intros c w s.
  assert (Hp : forall n, tokenProvider c n = Provides "").
  { intro n. unfold c, Scenario.client_with, Scenario.provider_of.
    cbn [tokenProvider]. destruct n as [|[|n]]; reflexivity. }
  assert (H401 : forall n req r,
             fetch w n req = Responds r -> resp_status r <> 401).
  { intros n req r [= <-]. discriminate. }
  split; [| reflexivity].
  exact (proj1 (proj2 (proj2 (proj2 (proj2 (proj2
            (empty_token_is_fetched_for_every_request w c Hp))))
            [CallGet "/maps"; CallGet "/progress";
             CallPost "/wallet/stellar/link" None] s eq_refl) H401)).
Defined.

(** ** Token coordinator: overlapping callers *)

Section OverlappingCallers.

Import Coordinator.

Variable provider : Provider.

Lemma consistent_initial : consistent initial.
Proof. split; [intros k o [] | reflexivity]. Qed.

Lemma refreshToken_consistent (s : State) :
  consistent s -> cached s = false ->
  consistent (fst (refreshToken provider s)).
Proof.
  intros [Hk Hs] Hc. unfold refreshToken.
  destruct (tokenPromise s) as [call|] eqn:E; cbn [fst].
  - split; [exact Hk | now rewrite E].
  - destruct (provider (providerCalls s)) as [t|]; cbn [fst].
    + split; cbn [tokenPromise providerCalls settled List.length].
      * intros k o [[= <- <-] | Hin]; [lia |]. apply Hk in Hin. lia.
      * lia.
    + split; [exact Hk |]. cbn [tokenPromise providerCalls settled].
      repeat split; auto.
Qed.

Lemma getToken_consistent (s : State) :
  consistent s -> consistent (fst (getToken provider s)).
Proof.
  intro H. unfold getToken.
  destruct (cachedToken s) as [token|] eqn:E.
  - destruct (truthy token) eqn:Et; [exact H |].
    apply refreshToken_consistent; [exact H |].
    unfold cached. now rewrite E.
  - apply refreshToken_consistent; [exact H |].
    unfold cached. now rewrite E.
Qed.

Lemma clearToken_consistent (s : State) :
  consistent s -> consistent (clearToken s) /\ cached (clearToken s) = false.
Proof.
  intros [Hk Hs]. split; [|reflexivity].
  split; [exact Hk |]. cbn [clearToken tokenPromise providerCalls settled].
  destruct (tokenPromise s); [|exact Hs].
  destruct Hs as (H1 & H2 & _). repeat split; auto.
Qed.

Lemma settle_consistent (o : ProviderOutcome) (s : State) :
  consistent s -> consistent (settle o s).
Proof.
  intros [Hk Hs]. unfold settle.
  destruct (tokenPromise s) as [call|] eqn:E;
    [| split; [exact Hk | now rewrite E]].
  destruct Hs as (H1 & H2 & _).
  assert (Hkeys : forall k o', In (k, o') ((call, o) :: settled s) ->
                    (k < S (List.length (settled s)))%nat).
  { intros k o' [[= <- <-] | Hin]; [lia |]. apply Hk in Hin. lia. }
  destruct o; (split; [exact Hkeys |]); cbn; lia.
Qed.

Lemma step_consistent (s : State) (a : Action) :
  consistent s -> consistent (step provider s a).
Proof.
  intro H. destruct a as [| | o]; cbn [step].
  - now apply getToken_consistent.
  - destruct (clearToken_consistent s H) as [Hc Hn].
    now apply refreshToken_consistent.
  - now apply settle_consistent.
Qed.

Lemma exec_consistent (history : list Action) (s : State) :
  consistent s -> consistent (exec provider history s).
Proof.
  revert s. induction history as [|a rest IH]; intros s H; [exact H |].
  cbn. apply IH. now apply step_consistent.
Qed.

Lemma consistent_outstanding (s : State) :
  consistent s ->
  outstanding s = match tokenPromise s with Some _ => 1%nat | None => O end.
Proof.
  intros [_ Hs]. unfold outstanding.
  destruct (tokenPromise s); [destruct Hs as (H1 & H2 & _) |]; lia.
Qed.

(** A caller that arrives while a refresh is in flight joins it. *)
Lemma getTokens_join (n : nat) (s : State) (call : nat) :
  tokenPromise s = Some call -> cached s = false ->
  getTokens provider n s = (s, repeat (Awaits call) n).
Proof.
  intros Hp Hc. induction n as [|n IH]; [reflexivity |].
  cbn [getTokens repeat].
  assert (Hg : getToken provider s = (s, Awaits call)).
  { unfold getToken, cached in *.
    destruct (cachedToken s) as [token|].
    - rewrite Hc. unfold refreshToken. now rewrite Hp.
    - unfold refreshToken. now rewrite Hp. }
  now rewrite Hg, IH.
Qed.

(** The first caller without a cached credential joins the refresh in
    flight, or starts one when the provider returns its promise. *)
Lemma getToken_starts_or_joins (s : State) :
  cached s = false ->
  (tokenPromise s = None -> provider (providerCalls s) = None) ->
  exists call,
    getToken provider s
    = (mkState (cachedToken s) (Some call)
         (providerCalls s
          + match tokenPromise s with Some _ => 0 | None => 1 end)%nat
         (settled s),
       Awaits call)
    /\ call = match tokenPromise s with
              | Some call' => call'
              | None => providerCalls s
              end.
Proof.
  intros Hc Hpromise.
  assert (Hg : getToken provider s = refreshToken provider s).
  { unfold getToken, cached in *.
    destruct (cachedToken s); [now rewrite Hc | reflexivity]. }
  rewrite Hg. unfold refreshToken.
  destruct (tokenPromise s) as [call|] eqn:E.
  - exists call. split; [| reflexivity].
    rewrite Nat.add_0_r. destruct s; cbn in *. now rewrite E.
  - rewrite (Hpromise eq_refl).
    exists (providerCalls s). split; [| reflexivity].
    now rewrite Nat.add_1_r.
Qed.

Lemma lookup_fresh (call : nat) (l : list (nat * ProviderOutcome)) :
  (forall k o, In (k, o) l -> (k < call)%nat) -> lookup call l = None.
Proof.
  induction l as [|[k o] l IH]; intro H; [reflexivity |].
  cbn. destruct (Nat.eqb_spec k call) as [-> | _].
  - specialize (H call o (or_introl eq_refl)). lia.
  - apply IH. intros k' o' Hin. apply (H k' o'). now right.
Qed.

End OverlappingCallers.

Section SharedRefresh.

Import Coordinator.

(** C2, counterexample.  A provider that throws when it is called, before
    any promise exists, leaves [tokenPromise] unset: each of three
    overlapping calls of [getToken()] then invokes it again.  The provider
    is called three times, once per caller, and every caller is rejected
    with the error of its own call. *)
Lemma throwing_provider_is_called_by_every_caller :
  let provider : Provider := fun _ => Some (JsError "Error" "no session") in
  let s1 := fst (getTokens provider 3 initial) in
  let handles := snd (getTokens provider 3 initial) in
  cached initial = false
  /\ providerCalls s1 = 3%nat
  /\ handles = [Awaits 0; Awaits 1; Awaits 2]
  /\ (forall h, In h handles ->
        result s1 h = Some (Rejected (JsError "Error" "no session")))
  /\ outstanding s1 = O.
Proof.
  cbv zeta. split; [reflexivity |]. split; [reflexivity |].
  split; [reflexivity |]. split; [| reflexivity].
  intros h [<- | [<- | [<- | []]]]; reflexivity.
Qed.

(** C2 (amended). On one client instance, in any state it can reach in
    which no credential is cached (whether or not a refresh is already in
    flight), and with a provider that returns its promise when it is
    called (it may reject later, but does not throw on the spot), [N >= 1]
    calls of [getToken()] made before the provider settles are all served
    by one provider call: the calls together invoke the provider once, or
    not at all when they join a refresh in flight; their promises all wait
    for that call, and when it settles they all resolve with its token, or
    all reject with its error.  In every state the client can reach,
    whatever the provider does, at most one provider call is
    outstanding. *)
Theorem concurrent_getToken_calls_share_one_provider_call :
  forall (provider : Provider) (history : list Action) (N : nat)
         (o : ProviderOutcome),
    let s := exec provider history initial in
    cached s = false ->
    (1 <= N)%nat ->
    (tokenPromise s = None -> provider (providerCalls s) = None) ->
    let s1 := fst (getTokens provider N s) in
    let handles := snd (getTokens provider N s) in
    let s2 := settle o s1 in
    (exists call,
       handles = repeat (Awaits call) N
       /\ tokenPromise s1 = Some call
       /\ providerCalls s1
          = (providerCalls s
             + match tokenPromise s with Some _ => 0 | None => 1 end)%nat
       /\ outstanding s1 = 1%nat)
    /\ (forall h, In h handles -> result s1 h = None)
    /\ (forall h, In h handles -> result s2 h = Some (delivered o))
    /\ providerCalls s2 = providerCalls s1
    /\ outstanding s2 = O
    /\ (forall (any_provider : Provider) (any : list Action),
          (outstanding (exec any_provider any initial) <= 1)%nat).
Proof.
  intros provider history N o s Hc HN Hpromise s1 handles s2.
  assert (Hcons : consistent s)
    by (apply exec_consistent, consistent_initial).
  destruct N as [|n]; [lia |].
  destruct (getToken_starts_or_joins provider s Hc Hpromise)
    as (call & Hg & Hcall).
  set (sa := mkState (cachedToken s) (Some call)
               (providerCalls s
                + match tokenPromise s with Some _ => 0 | None => 1 end)%nat
               (settled s)) in *.
  assert (Hrun : getTokens provider (S n) s
                 = (sa, repeat (Awaits call) (S n))).
  { cbn [getTokens repeat]. rewrite Hg.
    rewrite (getTokens_join provider n sa call eq_refl Hc). reflexivity. }
  assert (Hsa : consistent sa).
  { replace sa with (fst (getToken provider s)) by now rewrite Hg.
    now apply getToken_consistent. }
  subst s2 handles s1. rewrite Hrun. cbn [fst snd].
  assert (Hin : forall h, In h (repeat (Awaits call) (S n)) -> h = Awaits call).
  { intros h Hh. now apply repeat_spec in Hh. }
  destruct Hsa as [Hk Hs]. cbn [tokenPromise] in Hs.
  destruct Hs as (Hp1 & Hp2 & _).
  split.
  { exists call. repeat split; auto.
    unfold outstanding. lia. }
  split.
  { intros h Hh. rewrite (Hin h Hh). cbn [result].
    rewrite lookup_fresh; [reflexivity |].
    intros k o' Hko. specialize (Hk k o' Hko). lia. }
  split.
  { intros h Hh. rewrite (Hin h Hh). unfold settle. cbn [tokenPromise sa].
    destruct o; cbn [result settled lookup]; now rewrite Nat.eqb_refl. }
  split.
  { unfold settle. cbn [tokenPromise sa]. destruct o; reflexivity. }
  split.
  { unfold settle, outstanding. cbn [tokenPromise sa].
    destruct o; cbn [providerCalls settled List.length]; lia. }
  intros any_provider any.
  rewrite (consistent_outstanding _
             (exec_consistent any_provider any initial consistent_initial)).
  destruct (tokenPromise (exec any_provider any initial)); lia.
Qed.

Lemma concurrent_getToken_calls_share_one_provider_call_witness :
  let s1 := fst (getTokens returns_promise 3
                   (exec returns_promise [] initial)) in
  let handles := snd (getTokens returns_promise 3
                        (exec returns_promise [] initial)) in
  providerCalls s1 = 1%nat
  /\ handles = [Awaits O; Awaits O; Awaits O]
  /\ (forall h, In h handles ->
        result (settle (Provides "valid-token") s1) h
        = Some (Resolved "valid-token"%string))
  /\ (forall h, In h handles ->
        result (settle (Fails (JsError "Error" "no session")) s1) h
        = Some (Rejected (JsError "Error" "no session"))).
Proof.
  intros s1 handles.
  pose proof (concurrent_getToken_calls_share_one_provider_call
                returns_promise [] 3 (Provides "valid-token") eq_refl
                ltac:(lia) (fun _ => eq_refl)) as Hok.
  pose proof (concurrent_getToken_calls_share_one_provider_call
                returns_promise [] 3 (Fails (JsError "Error" "no session"))
                eq_refl ltac:(lia) (fun _ => eq_refl)) as Hko.
  cbv zeta in Hok, Hko.
  destruct Hok as ((call & Hh & _ & Hp & _) & _ & Hres & _).
  destruct Hko as (_ & _ & Hrej & _).
  split; [exact Hp |].
  split; [reflexivity |].
  split; [exact Hres | exact Hrej].
Defined.

End SharedRefresh.

(** ** The two models agree

    A single logical flow awaits each refresh it starts before doing
    anything else: in the coordinator this is a call of [getToken()]
    followed by the settlement of the provider call, if that call returned
    a promise.  The sequential [getToken] of the client model, where a
    provider that fails stands for one that throws on the spot as well as
    for one whose promise is rejected, gives the same result and leaves
    the same token fields. *)
Lemma sequential_getToken_agrees (c : VenalabsApiClient) (s : State)
    (provider : Coordinator.Provider) (cs : Coordinator.State) :
  Coordinator.cachedToken cs = cachedToken s ->
  Coordinator.tokenPromise cs = None ->
  Coordinator.providerCalls cs = provider_calls s ->
  (forall t, provider (provider_calls s) = Some t ->
             tokenProvider c (provider_calls s) = Fails t) ->
  let cs1 := fst (Coordinator.getToken provider cs) in
  let h := snd (Coordinator.getToken provider cs) in
  let cs2 := Coordinator.settle (tokenProvider c (provider_calls s)) cs1 in
  let out := fst (getToken c s) in
  let s' := snd (getToken c s) in
  Coordinator.result cs2 h = Some out
  /\ Coordinator.cachedToken cs2 = cachedToken s'
  /\ Coordinator.tokenPromise cs2 = None
  /\ (has_token s = false ->
      Coordinator.providerCalls cs2 = provider_calls s').
Proof.
  intros Hc Hp Hn Hthrows.
  unfold Coordinator.getToken, getToken. rewrite Hc.
  assert (Hfresh :
    let cs1 := fst (Coordinator.refreshToken provider cs) in
    let h := snd (Coordinator.refreshToken provider cs) in
    let cs2 := Coordinator.settle (tokenProvider c (provider_calls s)) cs1 in
    Coordinator.result cs2 h = Some (fst (refreshToken c s))
    /\ Coordinator.cachedToken cs2 = cachedToken (snd (refreshToken c s))
    /\ Coordinator.tokenPromise cs2 = None
    /\ Coordinator.providerCalls cs2 = provider_calls (snd (refreshToken c s))).
  { unfold Coordinator.refreshToken. rewrite Hp, Hn.
    rewrite refreshToken_run. unfold Coordinator.settle.
    assert (Hcount : forall tok,
              provider_calls (mkState tok (log s ++ [EvProvider]))
              = S (provider_calls s)).
    { intro tok. unfold provider_calls. cbn [log]. rewrite count_app.
      cbn. lia. }
    destruct (provider (provider_calls s)) as [t|] eqn:Ethrows.
    - rewrite (Hthrows t eq_refl).
      cbn [fst snd Coordinator.result Coordinator.settled Coordinator.lookup
           Coordinator.cachedToken Coordinator.tokenPromise
           Coordinator.providerCalls cachedToken].
      rewrite Nat.eqb_refl, Hcount. cbn. auto.
    - cbn [fst snd Coordinator.tokenPromise].
      destruct (tokenProvider c (provider_calls s)) as [token | t];
        cbn [fst snd Coordinator.result Coordinator.settled Coordinator.lookup
             Coordinator.cachedToken Coordinator.tokenPromise
             Coordinator.providerCalls cachedToken];
        rewrite Nat.eqb_refl, Hcount; cbn; auto. }
  destruct (cachedToken s) as [token|] eqn:E.
  - destruct (truthy token) eqn:Et.
    + cbn [fst snd]. unfold Coordinator.settle. rewrite Hp.
      unfold ret. cbn [fst snd Coordinator.result].
      split; [reflexivity |]. split; [now rewrite Hc, E |].
      split; [exact Hp |].
      unfold has_token. rewrite E, Et. discriminate.
    + destruct Hfresh as (H1 & H2 & H3 & H4). auto.
  - destruct Hfresh as (H1 & H2 & H3 & H4). auto.
Qed.

(** * Further properties of the client's code *)

(** ** Taxonomy and transport agree *)

(** X1. The error built from a response is retryable exactly when the
    transport primitive would retry the status (500 and above, or 429),
    and is an authentication error exactly for the statuses 401 and 403;
    no error is both. *)
Theorem taxonomy_agrees_with_transport :
  forall (st : Z) (body : option ErrorBody),
    isRetryable (fromResponse st body) = isRetryableStatus st
    /\ isAuthError (fromResponse st body) = (st =? 401) || (st =? 403)
    /\ isRetryable (fromResponse st body) && isAuthError (fromResponse st body)
       = false.
Proof.
  intros st body. unfold fromResponse, isRetryableStatus.
  destruct (st =? 401) eqn:E1.
  { apply Z.eqb_eq in E1. subst st.
    destruct (is_token_expired body); repeat split; reflexivity. }
  destruct (st =? 403) eqn:E3.
  { apply Z.eqb_eq in E3. subst st. repeat split; reflexivity. }
  destruct (st =? 404) eqn:E4.
  { apply Z.eqb_eq in E4. subst st. repeat split; reflexivity. }
  destruct (st =? 429) eqn:E9.
  { apply Z.eqb_eq in E9. subst st. repeat split; reflexivity. }
  destruct (st >=? 500) eqn:E5; repeat split; reflexivity.
Qed.

(** The budget is empty exactly when [retries] is [undefined] or
    [retries + 1] is not positive. *)
Lemma iterations_none (retries : Given Q) :
  iterations retries = O
  <-> retries = Undefined
      \/ exists r, retries = Num r /\ (r + 1 <= 0)%Q.
Proof.
  destruct retries as [|r]; cbn [iterations].
  - split; [now left | reflexivity].
  - pose proof (guard_holds (r + 1)) as Hg. split.
    + intro H. right. exists r. split; [reflexivity |].
      apply Qnot_lt_le. intro Hlt. apply Hg in Hlt. lia.
    + intros [H | (r' & [= <-] & Hle)]; [discriminate |].
      destruct (Z.to_nat (Qceiling (r + 1))) as [|m]; [reflexivity |].
      exfalso. apply (Qlt_not_le 0 (r + 1)); [apply Hg; lia | exact Hle].
Qed.



(** X3. When [retries + 1] is not positive, or the [retries] property is
    present but [undefined], the loop body never runs: no [fetch] is made,
    nothing is waited for, and the call is rejected with the plain error
    "Unknown fetch error".  Whenever [retries + 1] is positive, also for a
    negative fraction such as -0.5, at least one [fetch] is made. *)
Theorem fetchWithRetry_without_budget :
  forall (w : World) (req : Request) (o : FetchWithRetryOptions) (s : State),
    (retries o = Some Undefined
     \/ (exists r, retries o = Some (Num r) /\ (r + 1 <= 0)%Q) ->
     fetchWithRetry w req o s
     = (Rejected (JsError "Error" "Unknown fetch error"),
        mkState (cachedToken s) (log s ++ [EvRequest req])))
    /\ (forall r, retries o = Some (Num r) -> (0 < r + 1)%Q ->
          (fetch_calls s < fetch_calls (snd (fetchWithRetry w req o s)))%nat).
Proof.
  intros w req o s. split.
  - intro H. rewrite fetchWithRetry_spec.
    assert (Hn : iterations (spread DEFAULT_retries (retries o)) = O).
    { apply iterations_none.
      destruct H as [-> | (r & -> & Hr)]; [now left |].
      right. exists r. auto. }
    rewrite Hn. reflexivity.
  - intros r Hr Hpos.
    pose proof (fetchWithRetry_effects w req o s) as (_ & _ & _ & _ & _ & Hf).
    cbv zeta in Hf. rewrite Hf, Hr. cbn [spread iterations].
    apply guard_holds in Hpos.
    destruct (Z.to_nat (Qceiling (r + 1))) as [|m]; [lia |].
    destruct (attempts_made_pos m
                (fun i => transient (fetch w (fetch_calls s + i)%nat req)))
      as [j Hj].
    rewrite Hj. lia.
Qed.

Lemma fetchWithRetry_without_budget_witness :
  let w := Scenario.server_always (Scenario.status_only 200) in
  let req := Scenario.request_maps "t" in
  fetch_calls
    (snd (fetchWithRetry w req (mkOptions (Some (Num (-1 # 1))) None None)
            initial))
  = O
  /\ (0 < fetch_calls
            (snd (fetchWithRetry w req
                    (mkOptions (Some (Num (-1 # 2))) None None) initial)))%nat.
Proof.
  intros w req. split.
  - rewrite (proj1 (fetchWithRetry_without_budget w req
                      (mkOptions (Some (Num (-1 # 1))) None None) initial)).
    + reflexivity.
    + right. exists (-1 # 1). split; [reflexivity | discriminate].
  - apply (proj2 (fetchWithRetry_without_budget w req
                    (mkOptions (Some (Num (-1 # 2))) None None) initial)
             (-1 # 2) eq_refl).
    reflexivity.
Defined.

(** ** Construction *)

(** X4. The constructor fails fast: with an empty [apiKey] it throws
    "apiKey is required" (whatever else the configuration holds), with an
    [apiKey] and no provider it throws "getAccessToken is required", and
    otherwise it succeeds.  The instance keeps the key and the provider;
    its timeout is never 0 (a missing or zero timeout becomes 30000); a
    missing or empty base URL becomes the default one. *)
Theorem constructor_fails_fast :
  forall config : VenalabsApiClientConfig,
    (cfg_apiKey config = ""%string ->
       constructor config = inl (JsError "Error" "apiKey is required"))
    /\ (cfg_apiKey config <> ""%string ->
        cfg_getAccessToken config = None ->
        constructor config = inl (JsError "Error" "getAccessToken is required"))
    /\ (forall client, constructor config = inr client ->
          apiKey client = cfg_apiKey config
          /\ apiKey client <> ""%string
          /\ cfg_getAccessToken config = Some (tokenProvider client)
          /\ Client.timeout client <> 0
          /\ (cfg_timeout config = None \/ cfg_timeout config = Some 0 ->
                Client.timeout client = 30000)
          /\ (cfg_baseUrl config = None \/ cfg_baseUrl config = Some ""%string ->
                baseUrl client = "https://api.venalabs.com"%string))
    /\ (cfg_apiKey config <> ""%string ->
        cfg_getAccessToken config <> None ->
        exists client, constructor config = inr client).
Proof.
  intros [key provider url tmo]; cbn [cfg_apiKey cfg_getAccessToken
                                       cfg_baseUrl cfg_timeout].
  unfold constructor; cbn [cfg_apiKey cfg_getAccessToken cfg_baseUrl
                             cfg_timeout].
  split; [intros ->; reflexivity |].
  split.
  { intros Hk ->. destruct key; [congruence | reflexivity]. }
  split.
  { intros client. destruct key as [|a key]; [discriminate |].
    cbn [truthy negb]. destruct provider as [p|]; [| discriminate].
    intros [= <-]. cbn [apiKey tokenProvider Client.timeout baseUrl].
    split; [reflexivity |]. split; [discriminate |].
    split; [reflexivity |].
    split.
    { unfold timeout_or_default, DEFAULT_TIMEOUT.
      destruct tmo as [t|]; [| discriminate].
      destruct (t =? 0) eqn:E; [discriminate | lia]. }
    split.
    { intros [-> | ->]; reflexivity. }
    intros [-> | ->]; reflexivity. }
  intros Hk Hp. destruct key; [congruence |].
  destruct provider; [| congruence]. eexists. reflexivity.
Qed.

Lemma constructor_fails_fast_witness :
  constructor (mkConfig "" None None None)
  = inl (JsError "Error" "apiKey is required")
  /\ constructor (mkConfig "k" None None None)
     = inl (JsError "Error" "getAccessToken is required").
Proof.
  split.
  - exact (proj1 (constructor_fails_fast (mkConfig "" None None None))
             eq_refl).
  - refine (proj1 (proj2 (constructor_fails_fast
                            (mkConfig "k" None None None))) _ eq_refl).
    discriminate.
Defined.

Lemma strip_trailing_slash_app (b : string) :
  strip_trailing_slash (b ++ "/") = b.
Proof.
  induction b as [|a b IH]; [reflexivity |].
  cbn [String.append strip_trailing_slash].
  destruct (b ++ "/")%string as [|a' rest] eqn:E.
  - destruct b; discriminate.
  - now rewrite IH.
Qed.

(** X5. A base URL given with one trailing slash and the same URL given
    without it construct the same client, so every request URL is the
    same. *)
Theorem constructor_ignores_one_trailing_slash :
  forall (key : string) (provider : option TokenProvider) (tmo : option Z)
         (url : string),
    url <> ""%string ->
    strip_trailing_slash url = url ->
    constructor (mkConfig key provider (Some (url ++ "/")%string) tmo)
    = constructor (mkConfig key provider (Some url) tmo).
Proof.
  intros key provider tmo url Hne Hno. unfold constructor.
  cbn [cfg_apiKey cfg_getAccessToken cfg_baseUrl cfg_timeout].
  destruct (negb (truthy key)); [reflexivity |].
  destruct provider; [| reflexivity].
  rewrite (or_default_nonempty url _ Hne).
  rewrite or_default_nonempty by (destruct url; discriminate).
  now rewrite strip_trailing_slash_app, Hno.
Qed.

Lemma constructor_ignores_one_trailing_slash_witness :
  constructor (mkConfig "k" (Some (Scenario.provider_of [] "t"))
                 (Some "https://sdk.test/"%string) None)
  = constructor (mkConfig "k" (Some (Scenario.provider_of [] "t"))
                   (Some "https://sdk.test"%string) None).
Proof.
  exact (constructor_ignores_one_trailing_slash "k"
           (Some (Scenario.provider_of [] "t")) None "https://sdk.test"
           ltac:(discriminate) eq_refl).
Defined.

(** ** What a logical call does to the client *)

Lemma getToken_resolved (c : VenalabsApiClient) (s s1 : State)
    (token : string) :
  getToken c s = (Resolved token, s1) -> cachedToken s1 = Some token.
Proof.
  unfold getToken.
  assert (Hr : refreshToken c s = (Resolved token, s1) ->
               cachedToken s1 = Some token).
  { rewrite refreshToken_run.
    destruct (tokenProvider c (provider_calls s)); intros [= <- <-];
      reflexivity. }
  destruct (cachedToken s) as [tok|] eqn:E; [| exact Hr].
  destruct (truthy tok); [| exact Hr].
  unfold ret. intros [= <- <-]. exact E.
Qed.

Lemma getHeaders_resolved (c : VenalabsApiClient) (s s1 : State)
    (h : Headers) :
  getHeaders c s = (Resolved h, s1) ->
  exists token, h = headers_with c token /\ cachedToken s1 = Some token.
Proof.
  unfold getHeaders, bind.
  destruct (getToken c s) as [[token|t] s0] eqn:E; [| discriminate].
  unfold ret. intros [= <- <-]. exists token.
  split; [reflexivity | exact (getToken_resolved c s s0 token E)].
Qed.

Lemma conclude_state (call : Call) (r : Response) (s : State) :
  snd (conclude call r s) = s
  \/ snd (conclude call r s) = mkState (cachedToken s) (log s ++ [EvJson]).
Proof.
  unfold conclude.
  destruct (negb (ok r)).
  - right. unfold bind, try_catch, json, emit, ret, throw.
    destruct (resp_json r); reflexivity.
  - destruct call as [e | e b].
    + right. unfold bind, json, emit, ret, throw.
      destruct (resp_json r); reflexivity.
    + destruct (is_empty_response r); [left; reflexivity |].
      right. unfold bind, json, emit, ret, throw.
      destruct (resp_json r); reflexivity.
Qed.

Lemma conclude_json (call : Call) (r : Response) (s : State) :
  (json_calls (snd (conclude call r s)) <= S (json_calls s))%nat.
Proof.
  destruct (conclude_state call r s) as [-> | ->]; [lia |].
  unfold json_calls. cbn [log]. rewrite count_app. cbn. lia.
Qed.

(** The counters after appending one provider call. *)
Lemma after_provider (tok : option string) (s : State) :
  let s' := mkState tok (log s ++ [EvProvider]) in
  provider_calls s' = S (provider_calls s)
  /\ transport_calls s' = transport_calls s
  /\ fetch_calls s' = fetch_calls s
  /\ json_calls s' = json_calls s
  /\ requests s' = requests s.
Proof.
  unfold provider_calls, transport_calls, fetch_calls, json_calls, requests.
  cbn [log]. rewrite !count_app, filter_app. cbn. rewrite app_nil_r.
  repeat split; lia.
Qed.

Lemma fetchWithRetry_client_fetches (w : World) (c : VenalabsApiClient)
    (req : Request) (s : State) :
  (fetch_calls (snd (fetchWithRetry w req (getRetryOptions c) s))
   <= fetch_calls s + 2)%nat.
Proof.
  pose proof (fetchWithRetry_effects w req (getRetryOptions c) s)
    as (_ & _ & _ & _ & _ & Hf).
  cbv zeta in Hf. rewrite Hf.
  pose proof (attempts_made_bound
                (iterations (spread DEFAULT_retries (retries (getRetryOptions c))))
                (fun i => transient (fetch w (fetch_calls s + i)%nat req))).
  change (iterations (spread DEFAULT_retries (retries (getRetryOptions c))))
    with 2%nat in *.
  lia.
Qed.

(** One pass through a helper with [isRetry = true]. *)
Lemma issue_retry_effects (w : World) (c : VenalabsApiClient) (call : Call)
    (s : State) :
  let s' := snd (issue w c call true s) in
  (provider_calls s' <= provider_calls s + 1)%nat
  /\ (transport_calls s' <= transport_calls s + 1)%nat
  /\ (fetch_calls s' <= fetch_calls s + 2)%nat
  /\ (json_calls s' <= json_calls s + 1)%nat
  /\ exists tokens,
       (List.length tokens <= 1)%nat
       /\ requests s'
          = requests s
            ++ map (fun token =>
                      EvRequest (request_of c call (headers_with c token)))
                   tokens.
Proof.
  intro s'. subst s'.
  pose proof (issue_step w c call true s) as Heq. unfold bind at 1 in Heq.
  pose proof (getHeaders_effects c s) as (G1 & G2 & G3 & G4 & G5).
  destruct (getHeaders c s) as [[h|t] s1] eqn:EH; cbn [snd] in *.
  2:{ rewrite Heq. cbn [snd].
      split; [destruct (has_token s); lia |].
      split; [lia |]. split; [lia |]. split; [lia |].
      exists []. cbn. split; [lia | now rewrite app_nil_r]. }
  destruct (getHeaders_resolved c s s1 h EH) as (token & -> & _).
  unfold bind at 1 in Heq.
  pose proof (fetchWithRetry_effects w
                (request_of c call (headers_with c token))
                (getRetryOptions c) s1) as (_ & F2 & F3 & F4 & F5 & _).
  pose proof (fetchWithRetry_client_fetches w c
                (request_of c call (headers_with c token)) s1) as F6.
  destruct (fetchWithRetry w (request_of c call (headers_with c token))
              (getRetryOptions c) s1) as [[r|t] s2]; cbn [snd] in *.
  - rewrite andb_false_r in Heq. rewrite Heq.
    pose proof (conclude_effects call r s2) as (_ & C2 & C3 & C4 & C5).
    pose proof (conclude_json call r s2) as C6.
    cbv zeta in C2, C3, C4, C5.
    split; [destruct (has_token s); lia |].
    split; [lia |]. split; [lia |]. split; [lia |].
    exists [token]. split; [cbn; lia |].
    unfold requests in *. rewrite C5, F5, G5. reflexivity.
  - rewrite Heq. cbn [snd].
    split; [destruct (has_token s); lia |].
    split; [lia |]. split; [lia |]. split; [lia |].
    exists [token]. split; [cbn; lia |].
    unfold requests in *. rewrite F5, G5. reflexivity.
Qed.

Lemma issue_effects (w : World) (c : VenalabsApiClient) (call : Call)
    (isRetry : bool) (s : State) :
  let s' := snd (issue w c call isRetry s) in
  (provider_calls s' <= provider_calls s + 3)%nat
  /\ (transport_calls s' <= transport_calls s + 2)%nat
  /\ (fetch_calls s' <= fetch_calls s + 4)%nat
  /\ (json_calls s' <= json_calls s + 1)%nat
  /\ exists tokens,
       (List.length tokens <= 2)%nat
       /\ requests s'
          = requests s
            ++ map (fun token =>
                      EvRequest (request_of c call (headers_with c token)))
                   tokens.
Proof.
  intro s'. subst s'. destruct isRetry.
  { destruct (issue_retry_effects w c call s) as (P & T & F & J & toks & L & R).
    cbv zeta in P, T, F, J, R.
    split; [lia |]. split; [lia |]. split; [lia |]. split; [lia |].
    exists toks. split; [lia | exact R]. }
  pose proof (issue_step w c call false s) as Heq. unfold bind at 1 in Heq.
  pose proof (getHeaders_effects c s) as (G1 & G2 & G3 & G4 & G5).
  destruct (getHeaders c s) as [[h|t] s1] eqn:EH; cbn [snd] in *.
  2:{ rewrite Heq. cbn [snd].
      split; [destruct (has_token s); lia |].
      split; [lia |]. split; [lia |]. split; [lia |].
      exists []. cbn. split; [lia | now rewrite app_nil_r]. }
  destruct (getHeaders_resolved c s s1 h EH) as (token & -> & _).
  unfold bind at 1 in Heq.
  pose proof (fetchWithRetry_effects w
                (request_of c call (headers_with c token))
                (getRetryOptions c) s1) as (_ & F2 & F3 & F4 & F5 & _).
  pose proof (fetchWithRetry_client_fetches w c
                (request_of c call (headers_with c token)) s1) as F6.
  destruct (fetchWithRetry w (request_of c call (headers_with c token))
              (getRetryOptions c) s1) as [[r|t] s2]; cbn [snd] in *.
  2:{ rewrite Heq. cbn [snd].
      split; [destruct (has_token s); lia |].
      split; [lia |]. split; [lia |]. split; [lia |].
      exists [token]. split; [cbn; lia |].
      unfold requests in *. rewrite F5, G5. reflexivity. }
  destruct ((resp_status r =? 401) && negb false).
  - unfold bind at 1 in Heq. unfold clearToken, set_cachedToken in Heq.
    unfold bind at 1 in Heq. rewrite refreshToken_run in Heq.
    cbn [log cachedToken] in Heq.
    change (provider_calls (mkState None (log s2)))
      with (provider_calls s2) in Heq.
    destruct (tokenProvider c (provider_calls s2)) as [token2 | t].
    + pose proof (after_provider (Some token2) s2) as (A1 & A2 & A3 & A4 & A5).
      cbv zeta in A1, A2, A3, A4, A5.
      destruct (issue_retry_effects w c call
                  (mkState (Some token2) (log s2 ++ [EvProvider])))
        as (P & T & F & J & toks & L & R).
      cbv zeta in P, T, F, J, R. rewrite Heq.
      split; [destruct (has_token s); lia |].
      split; [lia |]. split; [lia |]. split; [lia |].
      exists (token :: toks). split; [cbn; lia |].
      unfold requests in *. rewrite R, A5, F5, G5.
      rewrite <- app_assoc. reflexivity.
    + pose proof (after_provider None s2) as (A1 & A2 & A3 & A4 & A5).
      cbv zeta in A1, A2, A3, A4, A5. rewrite Heq. cbn [snd].
      split; [destruct (has_token s); lia |].
      split; [lia |]. split; [lia |]. split; [lia |].
      exists [token]. split; [cbn; lia |].
      unfold requests in *. rewrite A5, F5, G5. reflexivity.
  - rewrite Heq.
    pose proof (conclude_effects call r s2) as (_ & C2 & C3 & C4 & C5).
    pose proof (conclude_json call r s2) as C6.
    cbv zeta in C2, C3, C4, C5.
    split; [destruct (has_token s); lia |].
    split; [lia |]. split; [lia |]. split; [lia |].
    exists [token]. split; [cbn; lia |].
    unfold requests in *. rewrite C5, F5, G5. reflexivity.
Qed.

(** The state an operation leaves is the state its request leaves. *)
Lemma run_state (w : World) (c : VenalabsApiClient) (op : Operation)
    (s : State) :
  (forall id, In id (identifiers op) -> id <> ""%string) ->
  snd (run w c op s) = snd (issue w c (descriptor op) false s).
Proof.
  intro Hid. rewrite (run_valid w c op s Hid).
  destruct op; try reflexivity; unfold bind, try_catch;
    destruct (issue w c _ false s) as [[v|t] s1]; try reflexivity.
  destruct t as [e | n m | x]; try reflexivity.
  cbn [swallow_not_found].
  destruct (String.eqb (VenalabsErrorCodes (code e)) "NOT_FOUND");
    reflexivity.
Qed.

Lemma identifiers_dec (op : Operation) :
  {In ""%string (identifiers op)}
  + {forall id, In id (identifiers op) -> id <> ""%string}.
Proof.
  destruct (in_dec string_dec ""%string (identifiers op)) as [H | H].
  - left. exact H.
  - right. intros id Hin ->. contradiction.
Qed.

(** X6. What one call of an operation can cost, whatever the server and
    the provider do: at most 2 requests handed to the transport primitive,
    at most 4 [fetch] attempts, at most 3 calls of the token provider and
    at most 1 call of [response.json()]. *)
Theorem operation_effort_is_bounded :
  forall (w : World) (c : VenalabsApiClient) (op : Operation) (s : State),
    let s' := snd (run w c op s) in
    (transport_calls s' <= transport_calls s + 2)%nat
    /\ (fetch_calls s' <= fetch_calls s + 4)%nat
    /\ (provider_calls s' <= provider_calls s + 3)%nat
    /\ (json_calls s' <= json_calls s + 1)%nat.
Proof.
  intros w c op s s'. subst s'.
  destruct (identifiers_dec op) as [Hin | Hid].
  - destruct (run_missing_identifier w c op s Hin) as (name & Hrun & _).
    rewrite Hrun. cbn [snd]. repeat split; lia.
  - rewrite (run_state w c op s Hid).
    destruct (issue_effects w c (descriptor op) false s)
      as (P & T & F & J & _).
    cbv zeta in P, T, F, J. repeat split; lia.
Qed.

(** X7. Every request an operation hands to the transport primitive is
    the request of the wire contract for that operation (method, URL under
    [baseUrl/api/v1/sdk], and the JSON body of [wire_body]: the request
    document of [completeStep], the wallet address and signature of
    [linkStellarWallet], the transaction hash of [verifyNftMint], none
    otherwise) and carries the three headers
    [Content-Type: application/json], [X-Api-Key: <apiKey>] and
    [Authorization: Bearer <token>]; a retry differs from the first
    request in the token only. *)
Theorem operation_requests_follow_the_wire_contract :
  forall (w : World) (c : VenalabsApiClient) (op : Operation) (s : State),
    exists tokens,
      (List.length tokens <= 2)%nat
      /\ requests (snd (run w c op s))
         = requests s
           ++ map (fun token =>
                     EvRequest
                       (mkRequest
                          (baseUrl c ++ "/api/v1/sdk"
                             ++ match descriptor op with
                                | CallGet endpoint => endpoint
                                | CallPost endpoint _ => endpoint
                                end)%string
                          match descriptor op with
                          | CallGet _ => GET
                          | CallPost _ _ => POST
                          end
                          (mkHeaders "application/json" (apiKey c)
                                     ("Bearer " ++ token)%string)
                          (wire_body op)))
                  tokens.
Proof.
  intros w c op s.
  destruct (identifiers_dec op) as [Hin | Hid].
  - destruct (run_missing_identifier w c op s Hin) as (name & Hrun & _).
    rewrite Hrun. cbn [snd]. exists []. cbn.
    split; [lia | now rewrite app_nil_r].
  - rewrite (run_state w c op s Hid).
    destruct (issue_effects w c (descriptor op) false s)
      as (_ & _ & _ & _ & tokens & L & R).
    exists tokens. split; [exact L |].
    cbv zeta in R. rewrite R. f_equal. apply map_ext. intro token.
    destruct op as [| | | courseId stepId request | | | | | | | |];
      try reflexivity.
    destruct request as [[| [|] | [|n|n] | [|a m] | items | fields]|];
      reflexivity.
Qed.

Lemma operation_requests_follow_the_wire_contract_witness :
  let c := Scenario.client_with (Scenario.provider_of [] "valid-token") in
  let w := Scenario.server_always Scenario.no_content in
  requests (snd (run w c (VerifyNftMint "course-1" "step-1" "abc") initial))
  = [EvRequest
       (mkRequest
          "https://sdk.test/api/v1/sdk/courses/course-1/steps/step-1/nft-verify"
          POST
          (mkHeaders "application/json" "valid-key" "Bearer valid-token")
          (Some (JObj [("txHash", JStr "abc")])))].
Proof.
  intros c w.
  destruct (operation_requests_follow_the_wire_contract w c
              (VerifyNftMint "course-1" "step-1" "abc") initial)
    as (tokens & Hlen & Hreq).
  rewrite Hreq. cbn [requests log initial filter app].
  assert (Htokens : tokens = ["valid-token"%string]).
  { assert (Hrun : requests
               (snd (run w c (VerifyNftMint "course-1" "step-1" "abc") initial))
             = [EvRequest
                  (mkRequest
                     "https://sdk.test/api/v1/sdk/courses/course-1/steps/step-1/nft-verify"
                     POST
                     (mkHeaders "application/json" "valid-key"
                                "Bearer valid-token")
                     (Some (JObj [("txHash", JStr "abc")])))])
      by reflexivity.
    rewrite Hreq in Hrun. cbn [requests log initial filter app] in Hrun.
    destruct tokens as [|t1 [|t2 rest]]; try discriminate Hrun.
    cbn in Hrun. injection Hrun as Ht. now subst t1. }
  rewrite Htokens. reflexivity.
Defined.

(** ** Failures of a logical call *)



(** X9. When no credential is cached and the provider rejects, the call
    is rejected with the provider's error before anything is sent: no
    request reaches the transport, and the cache is left as it was. *)
Theorem provider_failure_stops_the_call :
  forall (w : World) (c : VenalabsApiClient) (call : Call) (isRetry : bool)
         (s : State) (t : Thrown),
    has_token s = false ->
    tokenProvider c (provider_calls s) = Fails t ->
    issue w c call isRetry s
    = (Rejected t, mkState (cachedToken s) (log s ++ [EvProvider])).
Proof.
  intros w c call isRetry s t H Hp.
  rewrite issue_step. unfold bind at 1.
  now rewrite (getHeaders_uncached c s H), Hp.
Qed.

Lemma provider_failure_stops_the_call_witness :
  let c := Scenario.client_with
             (fun _ => Fails (JsError "Error" "no session")) in
  let w := Scenario.server_always (Scenario.status_only 200) in
  issue w c (CallGet "/maps") false initial
  = (Rejected (JsError "Error" "no session"), mkState None [EvProvider]).
Proof.
  intros c w.
  exact (provider_failure_stops_the_call w c (CallGet "/maps") false initial
           (JsError "Error" "no session") eq_refl eq_refl).
Defined.

(** X10. When the refresh that follows a first 401 is rejected by the
    provider, the call is rejected with the provider's error and the
    request is not sent again; the rejected credential stays dropped, so
    the next call starts by asking the provider. *)
Theorem failed_refresh_is_not_retried :
  forall (w : World) (c : VenalabsApiClient) (call : Call)
         (s s1 s2 : State) (h : Headers) (r : Response) (t : Thrown),
    getHeaders c s = (Resolved h, s1) ->
    fetchWithRetry w (request_of c call h) (getRetryOptions c) s1
    = (Resolved r, s2) ->
    resp_status r = 401 ->
    tokenProvider c (provider_calls s2) = Fails t ->
    issue w c call false s
    = (Rejected t, mkState None (log s2 ++ [EvProvider]))
    /\ transport_calls (mkState None (log s2 ++ [EvProvider]))
       = S (transport_calls s)
    /\ has_token (mkState None (log s2 ++ [EvProvider])) = false.
Proof.
  intros w c call s s1 s2 h r t H1 H2 H401 Hp.
  split.
  - rewrite issue_step. unfold bind at 1. rewrite H1. unfold bind at 1.
    rewrite H2, H401. cbn [Z.eqb Pos.eqb negb andb].
    unfold bind at 1. unfold clearToken, set_cachedToken.
    unfold bind at 1. rewrite refreshToken_run. cbn [log cachedToken].
    change (provider_calls (mkState None (log s2))) with (provider_calls s2).
    now rewrite Hp.
  - pose proof (getHeaders_effects c s) as (_ & G2 & _).
    rewrite H1 in G2. cbn [snd] in G2.
    pose proof (fetchWithRetry_effects w (request_of c call h)
                  (getRetryOptions c) s1) as (_ & _ & F3 & _).
    rewrite H2 in F3. cbn [snd] in F3.
    pose proof (after_provider None s2) as (_ & A2 & _).
    cbv zeta in A2. split; [lia | reflexivity].
Qed.

Lemma failed_refresh_is_not_retried_witness :
  let c := Scenario.client_with
             (fun n => match n with
                       | O => Provides "expired-token"
                       | _ => Fails (JsError "Error" "no session")
                       end) in
  let w := Scenario.server_accepting "fresh-token" in
  fst (issue w c (CallGet "/maps") false initial)
  = Rejected (JsError "Error" "no session").
Proof.
  intros c w.
  pose proof (failed_refresh_is_not_retried w c (CallGet "/maps") initial
                (mkState (Some "expired-token"%string) [EvProvider])
                (snd (fetchWithRetry w
                        (request_of c (CallGet "/maps")
                           (headers_with c "expired-token"))
                        (getRetryOptions c)
                        (mkState (Some "expired-token"%string) [EvProvider])))
                (headers_with c "expired-token")
                (mkResponse 401 None (Some Scenario.expired_body))
                (JsError "Error" "no session")
                eq_refl eq_refl eq_refl eq_refl) as [H _].
  rewrite H. reflexivity.
Defined.

(** X11. A failure of the transport (timeout, network error) is passed to
    the caller as it is: the client neither refreshes the token nor sends
    the request again, and the cached credential is kept. *)
Theorem transport_failure_is_passed_on :
  forall (w : World) (c : VenalabsApiClient) (call : Call) (isRetry : bool)
         (s s1 s2 : State) (h : Headers) (t : Thrown),
    getHeaders c s = (Resolved h, s1) ->
    fetchWithRetry w (request_of c call h) (getRetryOptions c) s1
    = (Rejected t, s2) ->
    issue w c call isRetry s = (Rejected t, s2)
    /\ cachedToken s2 = cachedToken s1
    /\ provider_calls s2 = provider_calls s1
    /\ transport_calls s2 = S (transport_calls s).
Proof.
  intros w c call isRetry s s1 s2 h t H1 H2.
  split.
  - rewrite issue_step. unfold bind at 1. rewrite H1. unfold bind at 1.
    now rewrite H2.
  - pose proof (getHeaders_effects c s) as (_ & G2 & _).
    rewrite H1 in G2. cbn [snd] in G2.
    pose proof (fetchWithRetry_effects w (request_of c call h)
                  (getRetryOptions c) s1) as (F1 & F2 & F3 & _).
    rewrite H2 in F1, F2, F3. cbn [snd] in F1, F2, F3.
    repeat split; congruence.
Qed.

Lemma transport_failure_is_passed_on_witness :
  let c := Scenario.client_with (Scenario.provider_of [] "valid-token") in
  let w := Scenario.server_script []
             (Throws (JsError "TypeError" "Failed to fetch")) in
  fst (issue w c (CallGet "/maps") false initial)
  = Rejected (ApiError (mkApiError NETWORK_ERROR 0
                          "Network error: Failed to fetch"))
  /\ cachedToken (snd (issue w c (CallGet "/maps") false initial))
     = Some "valid-token"%string.
Proof.
  intros c w.
  pose proof (transport_failure_is_passed_on w c (CallGet "/maps") false
                initial
                (mkState (Some "valid-token"%string) [EvProvider])
                (snd (fetchWithRetry w
                        (request_of c (CallGet "/maps")
                           (headers_with c "valid-token"))
                        (getRetryOptions c)
                        (mkState (Some "valid-token"%string) [EvProvider])))
                (headers_with c "valid-token")
                (ApiError (mkApiError NETWORK_ERROR 0
                             "Network error: Failed to fetch"))
                eq_refl eq_refl) as (H & Hc & _).
  rewrite H. cbn [fst snd]. split; [reflexivity | exact Hc].
Defined.

(** ** The credential is fetched once per cache lifetime *)

Lemma issue_with_token (w : World) (c : VenalabsApiClient) (call : Call)
    (s : State) :
  (forall n req r, fetch w n req = Responds r -> resp_status r <> 401) ->
  has_token s = true ->
  let s' := snd (issue w c call false s) in
  provider_calls s' = provider_calls s
  /\ transport_calls s' = S (transport_calls s)
  /\ cachedToken s' = cachedToken s.
Proof.
  intros H401 Ht s'. subst s'.
  apply has_token_spec in Ht as (token & Hc & Hne).
  pose proof (issue_step w c call false s) as Heq. unfold bind at 1 in Heq.
  rewrite (getHeaders_cached c s token Hc Hne) in Heq.
  unfold bind at 1 in Heq.
  pose proof (fetchWithRetry_effects w
                (request_of c call (headers_with c token))
                (getRetryOptions c) s) as (F1 & F2 & F3 & _).
  pose proof (fetchWithRetry_response_origin w
                (request_of c call (headers_with c token))
                (getRetryOptions c) s) as Ho.
  destruct (fetchWithRetry w (request_of c call (headers_with c token))
              (getRetryOptions c) s) as [[r|t] s2]; cbn [fst snd] in *.
  - destruct (Ho r eq_refl) as [i Hi]. apply H401 in Hi.
    apply Z.eqb_neq in Hi. rewrite Hi in Heq. cbn [andb] in Heq.
    rewrite Heq.
    pose proof (conclude_effects call r s2) as (C1 & C2 & C3 & _).
    cbv zeta in C1, C2, C3. repeat split; congruence.
  - rewrite Heq. cbn [snd]. repeat split; congruence.
Qed.

Lemma issue_each_with_token (w : World) (c : VenalabsApiClient) :
  (forall n req r, fetch w n req = Responds r -> resp_status r <> 401) ->
  forall (calls : list Call) (s : State),
    has_token s = true ->
    let s' := snd (issue_each w c calls s) in
    provider_calls s' = provider_calls s
    /\ transport_calls s' = (transport_calls s + List.length calls)%nat
    /\ cachedToken s' = cachedToken s.
Proof.
  intros H401 calls.
  induction calls as [|call rest IH]; intros s Ht s'.
  - subst s'. cbn. repeat split; auto; lia.
  - subst s'. cbn [issue_each List.length].
    destruct (issue_with_token w c call s H401 Ht) as (P & T & C).
    destruct (issue w c call false s) as [out s1]. cbn [snd] in *.
    assert (Ht1 : has_token s1 = true).
    { unfold has_token in *. now rewrite C. }
    specialize (IH s1 Ht1). cbv zeta in IH.
    destruct (issue_each w c rest s1) as [outs s2]. cbn [snd] in *.
    destruct IH as (IP & IT & IC). repeat split; try congruence; lia.
Qed.

(** X12. As long as the server does not answer 401, a non-empty credential
    is fetched once and then served from the cache: any sequence of calls
    made with a credential in the cache never calls the provider, and a
    sequence that starts without one calls it exactly once, for the first
    call. *)
Theorem credential_is_fetched_once :
  forall (w : World) (c : VenalabsApiClient) (calls : list Call) (s : State),
    (forall n req r, fetch w n req = Responds r -> resp_status r <> 401) ->
    (has_token s = true ->
       provider_calls (snd (issue_each w c calls s)) = provider_calls s)
    /\ (forall token,
          has_token s = false ->
          tokenProvider c (provider_calls s) = Provides token ->
          token <> ""%string ->
          calls <> [] ->
          provider_calls (snd (issue_each w c calls s))
          = S (provider_calls s)
          /\ cachedToken (snd (issue_each w c calls s)) = Some token).
Proof.
  intros w c calls s H401. split.
  - intro Ht. apply (issue_each_with_token w c H401 calls s Ht).
  - intros token Hn Hp Hne Hcalls.
    destruct calls as [|call rest]; [congruence |].
    cbn [issue_each].
    assert (Hfirst :
      let s1 := snd (issue w c call false s) in
      provider_calls s1 = S (provider_calls s) /\ cachedToken s1 = Some token).
    { pose proof (issue_step w c call false s) as Heq.
      unfold bind at 1 in Heq.
      rewrite (getHeaders_uncached c s Hn), Hp in Heq.
      unfold bind at 1 in Heq.
      set (s0 := mkState (Some token) (log s ++ [EvProvider])) in *.
      pose proof (after_provider (Some token) s) as (A1 & _).
      cbv zeta in A1. fold s0 in A1.
      pose proof (fetchWithRetry_effects w
                    (request_of c call (headers_with c token))
                    (getRetryOptions c) s0) as (F1 & F2 & _).
      pose proof (fetchWithRetry_response_origin w
                    (request_of c call (headers_with c token))
                    (getRetryOptions c) s0) as Ho.
      destruct (fetchWithRetry w (request_of c call (headers_with c token))
                  (getRetryOptions c) s0) as [[r|t] s2]; cbn [fst snd] in *.
      - destruct (Ho r eq_refl) as [i Hi]. apply H401 in Hi.
        apply Z.eqb_neq in Hi. rewrite Hi in Heq. cbn [andb] in Heq.
        rewrite Heq.
        pose proof (conclude_effects call r s2) as (C1 & C2 & _).
        cbv zeta in C1, C2. split; [lia | now rewrite C1, F1].
      - rewrite Heq. cbn [snd]. split; [lia | now rewrite F1]. }
    cbv zeta in Hfirst. destruct Hfirst as [P C].
    destruct (issue w c call false s) as [out s1]. cbn [snd] in *.
    assert (Ht1 : has_token s1 = true).
    { unfold has_token. rewrite C. destruct token; [congruence | reflexivity]. }
    destruct (issue_each_with_token w c H401 rest s1 Ht1) as (IP & _ & IC).
    cbv zeta in IP, IC.
    destruct (issue_each w c rest s1) as [outs s2]. cbn [snd] in *.
    split; congruence.
Qed.

Lemma credential_is_fetched_once_witness :
  let c := Scenario.client_with (Scenario.provider_of [] "valid-token") in
  let w := Scenario.server_always (mkResponse 200 None (Some Scenario.maps)) in
  provider_calls
    (snd (issue_each w c [CallGet "/maps"; CallGet "/progress";
                          CallPost "/wallet/stellar/link" None] initial))
  = 1%nat.
Proof.
  intros c w.
  assert (H401 : forall n req r,
             fetch w n req = Responds r -> resp_status r <> 401).
  { intros n req r [= <-]. discriminate. }
  refine (proj1 (proj2 (credential_is_fetched_once w c
            [CallGet "/maps"; CallGet "/progress";
             CallPost "/wallet/stellar/link" None] initial H401)
            "valid-token"%string eq_refl eq_refl _ _)); discriminate.
Defined.

(** ** What an operation resolves with *)

(** X13. A success body is handed over unmodified: when the response is a
    success, is not empty for [post] (neither status 204 nor
    [content-length: 0]) and its body parses to [v], every operation
    resolves with [v] itself, except [startCourse] and [verifyNftMint],
    which discard it and resolve with [undefined]. *)
Theorem success_body_is_returned_unmodified :
  forall (w : World) (c : VenalabsApiClient) (op : Operation)
         (s s1 s2 : State) (h : Headers) (r : Response) (v : Json),
    (forall id, In id (identifiers op) -> id <> ""%string) ->
    getHeaders c s = (Resolved h, s1) ->
    fetchWithRetry w (request_of c (descriptor op) h) (getRetryOptions c) s1
    = (Resolved r, s2) ->
    ok r = true ->
    is_empty_response r = false ->
    resp_json r = Some v ->
    fst (run w c op s)
    = Resolved match op with
               | StartCourse _ | VerifyNftMint _ _ _ => VUndefined
               | _ => VJson v
               end.
Proof.
  intros w c op s s1 s2 h r v Hid H1 H2 Hok He Hv.
  assert (H401 : (resp_status r =? 401) = false).
  { unfold ok in Hok. lia. }
  assert (Hi : issue w c (descriptor op) false s
               = (Resolved (VJson v),
                  mkState (cachedToken s2) (log s2 ++ [EvJson]))).
  { rewrite issue_step. unfold bind at 1. rewrite H1. unfold bind at 1.
    rewrite H2, H401. cbn [andb]. unfold conclude. rewrite Hok, He.
    cbn [negb]. unfold bind, json, emit, ret, throw. rewrite Hv.
    destruct (descriptor op); reflexivity. }
  rewrite (run_valid w c op s Hid).
  destruct op; unfold bind, try_catch; rewrite Hi; reflexivity.
Qed.

Lemma success_body_is_returned_unmodified_witness :
  let c := Scenario.client_with (Scenario.provider_of [] "valid-token") in
  let w := Scenario.server_always (mkResponse 200 None (Some Scenario.maps)) in
  fst (run w c GetMaps initial) = Resolved (VJson Scenario.maps)
  /\ fst (run w c (StartCourse "course-1") initial) = Resolved VUndefined.
Proof.
  intros c w.
  assert (Hid : forall op, op = GetMaps \/ op = StartCourse "course-1" ->
                forall id, In id (identifiers op) -> id <> ""%string).
  { intros op [-> | ->] id; cbn;
      [intros [] | intros [<- | []]; discriminate]. }
  split.
  - exact (success_body_is_returned_unmodified w c GetMaps initial
             (mkState (Some "valid-token"%string) [EvProvider])
             (snd (fetchWithRetry w
                     (request_of c (descriptor GetMaps)
                        (headers_with c "valid-token"))
                     (getRetryOptions c)
                     (mkState (Some "valid-token"%string) [EvProvider])))
             (headers_with c "valid-token")
             (mkResponse 200 None (Some Scenario.maps)) Scenario.maps
             (Hid _ (or_introl eq_refl))
             eq_refl eq_refl eq_refl eq_refl eq_refl).
  - exact (success_body_is_returned_unmodified w c (StartCourse "course-1")
             initial
             (mkState (Some "valid-token"%string) [EvProvider])
             (snd (fetchWithRetry w
                     (request_of c (descriptor (StartCourse "course-1"))
                        (headers_with c "valid-token"))
                     (getRetryOptions c)
                     (mkState (Some "valid-token"%string) [EvProvider])))
             (headers_with c "valid-token")
             (mkResponse 200 None (Some Scenario.maps)) Scenario.maps
             (Hid _ (or_intror eq_refl))
             eq_refl eq_refl eq_refl eq_refl eq_refl).
Defined.

(** ** Token coordinator: between two settlements *)

Section InFlight.

Import Coordinator.

Variable provider : Provider.

Lemma step_in_flight (s : State) (a : Action) (call : nat) :
  is_call a = true ->
  tokenPromise s = Some call ->
  tokenPromise (step provider s a) = Some call
  /\ providerCalls (step provider s a) = providerCalls s.
Proof.
  intros Ha Hp. destruct a as [| | o]; [| | discriminate]; cbn [step].
  - assert (Hr : tokenPromise (fst (refreshToken provider s)) = Some call
                 /\ providerCalls (fst (refreshToken provider s))
                    = providerCalls s).
    { unfold refreshToken. rewrite Hp. auto. }
    unfold getToken.
    destruct (cachedToken s) as [token|]; [| exact Hr].
    destruct (truthy token); [auto | exact Hr].
  - unfold refreshToken. cbn [clearToken tokenPromise]. rewrite Hp. auto.
Qed.

Lemma step_call (s : State) (a : Action) :
  is_call a = true ->
  provider (providerCalls s) = None ->
  (providerCalls (step provider s a) <= S (providerCalls s))%nat
  /\ (tokenPromise (step provider s a) = None ->
      providerCalls (step provider s a) = providerCalls s).
Proof.
  intros Ha Hpromise. destruct a as [| | o]; [| | discriminate]; cbn [step].
  - assert (Hr : (providerCalls (fst (refreshToken provider s))
                  <= S (providerCalls s))%nat
                 /\ (tokenPromise (fst (refreshToken provider s)) = None ->
                     providerCalls (fst (refreshToken provider s))
                     = providerCalls s)).
    { unfold refreshToken. rewrite Hpromise.
      destruct (tokenPromise s); cbn; auto.
      split; [lia | discriminate]. }
    unfold getToken.
    destruct (cachedToken s) as [token|]; [| exact Hr].
    destruct (truthy token); [auto | exact Hr].
  - unfold refreshToken. cbn [clearToken tokenPromise providerCalls].
    rewrite Hpromise.
    destruct (tokenPromise s); cbn; auto. split; [lia | discriminate].
Qed.

Lemma exec_in_flight (batch : list Action) (s : State) (call : nat) :
  forallb is_call batch = true ->
  tokenPromise s = Some call ->
  tokenPromise (exec provider batch s) = Some call
  /\ providerCalls (exec provider batch s) = providerCalls s.
Proof.
  revert s. induction batch as [|a rest IH]; intros s Hb Hp; [auto |].
  cbn in Hb. apply andb_true_iff in Hb as [Ha Hrest].
  destruct (step_in_flight s a call Ha Hp) as [Hp1 Hc1].
  destruct (IH (step provider s a) Hrest Hp1) as [Hp2 Hc2].
  change (exec provider (a :: rest) s)
    with (exec provider rest (step provider s a)).
  split; congruence.
Qed.

End InFlight.

Section BetweenSettlements.

Import Coordinator.

(** X14. With a provider whose next call returns its promise (it does
    not throw on the spot), the provider is called at most once between
    two settlements, whatever the callers do: in any run of [getToken()]
    calls and 401 paths ([clearToken(); refreshToken()]) without a
    settlement in between, at most one provider call is made, and none
    while a refresh is in flight.  An invalidation does not cancel the
    refresh in flight: when it settles with a token, that token is
    cached. *)
Theorem at_most_one_refresh_between_settlements :
  forall (provider : Provider) (batch : list Action) (s : State),
    forallb is_call batch = true ->
    provider (providerCalls s) = None ->
    let s1 := exec provider batch s in
    (providerCalls s1 <= S (providerCalls s))%nat
    /\ (forall call, tokenPromise s = Some call ->
          tokenPromise s1 = Some call
          /\ providerCalls s1 = providerCalls s)
    /\ (forall call token, tokenPromise s1 = Some call ->
          cachedToken (settle (Provides token) s1) = Some token
          /\ tokenPromise (settle (Provides token) s1) = None
          /\ result (settle (Provides token) s1) (Awaits call)
             = Some (Resolved token)).
Proof.
  intros provider batch s Hb Hpromise s1. subst s1. split; [| split].
  - revert s Hb Hpromise.
    induction batch as [|a rest IH]; intros s Hb Hpromise; [cbn; lia |].
    cbn in Hb. apply andb_true_iff in Hb as [Ha Hrest].
    destruct (step_call provider s a Ha Hpromise) as [Hle Hnone].
    change (exec provider (a :: rest) s)
      with (exec provider rest (step provider s a)).
    destruct (tokenPromise (step provider s a)) as [call|] eqn:E.
    + destruct (exec_in_flight provider rest (step provider s a) call Hrest E)
        as [_ Hc].
      rewrite Hc. exact Hle.
    + specialize (IH (step provider s a) Hrest).
      rewrite (Hnone eq_refl) in IH. apply IH. exact Hpromise.
  - intros call Hp. exact (exec_in_flight provider batch s call Hb Hp).
  - intros call token Hp. unfold settle. rewrite Hp.
    cbn [cachedToken tokenPromise result settled lookup].
    now rewrite Nat.eqb_refl.
Qed.

Lemma at_most_one_refresh_between_settlements_witness :
  providerCalls
    (exec returns_promise
       [GetToken; ClearAndRefresh; GetToken; ClearAndRefresh] initial)
  = 1%nat.
Proof.
  destruct (at_most_one_refresh_between_settlements returns_promise
              [ClearAndRefresh; GetToken; ClearAndRefresh]
              (exec returns_promise [GetToken] initial) eq_refl eq_refl)
    as (_ & H & _).
  exact (proj2 (H O eq_refl)).
Defined.

End BetweenSettlements.

(** ** The SDK provider's callbacks *)

Lemma refreshProgress_resolves (w : World) (c : VenalabsApiClient)
    (st : Sdk.SdkState) :
  fst (Sdk.refreshProgress w c st) = Resolved tt
  /\ Sdk.courseCache (snd (Sdk.refreshProgress w c st)) = Sdk.courseCache st
  /\ Sdk.maps (snd (Sdk.refreshProgress w c st)) = Sdk.maps st
  /\ Sdk.error (snd (Sdk.refreshProgress w c st)) = Sdk.error st
  /\ Sdk.linkedWalletAddress (snd (Sdk.refreshProgress w c st))
     = Sdk.linkedWalletAddress st.
Proof.
  unfold Sdk.refreshProgress.
  destruct (getProgress w c (Sdk.client st)) as [[v|t] s']; cbn; auto.
Qed.

(** X15. The course memo: a course fetched once is served from the cache
    from then on, without touching the client (no provider call, no
    request), whatever the server would answer now.  A failed fetch
    resolves with [null] and caches nothing, so the next call asks the
    server again. *)
Theorem course_is_fetched_once :
  forall (w : World) (c : VenalabsApiClient) (courseId : string)
         (st : Sdk.SdkState),
    Sdk.cache_get courseId (Sdk.courseCache st) = None ->
    (forall course s',
       Client.getCourse w c courseId (Sdk.client st) = (Resolved course, s') ->
       fst (Sdk.getCourse w c courseId st) = Resolved course
       /\ forall w',
            Sdk.getCourse w' c courseId (snd (Sdk.getCourse w c courseId st))
            = (Resolved course, snd (Sdk.getCourse w c courseId st)))
    /\ (forall t s',
          Client.getCourse w c courseId (Sdk.client st) = (Rejected t, s') ->
          Sdk.getCourse w c courseId st
          = (Resolved (VJson JNull), Sdk.with_client st s')
          /\ Sdk.cache_get courseId (Sdk.courseCache (Sdk.with_client st s'))
             = None).
Proof.
  intros w c courseId st Hmiss. split.
  - intros course s' Hc. unfold Sdk.getCourse at 1 3 4. rewrite Hmiss, Hc.
    cbn [Sdk.getCourse_resume fst snd]. split; [reflexivity |].
    intro w'. unfold Sdk.getCourse.
    cbn [Sdk.courseCache Sdk.cache_get]. now rewrite String.eqb_refl.
  - intros t s' Hc. unfold Sdk.getCourse. rewrite Hmiss, Hc.
    split; [reflexivity | exact Hmiss].
Qed.

Lemma course_is_fetched_once_witness :
  let c := Scenario.client_with (Scenario.provider_of [] "valid-token") in
  let w := Scenario.server_always (mkResponse 200 None (Some Scenario.maps)) in
  let down := Scenario.server_script []
                (Throws (JsError "TypeError" "Failed to fetch")) in
  let st1 := snd (Sdk.getCourse w c "course-1" Sdk.mounted) in
  Sdk.getCourse down c "course-1" st1 = (Resolved (VJson Scenario.maps), st1).
Proof.
  intros c w down st1.
  exact (proj2 (proj1 (course_is_fetched_once w c "course-1" Sdk.mounted
                         eq_refl)
                  (VJson Scenario.maps)
                  (snd (Client.getCourse w c "course-1" initial)) eq_refl)
           down).
Defined.

(** X16. No callback of the provider evicts a course from the cache.
    When the callbacks run one at a time, an entry present before
    [refreshMaps], [refreshProgress], [fetchLinkedWallet], [getCourse],
    [startCourse] or [completeStep] is present, with the same course,
    after it.  When calls of [getCourse] overlap, the part of a call that
    resumes after its fetch stores the course without looking at the cache
    again: an entry of another course is kept as it is, while an entry of
    the same course, stored meanwhile by another call, is replaced by the
    course this call fetched; a failed fetch changes nothing. *)
Theorem course_cache_never_evicts :
  forall (w : World) (c : VenalabsApiClient) (k : string) (v : Value)
         (st : Sdk.SdkState),
    Sdk.cache_get k (Sdk.courseCache st) = Some v ->
    let kept := fun st' => Sdk.cache_get k (Sdk.courseCache st') = Some v in
    kept (snd (Sdk.refreshMaps w c st))
    /\ kept (snd (Sdk.refreshProgress w c st))
    /\ kept (snd (Sdk.fetchLinkedWallet w c st))
    /\ (forall courseId, kept (snd (Sdk.getCourse w c courseId st)))
    /\ (forall courseId, kept (snd (Sdk.startCourse w c courseId st)))
    /\ (forall courseId stepId response,
          kept (snd (Sdk.completeStep w c courseId stepId response st)))
    /\ (forall courseId fetched,
          courseId <> k ->
          kept (snd (Sdk.getCourse_resume courseId fetched st)))
    /\ (forall course,
          Sdk.cache_get k
            (Sdk.courseCache (snd (Sdk.getCourse_resume k (Resolved course) st)))
          = Some course)
    /\ (forall t, Sdk.getCourse_resume k (Rejected t) st
                  = (Resolved (VJson JNull), st)).
Proof.
  intros w c k v st H kept. subst kept. cbv beta.
  split.
  { unfold Sdk.refreshMaps.
    destruct (getMaps w c (Sdk.client st)) as [[x|t] s']; exact H. }
  split.
  { destruct (refreshProgress_resolves w c st) as (_ & Hc & _).
    now rewrite Hc. }
  split.
  { unfold Sdk.fetchLinkedWallet.
    destruct (getLinkedWallets w c (Sdk.client st)) as [[x|t] s'];
      [| exact H].
    destruct x as [|j]; [exact H |]. destruct j; exact H. }
  split.
  { intro courseId. unfold Sdk.getCourse.
    destruct (Sdk.cache_get courseId (Sdk.courseCache st)) eqn:E; [exact H |].
    destruct (Client.getCourse w c courseId (Sdk.client st)) as [[x|t] s'];
      [| exact H].
    cbn [Sdk.getCourse_resume Sdk.with_client snd Sdk.courseCache
         Sdk.cache_get].
    destruct (String.eqb_spec courseId k) as [-> | _]; [congruence | exact H]. }
  split.
  { intro courseId. unfold Sdk.startCourse.
    destruct (Client.startCourse w c courseId (Sdk.client st)) as [[x|t] s'];
      [| exact H].
    destruct (refreshProgress_resolves w c (Sdk.with_client st s'))
      as (_ & Hc & _).
    now rewrite Hc. }
  split.
  { intros courseId stepId response. unfold Sdk.completeStep.
    destruct (Client.completeStep w c courseId stepId response (Sdk.client st))
      as [[x|t] s']; [| exact H].
    destruct (refreshProgress_resolves w c (Sdk.with_client st s'))
      as (_ & Hc & _).
    destruct (Sdk.refreshProgress w c (Sdk.with_client st s')) as [o st1].
    cbn [snd] in Hc.
    destruct (getCourseProgress w c courseId (Sdk.client st1)) as [[u|t] s2];
      cbn [snd Sdk.with_client Sdk.courseCache]; now rewrite Hc. }
  split.
  { intros courseId [course|t] Hne; cbn [Sdk.getCourse_resume snd];
      [| exact H].
    cbn [Sdk.courseCache Sdk.cache_get].
    destruct (String.eqb_spec courseId k) as [-> | _];
      [contradiction | exact H]. }
  split; [| reflexivity].
  intro course. cbn [Sdk.getCourse_resume snd Sdk.courseCache Sdk.cache_get].
  now rewrite String.eqb_refl.
Qed.

Lemma course_cache_never_evicts_witness :
  let c := Scenario.client_with (Scenario.provider_of [] "valid-token") in
  let w := Scenario.server_always Scenario.not_found in
  let st := snd (Sdk.getCourse
                   (Scenario.server_always
                      (mkResponse 200 None (Some Scenario.maps)))
                   c "course-1" Sdk.mounted) in
  Sdk.cache_get "course-1"
    (Sdk.courseCache (snd (Sdk.getCourse w c "course-2" st)))
  = Some (VJson Scenario.maps)
  /\ Sdk.cache_get "course-1"
       (Sdk.courseCache
          (snd (Sdk.getCourse_resume "course-1" (Resolved (VJson JNull)) st)))
     = Some (VJson JNull).
Proof.
  intros c w st.
  pose proof (course_cache_never_evicts w c "course-1" (VJson Scenario.maps)
                st eq_refl) as H.
  cbv zeta beta in H.
  destruct H as (_ & _ & _ & Hget & _ & _ & _ & Hsame & _).
  split; [exact (Hget "course-2"%string) | exact (Hsame (VJson JNull))].
Defined.

(** X17. [completeStep] of the context stops at the first failure: when
    the client's [completeStep] is rejected, the error is rethrown and
    neither the progress refresh nor the course-progress lookup is made.
    When it resolves, it never resolves with [null]: a course progress
    that is not found (or any falsy body) becomes [undefined]. *)
Theorem context_completeStep_stops_at_failure :
  forall (w : World) (c : VenalabsApiClient) (courseId stepId : string)
         (response : option Json) (st : Sdk.SdkState),
    (forall t s',
       Client.completeStep w c courseId stepId response (Sdk.client st)
       = (Rejected t, s') ->
       Sdk.completeStep w c courseId stepId response st
       = (Rejected t, Sdk.with_client st s'))
    /\ (forall v,
          fst (Sdk.completeStep w c courseId stepId response st) = Resolved v ->
          v = VUndefined \/ exists j, v = VJson j /\ json_truthy j = true).
Proof.
  intros w c courseId stepId response st. split.
  - intros t s' H. unfold Sdk.completeStep. now rewrite H.
  - intro v. unfold Sdk.completeStep.
    destruct (Client.completeStep w c courseId stepId response (Sdk.client st))
      as [[x|t] s']; [| discriminate].
    destruct (Sdk.refreshProgress w c (Sdk.with_client st s')) as [o st1].
    destruct (getCourseProgress w c courseId (Sdk.client st1)) as [[u|t] s2];
      [| discriminate].
    cbn [fst]. intros [= <-]. unfold Sdk.or_undefined.
    destruct u as [|j]; [auto |].
    destruct (json_truthy j) eqn:E; [right; eauto | auto].
Qed.

Lemma context_completeStep_stops_at_failure_witness :
  let c := Scenario.client_with (Scenario.provider_of [] "valid-token") in
  let w := Scenario.server_always (mkResponse 403 None None) in
  fst (Sdk.completeStep w c "course-1" "step-1" None Sdk.mounted)
  = Rejected (ApiError (mkApiError INVALID_API_KEY 403 "Invalid API key"))
  /\ transport_calls
       (Sdk.client
          (snd (Sdk.completeStep w c "course-1" "step-1" None Sdk.mounted)))
     = 1%nat.
Proof.
  intros c w.
  rewrite (proj1 (context_completeStep_stops_at_failure w c "course-1"
                    "step-1" None Sdk.mounted)
             (ApiError (mkApiError INVALID_API_KEY 403 "Invalid API key"))
             (snd (Client.completeStep w c "course-1" "step-1" None initial))
             eq_refl).
  split; reflexivity.
Defined.

(** X18. [fetchLinkedWallet] never rejects.  Whatever makes the lookup
    fail (an outage as much as an auth error, or a response that is
    [null] or [undefined]), the known address is left as it was.  When the
    lookup succeeds with an object, the address becomes the first truthy
    entry of [walletAddresses] among STELLAR_TESTNET, STELLAR_PUBLIC and
    STELLAR, in that order: an entry that is absent or falsy gives way to
    the next one.  When none of the three is truthy the address becomes
    [null], which forgets the known address. *)
Theorem fetchLinkedWallet_keeps_address_on_failure :
  forall (w : World) (c : VenalabsApiClient) (st : Sdk.SdkState),
    fst (Sdk.fetchLinkedWallet w c st) = Resolved tt
    /\ (forall t s',
          getLinkedWallets w c (Sdk.client st) = (Rejected t, s') ->
          snd (Sdk.fetchLinkedWallet w c st) = Sdk.with_client st s')
    /\ (forall response s',
          getLinkedWallets w c (Sdk.client st) = (Resolved response, s') ->
          response = VUndefined \/ response = VJson JNull ->
          snd (Sdk.fetchLinkedWallet w c st) = Sdk.with_client st s')
    /\ (forall fields s',
          getLinkedWallets w c (Sdk.client st)
          = (Resolved (VJson (JObj fields)), s') ->
          let entry := fun network =>
            match field "walletAddresses" fields with
            | Some (JObj addresses) => field network addresses
            | _ => None
            end in
          let given := fun network =>
            match entry network with
            | Some a => json_truthy a
            | None => false
            end in
          let address :=
            Sdk.linkedWalletAddress (snd (Sdk.fetchLinkedWallet w c st)) in
          (given "STELLAR_TESTNET" = true ->
           address = entry "STELLAR_TESTNET")
          /\ (given "STELLAR_TESTNET" = false ->
              given "STELLAR_PUBLIC" = true ->
              address = entry "STELLAR_PUBLIC")
          /\ (given "STELLAR_TESTNET" = false ->
              given "STELLAR_PUBLIC" = false ->
              given "STELLAR" = true ->
              address = entry "STELLAR")
          /\ (given "STELLAR_TESTNET" = false ->
              given "STELLAR_PUBLIC" = false ->
              given "STELLAR" = false ->
              address = None)).
Proof.
  intros w c st. split; [| split; [| split]].
  - unfold Sdk.fetchLinkedWallet.
    destruct (getLinkedWallets w c (Sdk.client st)) as [[x|t] s'];
      [| reflexivity].
    destruct x as [|j]; [reflexivity |]. destruct j; reflexivity.
  - intros t s' H. unfold Sdk.fetchLinkedWallet. now rewrite H.
  - intros response s' H [-> | ->]; unfold Sdk.fetchLinkedWallet;
      now rewrite H.
  - intros fields s' H entry given address. subst address.
    unfold Sdk.fetchLinkedWallet. rewrite H.
    cbn [snd Sdk.linkedWalletAddress].
    assert (He : forall network,
              Sdk.member network
                (Sdk.member "walletAddresses" (Some (JObj fields)))
              = entry network).
    { intro network. subst entry. cbn [Sdk.member].
      destruct (field "walletAddresses" fields) as [[| | | | |]|];
        reflexivity. }
    rewrite !He. subst given. cbv beta.
    unfold Sdk.or_else.
    destruct (entry "STELLAR_TESTNET") as [a|];
      [destruct (json_truthy a) |];
      (destruct (entry "STELLAR_PUBLIC") as [b|];
       [destruct (json_truthy b) |]);
      (destruct (entry "STELLAR") as [x|];
       [destruct (json_truthy x) |]);
      repeat split; intros; try reflexivity; try discriminate.
Qed.

Lemma fetchLinkedWallet_keeps_address_on_failure_witness :
  let c := Scenario.client_with (Scenario.provider_of [] "valid-token") in
  let down := Scenario.server_script []
                (Throws (JsError "TypeError" "Failed to fetch")) in
  let fields := [("walletAddresses",
                  JObj [("STELLAR_TESTNET", JStr "");
                        ("STELLAR", JStr "GXYZ")])] in
  let up := Scenario.server_always
              (mkResponse 200 None (Some (JObj fields))) in
  let st := mkSdkLinked in
  Sdk.linkedWalletAddress (snd (Sdk.fetchLinkedWallet down c st))
  = Some (JStr "GABC")
  /\ Sdk.linkedWalletAddress (snd (Sdk.fetchLinkedWallet up c st))
     = Some (JStr "GXYZ").
Proof.
  intros c down fields up st. split.
  - rewrite (proj1 (proj2
               (fetchLinkedWallet_keeps_address_on_failure down c st))
               (ApiError (fromNetworkError "Failed to fetch"))
               (snd (getLinkedWallets down c initial)) eq_refl).
    reflexivity.
  - destruct (proj2 (proj2 (proj2
               (fetchLinkedWallet_keeps_address_on_failure up c st)))
               fields (snd (getLinkedWallets up c initial)) eq_refl)
      as (_ & _ & Hthird & _).
    exact (Hthird eq_refl eq_refl eq_refl).
Defined.

(** X19. The context's [error] reflects the last fetch of the maps and
    nothing else: after [refreshMaps] it is [null] exactly when [getMaps]
    resolved, and a failed fetch keeps the maps shown before.  The
    failures of [refreshProgress], [fetchLinkedWallet] and [getCourse]
    are silent: these callbacks always resolve and leave [error] and
    [maps] as they were. *)
Theorem only_refreshMaps_reports_errors :
  forall (w : World) (c : VenalabsApiClient) (st : Sdk.SdkState),
    fst (Sdk.refreshMaps w c st) = Resolved tt
    /\ (Sdk.error (snd (Sdk.refreshMaps w c st)) = None
        <-> exists v, fst (getMaps w c (Sdk.client st)) = Resolved v)
    /\ (forall t, fst (getMaps w c (Sdk.client st)) = Rejected t ->
          Sdk.maps (snd (Sdk.refreshMaps w c st)) = Sdk.maps st
          /\ Sdk.error (snd (Sdk.refreshMaps w c st))
             = Some (Sdk.error_or t "Failed to fetch maps"))
    /\ (forall st',
          st' = snd (Sdk.refreshProgress w c st)
          \/ st' = snd (Sdk.fetchLinkedWallet w c st)
          \/ (exists courseId, st' = snd (Sdk.getCourse w c courseId st)) ->
          Sdk.error st' = Sdk.error st /\ Sdk.maps st' = Sdk.maps st)
    /\ (forall courseId, exists course,
          fst (Sdk.getCourse w c courseId st) = Resolved course)
    /\ fst (Sdk.refreshProgress w c st) = Resolved tt
    /\ fst (Sdk.fetchLinkedWallet w c st) = Resolved tt.
Proof.
  intros w c st.
  split.
  { unfold Sdk.refreshMaps.
    destruct (getMaps w c (Sdk.client st)) as [[v|t] s']; reflexivity. }
  split.
  { unfold Sdk.refreshMaps.
    destruct (getMaps w c (Sdk.client st)) as [[v|t] s']; cbn.
    - split; [eauto | reflexivity].
    - split; [discriminate | intros [v H]; discriminate]. }
  split.
  { intros t. unfold Sdk.refreshMaps.
    destruct (getMaps w c (Sdk.client st)) as [[v|t'] s']; cbn;
      [discriminate |].
    intros [= ->]. auto. }
  split.
  { intros st' [-> | [-> | [courseId ->]]].
    - destruct (refreshProgress_resolves w c st) as (_ & _ & Hm & He & _).
      split; assumption.
    - unfold Sdk.fetchLinkedWallet.
      destruct (getLinkedWallets w c (Sdk.client st)) as [[x|t] s'];
        [| split; reflexivity].
      destruct x as [|j]; [split; reflexivity |].
      destruct j; split; reflexivity.
    - unfold Sdk.getCourse.
      destruct (Sdk.cache_get courseId (Sdk.courseCache st));
        [split; reflexivity |].
      destruct (Client.getCourse w c courseId (Sdk.client st))
        as [[x|t] s']; split; reflexivity. }
  split.
  { intro courseId. unfold Sdk.getCourse.
    destruct (Sdk.cache_get courseId (Sdk.courseCache st));
      [eexists; reflexivity |].
    destruct (Client.getCourse w c courseId (Sdk.client st)) as [[x|t] s'];
      eexists; reflexivity. }
  split; [apply refreshProgress_resolves |].
  unfold Sdk.fetchLinkedWallet.
  destruct (getLinkedWallets w c (Sdk.client st)) as [[x|t] s'];
    [| reflexivity].
  destruct x as [|j]; [reflexivity |]. destruct j; reflexivity.
Qed.

Lemma only_refreshMaps_reports_errors_witness :
  let c := Scenario.client_with (Scenario.provider_of [] "valid-token") in
  let w := Scenario.server_always (mkResponse 403 None None) in
  Sdk.error (snd (Sdk.refreshMaps w c Sdk.mounted))
  = Some (ApiError (mkApiError INVALID_API_KEY 403 "Invalid API key"))
  /\ Sdk.error (snd (Sdk.refreshProgress w c Sdk.mounted)) = None.
Proof.
  intros c w.
  destruct (only_refreshMaps_reports_errors w c Sdk.mounted)
    as (_ & _ & Hfail & Hsilent & _).
  split.
  - exact (proj2 (Hfail (ApiError (mkApiError INVALID_API_KEY 403
                                     "Invalid API key")) eq_refl)).
  - exact (proj1 (Hsilent _ (or_introl eq_refl))).
Defined.

(** X20. [startCourse] of the context is rejected exactly when the
    client's [startCourse] is, with the same error and without refreshing
    the progress; once the course is started, a failure of the progress
    refresh does not fail the call. *)
Theorem context_startCourse_ignores_refresh_failure :
  forall (w : World) (c : VenalabsApiClient) (courseId : string)
         (st : Sdk.SdkState),
    (forall t s',
       Client.startCourse w c courseId (Sdk.client st) = (Rejected t, s') ->
       Sdk.startCourse w c courseId st = (Rejected t, Sdk.with_client st s'))
    /\ (forall v s',
          Client.startCourse w c courseId (Sdk.client st) = (Resolved v, s') ->
          fst (Sdk.startCourse w c courseId st) = Resolved tt
          /\ (forall t s2,
                getProgress w c s' = (Rejected t, s2) ->
                Sdk.startCourse w c courseId st
                = (Resolved tt, Sdk.with_client st s2))).
Proof.
  intros w c courseId st. split.
  - intros t s' H. unfold Sdk.startCourse. now rewrite H.
  - intros v s' H. unfold Sdk.startCourse. rewrite H.
    split; [apply refreshProgress_resolves |].
    intros t s2 Hp. unfold Sdk.refreshProgress.
    cbn [Sdk.client Sdk.with_client]. rewrite Hp. reflexivity.
Qed.

Lemma context_startCourse_ignores_refresh_failure_witness :
  let c := Scenario.client_with (Scenario.provider_of [] "valid-token") in
  let w := Scenario.server_script [Responds Scenario.no_content]
             (Responds (mkResponse 404 None None)) in
  fst (Sdk.startCourse w c "course-1" Sdk.mounted) = Resolved tt.
Proof.
  intros c w.
  exact (proj1 (proj2 (context_startCourse_ignores_refresh_failure w c
                         "course-1" Sdk.mounted)
                  VUndefined
                  (snd (Client.startCourse w c "course-1" initial))
                  eq_refl)).
Defined.

(** ** Identifiers in paths *)

Lemma unreserved_hex_digit (n : nat) :
  (n < 16)%nat -> unreserved (hex_digit n) = true.
Proof.
  intro H. do 16 (destruct n as [|n]; [reflexivity |]). lia.
Qed.

Lemma hex_digit_inj (a b : nat) :
  (a < 16)%nat -> (b < 16)%nat -> hex_digit a = hex_digit b -> a = b.
Proof.
  intros Ha Hb.
  do 16 (destruct a as [|a];
         [do 16 (destruct b as [|b];
                 [first [reflexivity | discriminate] |]); lia |]).
  lia.
Qed.

Lemma nat_of_ascii_bound (a : ascii) : (nat_of_ascii a < 256)%nat.
Proof.
  destruct a as [[] [] [] [] [] [] [] []]; vm_compute; lia.
Qed.

(** X21. An identifier cannot leave its place in the path: every
    character of [encodeURIComponent id] is an unreserved one or [%], so
    the escaped identifier holds no [/], [?], [#], [&], [=] or space. *)
Theorem escaped_identifier_stays_in_its_segment :
  forall (id : string) (ch : ascii),
    In ch (list_ascii_of_string (encodeURIComponent id)) ->
    (unreserved ch = true \/ ch = "%"%char)
    /\ ~ In ch (list_ascii_of_string "/?#&= ").
Proof.
  assert (Hsafe : forall ch, unreserved ch = true \/ ch = "%"%char ->
                    ~ In ch (list_ascii_of_string "/?#&= ")).
  { intros ch [H | ->] Hin; cbn in Hin.
    - repeat (destruct Hin as [<- | Hin]; [discriminate H |]). exact Hin.
    - repeat (destruct Hin as [H0 | Hin]; [discriminate H0 |]). exact Hin. }
  intros id ch Hin.
  assert (H : unreserved ch = true \/ ch = "%"%char).
  { induction id as [|a id IH]; [destruct Hin |].
    cbn [encodeURIComponent] in Hin.
    destruct (unreserved a) eqn:Ea; cbn [list_ascii_of_string In] in Hin.
    - destruct Hin as [<- | Hin]; [left; exact Ea | auto].
    - destruct Hin as [<- | [<- | [<- | Hin]]]; [right; reflexivity | | | auto].
      + left. apply unreserved_hex_digit.
        pose proof (nat_of_ascii_bound a).
        apply Nat.Div0.div_lt_upper_bound. lia.
      + left. apply unreserved_hex_digit. apply Nat.mod_upper_bound. lia. }
  split; [exact H | exact (Hsafe ch H)].
Qed.

Lemma escaped_identifier_stays_in_its_segment_witness :
  ~ In "/"%char (list_ascii_of_string (encodeURIComponent "../maps?x=1")).
Proof.
  intro Hin.
  destruct (escaped_identifier_stays_in_its_segment "../maps?x=1" "/"%char Hin)
    as [_ Hno].
  apply Hno. cbn. auto.
Defined.

(** X22. Escaping loses nothing: two identifiers with the same escaped
    form are the same, so distinct course identifiers are looked up under
    distinct paths. *)
Theorem escaped_identifiers_are_distinct :
  forall a b : string,
    (encodeURIComponent a = encodeURIComponent b -> a = b)
    /\ (descriptor (GetCourse a) = descriptor (GetCourse b) -> a = b)
    /\ (descriptor (GetCourseProgress a) = descriptor (GetCourseProgress b) ->
        a = b).
Proof.
  assert (Hinj : forall a b : string,
            encodeURIComponent a = encodeURIComponent b -> a = b).
  { induction a as [|x a IH]; intros [|y b] H.
    - reflexivity.
    - cbn in H. destruct (unreserved y); discriminate.
    - cbn in H. destruct (unreserved x); discriminate.
    - cbn [encodeURIComponent] in H.
      destruct (unreserved x) eqn:Ex, (unreserved y) eqn:Ey.
      + injection H as -> H. f_equal. now apply IH.
      + injection H as -> _. discriminate Ex.
      + injection H as <- _. discriminate Ey.
      + pose proof (nat_of_ascii_bound x) as Bx.
        pose proof (nat_of_ascii_bound y) as By.
        pose proof (Nat.div_mod_eq (nat_of_ascii x) 16) as Dx.
        pose proof (Nat.div_mod_eq (nat_of_ascii y) 16) as Dy.
        assert (Qx : (nat_of_ascii x / 16 < 16)%nat)
          by (apply Nat.Div0.div_lt_upper_bound; lia).
        assert (Qy : (nat_of_ascii y / 16 < 16)%nat)
          by (apply Nat.Div0.div_lt_upper_bound; lia).
        assert (Rx : (nat_of_ascii x mod 16 < 16)%nat)
          by (apply Nat.mod_upper_bound; lia).
        assert (Ry : (nat_of_ascii y mod 16 < 16)%nat)
          by (apply Nat.mod_upper_bound; lia).
        remember (nat_of_ascii x / 16)%nat as qx.
        remember (nat_of_ascii y / 16)%nat as qy.
        remember (nat_of_ascii x mod 16)%nat as rx.
        remember (nat_of_ascii y mod 16)%nat as ry.
        injection H as H1 H2 H.
        apply hex_digit_inj in H1; [| assumption | assumption].
        apply hex_digit_inj in H2; [| assumption | assumption].
        assert (Hn : nat_of_ascii x = nat_of_ascii y) by congruence.
        f_equal; [| now apply IH].
        rewrite <- (ascii_nat_embedding x), <- (ascii_nat_embedding y).
        now rewrite Hn. }
  intros a b. split; [apply Hinj |].
  split; cbn [descriptor]; intros [= H]; now apply Hinj.
Qed.

Lemma escaped_identifiers_are_distinct_witness :
  encodeURIComponent "a/b" <> encodeURIComponent "a%2Fb".
Proof.
  intro H.
  pose proof (proj1 (escaped_identifiers_are_distinct "a/b" "a%2Fb") H).
  discriminate.
Defined.
